(** * Verification of the recovery pipeline of excel-convert

    A shallow embedding of [src/lib/converter.ts] and the properties the
    specification states about it.

    Conventions of the embedding.
    - A JavaScript string is the list of its UTF-16 code units ([jsstring]);
      [js "..."] turns a literal of this file (stored as UTF-8) into one.
    - A Node [Buffer] is a list of bytes.
    - A JavaScript number is an IEEE-754 binary64 value ([spec_float] with
      precision 53 and maximal exponent 1024).
    - A call that may throw returns a [result]; [try_catch] is the
      [try { ... } catch (e) { ... }] statement.
    - [console.log] calls have no effect on any result and are left out.
    - The libraries the converter imports (SheetJS, iconv-lite, jschardet,
      zlib) are not part of the repository: the pipeline takes them as a
      record of collaborators, see [Collaborators]. *)

From Stdlib Require Import Strings.String Strings.Byte.
From Stdlib Require Import ZArith List Bool Lia PeanoNat.
From Stdlib Require Import Floats.SpecFloat.
Import ListNotations.

Set Implicit Arguments.
Open Scope Z_scope.

(* ================================================================== *)
(** * Part I: the model                                                 *)
(* ================================================================== *)

(** ** Strings, buffers and the built-in decoders *)

Definition jsstring := list Z.
Definition Buffer := list byte.

Definition byteZ (b : byte) : Z := Z.of_N (Byte.to_N b).

Definition str_eqb (a b : jsstring) : bool :=
  if list_eq_dec Z.eq_dec a b then true else false.

(** A code point as one or two UTF-16 code units. *)
Definition utf16_units (cp : Z) : jsstring :=
  if cp <? 0x10000 then [cp]
  else [0xD800 + Z.shiftr (cp - 0x10000) 10; 0xDC00 + Z.land (cp - 0x10000) 0x3FF].

(** [buffer.toString('utf8')]: the UTF-8 decoder of the Encoding Standard,
    which Node follows; every ill-formed sequence becomes U+FFFD. *)
Record utf8_pending := MkPending
  { u_cp : Z; u_need : nat; u_lo : Z; u_hi : Z }.

Definition utf8_lead (b : Z) : jsstring * option utf8_pending :=
  if b <=? 0x7F then ([b], None)
  else if (0xC2 <=? b) && (b <=? 0xDF)
  then ([], Some (MkPending (Z.land b 0x1F) 1 0x80 0xBF))
  else if (0xE0 <=? b) && (b <=? 0xEF)
  then ([], Some (MkPending (Z.land b 0xF) 2
                    (if b =? 0xE0 then 0xA0 else 0x80)
                    (if b =? 0xED then 0x9F else 0xBF)))
  else if (0xF0 <=? b) && (b <=? 0xF4)
  then ([], Some (MkPending (Z.land b 0x7) 3
                    (if b =? 0xF0 then 0x90 else 0x80)
                    (if b =? 0xF4 then 0x8F else 0xBF)))
  else ([0xFFFD], None).

Fixpoint utf8_go (st : option utf8_pending) (bs : list Z) : jsstring :=
  match bs with
  | [] => match st with None => [] | Some _ => [0xFFFD] end
  | b :: bs' =>
    match st with
    | None => let '(out, st') := utf8_lead b in out ++ utf8_go st' bs'
    | Some p =>
      if (u_lo p <=? b) && (b <=? u_hi p) then
        let cp := Z.lor (Z.shiftl (u_cp p) 6) (Z.land b 0x3F) in
        match u_need p with
        | S (S n) => utf8_go (Some (MkPending cp (S n) 0x80 0xBF)) bs'
        | _ => utf16_units cp ++ utf8_go None bs'
        end
      else
        let '(out, st') := utf8_lead b in 0xFFFD :: out ++ utf8_go st' bs'
    end
  end.

Definition toString_utf8 (buffer : Buffer) : jsstring :=
  utf8_go None (map byteZ buffer).

(** [buffer.toString('latin1')], [('ascii')] and [('utf16le')]. *)
Definition toString_latin1 (buffer : Buffer) : jsstring := map byteZ buffer.

Definition toString_ascii (buffer : Buffer) : jsstring :=
  map (fun b => Z.land (byteZ b) 0x7F) buffer.

Fixpoint utf16le_go (bs : list Z) : jsstring :=
  match bs with
  | lo :: hi :: bs' => (lo + 256 * hi) :: utf16le_go bs'
  | _ => []
  end.

Definition toString_utf16le (buffer : Buffer) : jsstring :=
  utf16le_go (map byteZ buffer).

(** A string literal of the source. *)
Definition js (s : string) : jsstring := toString_utf8 (list_byte_of_string s).

(** ** [String.prototype] helpers *)

(** WhiteSpace and LineTerminator of ECMAScript: what [trim] strips and what
    [\s] matches. *)
Definition isWhiteSpace (c : Z) : bool :=
  ((9 <=? c) && (c <=? 13)) || (c =? 32) || (c =? 0xA0) || (c =? 0x1680)
  || ((0x2000 <=? c) && (c <=? 0x200A)) || (c =? 0x2028) || (c =? 0x2029)
  || (c =? 0x202F) || (c =? 0x205F) || (c =? 0x3000) || (c =? 0xFEFF).

Fixpoint trimStart (s : jsstring) : jsstring :=
  match s with
  | c :: s' => if isWhiteSpace c then trimStart s' else s
  | [] => []
  end.

Definition trimEnd (s : jsstring) : jsstring := rev (trimStart (rev s)).

Definition trim (s : jsstring) : jsstring := trimEnd (trimStart s).

(** [line.trim()] used as a condition: true for a string with a character
    that is not white space. *)
Definition nonBlank (s : jsstring) : bool :=
  match trim s with [] => false | _ => true end.

(** [s.split(c)] for a separator of one code unit. *)
Fixpoint split_go (sep : Z) (s : jsstring) (cur : jsstring) : list jsstring :=
  match s with
  | [] => [cur]
  | c :: s' => if c =? sep then cur :: split_go sep s' [] else split_go sep s' (cur ++ [c])
  end.

Definition split_on (sep : Z) (s : jsstring) : list jsstring := split_go sep s [].

Fixpoint starts_with (p s : jsstring) : bool :=
  match p, s with
  | [], _ => true
  | a :: p', b :: s' => (a =? b) && starts_with p' s'
  | _ :: _, [] => false
  end.

(** [s.indexOf(p)] from position 0; [None] stands for -1. *)
Fixpoint indexOf_from (p s : jsstring) (i : nat) : option nat :=
  if starts_with p s then Some i
  else match s with
       | [] => None
       | _ :: s' => indexOf_from p s' (S i)
       end.

Definition indexOf (p s : jsstring) : option nat := indexOf_from p s 0.

Definition includes (p s : jsstring) : bool :=
  match indexOf p s with Some _ => true | None => false end.

(** [s.lastIndexOf(p, from)]: the last occurrence that starts at or before
    [from]. *)
Fixpoint lastIndexOf_go (p s : jsstring) (i : nat) (from : nat) (best : option nat)
  : option nat :=
  let best' := if (i <=? from)%nat && starts_with p s then Some i else best in
  match s with
  | [] => best'
  | _ :: s' => lastIndexOf_go p s' (S i) from best'
  end.

Definition lastIndexOf (p s : jsstring) (from : nat) : option nat :=
  lastIndexOf_go p s 0 from None.

Definition lastIndexOf_end (p s : jsstring) : option nat :=
  lastIndexOf p s (length s).

(** [s.substring(a)] and [s.substring(a, b)] for [a <= b]. *)
Definition substring_from (a : nat) (s : jsstring) : jsstring := skipn a s.
Definition substring (a b : nat) (s : jsstring) : jsstring := firstn (b - a) (skipn a s).

(** [toLowerCase].  The converter only compares a lower-cased string with
    ASCII and Hangul literals and splits it at ['.'], so the only mappings
    that can be observed are the ones into ASCII letters (from [A-Z] and
    from the Kelvin sign U+212A) and the one mapping that changes the length
    (U+0130 becomes [i] followed by U+0307); the other code units are kept. *)
Definition lower_unit (c : Z) : jsstring :=
  if (65 <=? c) && (c <=? 90) then [c + 32]
  else if c =? 0x0130 then [105; 0x0307]
  else if c =? 0x212A then [107]
  else [c].

Definition toLowerCase (s : jsstring) : jsstring := flat_map lower_unit s.

(** Decimal digits of a natural number: [String(n)] for a length or an
    index. *)
Fixpoint digits_go (fuel : nat) (n : Z) (acc : jsstring) : jsstring :=
  match fuel with
  | O => acc
  | S fuel' =>
    let acc' := (48 + n mod 10) :: acc in
    if n <? 10 then acc' else digits_go fuel' (n / 10) acc'
  end.

Definition String_of_nat (n : nat) : jsstring :=
  digits_go (S n) (Z.of_nat n) [].

(** ** The line tokenizer: [parseCSVLine] (converter.ts 147-193) *)

Definition QUOTE : Z := 34.
Definition APOSTROPHE : Z := 39.

(** The body of the [for] loop, one character at a time; [i++] inside the
    body is the step over two characters. *)
Fixpoint scanLine (delimiter : jsstring) (line : jsstring) (current : jsstring)
    (inQuotes : bool) (quoteChar : jsstring) (result : list jsstring)
    {struct line} : list jsstring :=
  match line with
  | [] => result ++ [trim current]
  | char :: rest =>
    if negb inQuotes then
      if (char =? QUOTE) || (char =? APOSTROPHE)
      then scanLine delimiter rest current true [char] result
      else if str_eqb [char] delimiter
      then scanLine delimiter rest [] false quoteChar (result ++ [trim current])
      else scanLine delimiter rest (current ++ [char]) false quoteChar result
    else
      if str_eqb [char] quoteChar then
        match rest with
        | next :: rest' =>
          if str_eqb [next] quoteChar
          then scanLine delimiter rest' (current ++ [char]) true quoteChar result
          else scanLine delimiter rest current false [] result
        | [] => scanLine delimiter rest current false [] result
        end
      else scanLine delimiter rest (current ++ [char]) true quoteChar result
  end.

(** [cell || ''] on a string. *)
Definition orEmpty (cell : jsstring) : jsstring :=
  match cell with [] => [] | _ => cell end.

Definition parseCSVLine (line : jsstring) (delimiter : jsstring) : list jsstring :=
  map orEmpty (scanLine delimiter (trim line) [] false [] []).

(** ** Numbers: IEEE-754 binary64 *)

Definition number := spec_float.

Definition fadd : number -> number -> number := SFadd 53 1024.
Definition fsub : number -> number -> number := SFsub 53 1024.
Definition fmul : number -> number -> number := SFmul 53 1024.
Definition fdiv : number -> number -> number := SFdiv 53 1024.
Definition flt : number -> number -> bool := SFltb.

(** The number an integer converts to. *)
Definition num_of_Z (z : Z) : number := binary_normalize 53 1024 z 0 false.
Definition num_of_nat (n : nat) : number := num_of_Z (Z.of_nat n).

(** The double nearest to [n / 10^k], with the sign [neg]: the value of the
    decimal literal with digits [n] of which [k] follow the point. *)
Definition num_of_decimal (neg : bool) (n : Z) (k : nat) : number :=
  if n <=? 0 then S754_zero neg
  else
    let '(q, e, l) := SFdiv_core_binary 53 1024 n 0 (10 ^ Z.of_nat k) 0 in
    binary_round_aux 53 1024 neg q e l.

Definition isNaN (x : number) : bool :=
  match x with S754_nan => true | _ => false end.

Definition isFinite (x : number) : bool :=
  match x with S754_zero _ | S754_finite _ _ _ => true | _ => false end.

(** [Math.max(a, b)]. *)
Definition Math_max (a b : number) : number :=
  match SFcompare a b with
  | None => S754_nan
  | Some Lt => b
  | Some Gt => a
  | Some Eq => match a with S754_zero true => b | _ => a end
  end.

Definition isDigit (c : Z) : bool := (48 <=? c) && (c <=? 57).

Fixpoint takeDigits (s : jsstring) : jsstring * jsstring :=
  match s with
  | c :: s' => if isDigit c then let '(d, r) := takeDigits s' in (c :: d, r) else ([], s)
  | [] => ([], [])
  end.

Definition digitsValue (ds : jsstring) : Z :=
  fold_left (fun acc c => 10 * acc + (c - 48)) ds 0.

(** [parseFloat] on the strings the converter passes to it: an optional
    sign, digits, an optional point and digits (the callers have matched the
    text against [-?[\d,]+\.?\d*] and removed the commas, so neither an
    exponent nor [Infinity] can occur).  The longest numeric prefix is
    parsed; without any digit the result is NaN. *)
Definition parseFloat (s : jsstring) : number :=
  let s := trimStart s in
  let '(neg, s) := match s with
                   | c :: s' => if c =? 45 then (true, s')
                                else if c =? 43 then (false, s') else (false, s)
                   | [] => (false, s)
                   end in
  let '(ip, s) := takeDigits s in
  let fp := match s with
            | c :: s' => if c =? 46 then fst (takeDigits s') else []
            | [] => []
            end in
  match ip ++ fp with
  | [] => S754_nan
  | ds => num_of_decimal neg (digitsValue ds) (length fp)
  end.

(** ** Regular expressions

    The patterns of the source are kept as syntax trees and run by a
    backtracking matcher with the priorities of ECMAScript: alternatives
    left to right, quantifiers greedy unless marked lazy, and an iteration
    of a quantifier past its minimum must consume input. *)

Inductive regex :=
| Eps
| Chr (c : Z)
| Cls (neg : bool) (ranges : list (Z * Z))
| Dot
| Seq (r1 r2 : regex)
| Alt (r1 r2 : regex)
| Rep (lo : nat) (hi : option nat) (greedy : bool) (r : regex)
| Grp (r : regex)
| Bol
| Eol
| WordB.

(** A position of the matcher: the characters before it (nearest first), the
    characters after it, and the groups captured so far. *)
Record mstate := MkM { m_pre : jsstring; m_rest : jsstring; m_caps : list jsstring }.

Definition isWordChar (c : Z) : bool :=
  isDigit c || ((65 <=? c) && (c <=? 90)) || ((97 <=? c) && (c <=? 122)) || (c =? 95).

Definition isLineTerminator (c : Z) : bool :=
  (c =? 10) || (c =? 13) || (c =? 0x2028) || (c =? 0x2029).

(** Case folding of the [i] flag; every pattern that carries the flag is
    made of ASCII characters, for which only the ASCII letters fold. *)
Definition canon (c : Z) : Z := if (97 <=? c) && (c <=? 122) then c - 32 else c.
Definition uncanon (c : Z) : Z := if (65 <=? c) && (c <=? 90) then c + 32 else c.

Definition in_ranges (rs : list (Z * Z)) (c : Z) : bool :=
  existsb (fun r => (fst r <=? c) && (c <=? snd r)) rs.

Section Matcher.
Variable icase : bool.

Definition chr_eq (p c : Z) : bool :=
  if icase then canon p =? canon c else p =? c.

Definition cls_match (rs : list (Z * Z)) (c : Z) : bool :=
  in_ranges rs c || (icase && (in_ranges rs (canon c) || in_ranges rs (uncanon c))).

Definition step_char (st : mstate) (ok : Z -> bool)
    (k : mstate -> option mstate) : option mstate :=
  match m_rest st with
  | c :: rest' => if ok c then k (MkM (c :: m_pre st) rest' (m_caps st)) else None
  | [] => None
  end.

Definition at_boundary (st : mstate) : bool :=
  xorb (match m_pre st with c :: _ => isWordChar c | [] => false end)
       (match m_rest st with c :: _ => isWordChar c | [] => false end).

Definition consumed (st st' : mstate) : jsstring :=
  firstn (length (m_rest st) - length (m_rest st')) (m_rest st).

Fixpoint rmatch (r : regex) (st : mstate) (k : mstate -> option mstate)
    {struct r} : option mstate :=
  match r with
  | Eps => k st
  | Chr p => step_char st (chr_eq p) k
  | Cls neg rs => step_char st (fun c => xorb neg (cls_match rs c)) k
  | Dot => step_char st (fun c => negb (isLineTerminator c)) k
  | Seq r1 r2 => rmatch r1 st (fun st' => rmatch r2 st' k)
  | Alt r1 r2 =>
    match rmatch r1 st k with
    | Some e => Some e
    | None => rmatch r2 st k
    end
  | Grp r1 =>
    rmatch r1 st (fun st' =>
      k (MkM (m_pre st') (m_rest st') (m_caps st' ++ [consumed st st'])))
  | Bol => match m_pre st with [] => k st | _ => None end
  | Eol => match m_rest st with [] => k st | _ => None end
  | WordB => if at_boundary st then k st else None
  | Rep lo hi greedy r1 =>
    let fix more (fuel : nat) (budget : option nat) (st : mstate) {struct fuel}
        : option mstate :=
      match fuel with
      | O => k st
      | S fuel' =>
        match budget with
        | Some O => k st
        | _ =>
          let iter := fun _ : unit =>
            rmatch r1 st (fun st' =>
              if (length (m_rest st') <? length (m_rest st))%nat
              then more fuel' (option_map Nat.pred budget) st'
              else None) in
          if greedy
          then match iter tt with Some e => Some e | None => k st end
          else match k st with Some e => Some e | None => iter tt end
        end
      end in
    let fix must (n : nat) (st : mstate) {struct n} : option mstate :=
      match n with
      | O => more (S (length (m_rest st))) (option_map (fun h => (h - lo)%nat) hi) st
      | S n' => rmatch r1 st (fun st' => must n' st')
      end in
    must lo st
  end.

Definition match_at (r : regex) (pre rest : jsstring) : option mstate :=
  rmatch r (MkM pre rest []) Some.

(** The first match, scanning the start position from left to right. *)
Fixpoint search (r : regex) (pre rest : jsstring) {struct rest}
    : option (nat * jsstring * list jsstring) :=
  match match_at r pre rest with
  | Some e => Some (length pre, firstn (length rest - length (m_rest e)) rest, m_caps e)
  | None =>
    match rest with
    | [] => None
    | c :: rest' => search r (c :: pre) rest'
    end
  end.

(** All matches of a pattern with the [g] flag: position and text. *)
Fixpoint scan_all (r : regex) (pre rest : jsstring) (skip : nat) {struct rest}
    : list (nat * jsstring) :=
  match skip with
  | S skip' =>
    match rest with
    | [] => []
    | c :: rest' => scan_all r (c :: pre) rest' skip'
    end
  | O =>
    match match_at r pre rest with
    | Some e =>
      let m := firstn (length rest - length (m_rest e)) rest in
      (length pre, m) ::
        match rest with
        | [] => []
        | c :: rest' => scan_all r (c :: pre) rest' (length m - 1)
        end
    | None =>
      match rest with
      | [] => []
      | c :: rest' => scan_all r (c :: pre) rest' O
      end
    end
  end.
End Matcher.

(** A pattern with its [i] flag. *)
Record pattern := MkPattern { p_icase : bool; p_re : regex }.

Definition re (r : regex) : pattern := MkPattern false r.
Definition re_i (r : regex) : pattern := MkPattern true r.

(** [p.test(s)]. *)
Definition re_test (p : pattern) (s : jsstring) : bool :=
  match search (p_icase p) (p_re p) [] s with Some _ => true | None => false end.

(** [s.match(p)] for a pattern without [g]: the match and its groups. *)
Definition re_exec (p : pattern) (s : jsstring) : option (jsstring * list jsstring) :=
  match search (p_icase p) (p_re p) [] s with
  | Some (_, m, caps) => Some (m, caps)
  | None => None
  end.

(** [s.match(p)] for a pattern with [g]: the texts matched; the empty list
    stands for [null]. *)
Definition re_match_g (p : pattern) (s : jsstring) : list jsstring :=
  map snd (scan_all (p_icase p) (p_re p) [] s 0).

Fixpoint replace_go (ms : list (nat * jsstring)) (pos : nat) (s repl : jsstring)
  : jsstring :=
  match ms with
  | [] => s
  | (st, m) :: ms' =>
    firstn (st - pos) s ++ repl ++
    replace_go ms' (st + length m) (skipn (st - pos + length m) s) repl
  end.

(** [s.replace(p, repl)] for a pattern with [g] and a replacement without
    [$] patterns. *)
Definition re_replace_g (p : pattern) (s repl : jsstring) : jsstring :=
  replace_go (scan_all (p_icase p) (p_re p) [] s 0) 0 s repl.

(** [s.replace(p, repl)] for a pattern without [g]. *)
Definition re_replace (p : pattern) (s repl : jsstring) : jsstring :=
  match search (p_icase p) (p_re p) [] s with
  | Some (st, m, _) => firstn st s ++ repl ++ skipn (st + length m) s
  | None => s
  end.

Fixpoint split_re_go (ms : list (nat * jsstring)) (pos : nat) (s : jsstring)
  : list jsstring :=
  match ms with
  | [] => [s]
  | (st, m) :: ms' =>
    firstn (st - pos) s :: split_re_go ms' (st + length m) (skipn (st - pos + length m) s)
  end.

(** [s.split(p)] for a separator pattern that cannot match the empty
    string (every separator pattern of the source is a class under [+]). *)
Definition re_split (p : pattern) (s : jsstring) : list jsstring :=
  split_re_go (scan_all (p_icase p) (p_re p) [] s 0) 0 s.

(** Notation for patterns. *)
Definition ch (s : string) : Z := hd 0 (js s).
Definition one (s : string) : Z * Z := (ch s, ch s).
Definition rng (a b : string) : Z * Z := (ch a, ch b).

Fixpoint seqs (rs : list regex) : regex :=
  match rs with
  | [] => Eps
  | [r] => r
  | r :: rs' => Seq r (seqs rs')
  end.

Fixpoint alts (rs : list regex) : regex :=
  match rs with
  | [] => Eps
  | [r] => r
  | r :: rs' => Alt r (alts rs')
  end.

Definition lit (s : string) : regex := seqs (map Chr (js s)).
Definition star (r : regex) : regex := Rep 0 None true r.
Definition plus (r : regex) : regex := Rep 1 None true r.
Definition opt (r : regex) : regex := Rep 0 (Some 1%nat) true r.
Definition atleast (n : nat) (r : regex) : regex := Rep n None true r.
Definition between (n m : nat) (r : regex) : regex := Rep n (Some m) true r.
Definition exactly (n : nat) (r : regex) : regex := Rep n (Some n) true r.

Definition c_digit : list (Z * Z) := [(48, 57)].
Definition c_word : list (Z * Z) := [(48, 57); (65, 90); (95, 95); (97, 122)].
Definition c_alpha : list (Z * Z) := [(65, 90); (97, 122)].
Definition c_hangul : list (Z * Z) := [(0xAC00, 0xD7A3)].
Definition c_space : list (Z * Z) :=
  [(9, 13); (32, 32); (0xA0, 0xA0); (0x1680, 0x1680); (0x2000, 0x200A);
   (0x2028, 0x2029); (0x202F, 0x202F); (0x205F, 0x205F); (0x3000, 0x3000);
   (0xFEFF, 0xFEFF)].

Definition digit : regex := Cls false c_digit.
Definition hangul : regex := Cls false c_hangul.

(** ** Cells, rows, sheets and workbooks *)

(** A calendar date, the value of a [Date] at local midnight. *)
Record Date := MkDate { d_year : Z; d_month : Z; d_day : Z }.

(** The values a cell of an array of arrays holds in the converter. *)
Inductive Cell :=
| CStr (s : jsstring)
| CNum (x : number)
| CBool (b : bool)
| CDate (d : Date)
| CNull.

Definition Row := list Cell.
Definition Table := list Row.

(** A worksheet is the grid it was built from ([XLSX.utils.aoa_to_sheet]) or
    that the decoder produced; [CNull] marks a position without a cell. *)
Definition Sheet := Table.

(** A workbook: its sheets in the order of [SheetNames]. *)
Definition WorkBook := list (jsstring * Sheet).

(** ** Exceptions *)

Inductive result (A : Type) :=
| Ok (a : A)
| Throw (message : jsstring).
Arguments Ok {A} a.
Arguments Throw {A} message.

Definition bind {A B} (r : result A) (f : A -> result B) : result B :=
  match r with
  | Ok a => f a
  | Throw m => Throw m
  end.

Definition try_catch {A} (body : result A) (handler : jsstring -> result A)
  : result A :=
  match body with
  | Ok a => Ok a
  | Throw m => handler m
  end.

Notation "x <- c1 ;; c2" := (bind c1 (fun x => c2))
  (at level 61, c1 at next level, right associativity).

(** ** The cell normalizer (converter.ts 198-281) *)

(** [/[\x00-\x1F\x7F-\x9F]/g] *)
Definition RE_control : pattern := re (Cls false [(0x00, 0x1F); (0x7F, 0x9F)]).

(** [/[^\w\s가-힣()[\]{}.,\-_]/g] *)
Definition RE_unsafe : pattern :=
  re (Cls true (c_word ++ c_space ++ c_hangul ++
                [one "("; one ")"; one "["; one "]"; one "{"; one "}";
                 one "."; one ","; one "-"; one "_"])).

(** [/\s+/g] *)
Definition RE_spaces : pattern := re (plus (Cls false c_space)).

Definition normalizeHeaderField (value : jsstring) : jsstring :=
  match trim value with
  | [] => []
  | trimmed =>
    let normalized := trim (re_replace_g RE_unsafe (re_replace_g RE_control trimmed []) []) in
    let normalized := re_replace_g RE_spaces normalized (js " ") in
    match normalized with
    | [] => js "컬럼"
    | _ => normalized
    end
  end.

(** [/^-?[\d,]+\.?\d*$/] *)
Definition RE_number : pattern :=
  re (seqs [Bol; opt (Chr (ch "-")); plus (Cls false (c_digit ++ [one ","]));
            opt (Chr (ch ".")); star digit; Eol]).

(** [/^(N)\s*%$/] where the group [N] is [-?[\d,]+\.?\d*] *)
Definition RE_percent : pattern :=
  re (seqs [Bol;
            Grp (seqs [opt (Chr (ch "-")); plus (Cls false (c_digit ++ [one ","]));
                       opt (Chr (ch ".")); star digit]);
            star (Cls false c_space); Chr (ch "%"); Eol]).

(** [/^\d{4}-\d{2}-\d{2}$/] *)
Definition RE_simpleDate : pattern :=
  re (seqs [Bol; exactly 4 digit; Chr (ch "-"); exactly 2 digit; Chr (ch "-");
            exactly 2 digit; Eol]).

(** [/,/g] *)
Definition RE_comma : pattern := re (Chr (ch ",")).

Definition isLeapYear (y : Z) : bool :=
  (y mod 400 =? 0) || ((y mod 4 =? 0) && negb (y mod 100 =? 0)).

Definition daysInMonth (y m : Z) : Z :=
  if m =? 2 then (if isLeapYear y then 29 else 28)
  else if (m =? 4) || (m =? 6) || (m =? 9) || (m =? 11) then 30
  else 31.

(** [parseISO] of date-fns followed by [isValid], on a text of the shape
    [YYYY-MM-DD] (the only one the converter passes): the date when the
    month and the day exist in that year, no valid date otherwise. *)
Definition parseISO (s : jsstring) : option Date :=
  let y := digitsValue (firstn 4 s) in
  let m := digitsValue (firstn 2 (skipn 5 s)) in
  let d := digitsValue (firstn 2 (skipn 8 s)) in
  if (1 <=? m) && (m <=? 12) && (1 <=? d) && (d <=? daysInMonth y m)
  then Some (MkDate y m d)
  else None.

Definition orElse {A} (a : option A) (b : A) : A :=
  match a with Some x => x | None => b end.

Definition numberRule (trimmed : jsstring) : option Cell :=
  if re_test RE_number trimmed && negb (includes (js "(") trimmed) then
    let num := parseFloat (re_replace_g RE_comma trimmed []) in
    if negb (isNaN num) && isFinite num then Some (CNum num) else None
  else None.

Definition percentRule (trimmed : jsstring) : option Cell :=
  match re_exec RE_percent trimmed with
  | Some (_, g1 :: _) =>
    let num := parseFloat (re_replace_g RE_comma g1 []) in
    if negb (isNaN num) && isFinite num then Some (CNum (fdiv num (num_of_Z 100))) else None
  | _ => None
  end.

Definition dateRule (trimmed : jsstring) : option Cell :=
  if re_test RE_simpleDate trimmed
  then option_map CDate (parseISO trimmed)
  else None.

Definition booleanRule (trimmed : jsstring) : option Cell :=
  let lowerValue := toLowerCase trimmed in
  if str_eqb lowerValue (js "true") || str_eqb lowerValue (js "참")
     || str_eqb lowerValue (js "yes")
  then Some (CBool true)
  else if str_eqb lowerValue (js "false") || str_eqb lowerValue (js "거짓")
          || str_eqb lowerValue (js "no")
  then Some (CBool false)
  else None.

Definition normalizeCell (value : jsstring) : Cell :=
  match trim value with
  | [] => CStr []
  | trimmed =>
    if includes (js "(") trimmed && includes (js ")") trimmed then CStr trimmed
    else
      match numberRule trimmed with
      | Some c => c
      | None =>
        match percentRule trimmed with
        | Some c => c
        | None =>
          match dateRule trimmed with
          | Some c => c
          | None => orElse (booleanRule trimmed) (CStr trimmed)
          end
        end
      end
  end.

(** ** The delimiter detector (converter.ts 95-142) *)

Definition TAB : Z := 9.
Definition COMMA : Z := 44.
Definition SEMICOLON : Z := 59.
Definition PIPE : Z := 124.
Definition NEWLINE : Z := 10.

Definition delimiters : list Z := [TAB; COMMA; SEMICOLON; PIPE].

(** [text.split('\n').slice(0, 10).filter(line => line.trim())] *)
Definition sampleLines (text : jsstring) : list jsstring :=
  filter nonBlank (firstn 10 (split_on NEWLINE text)).

(** The column counts a candidate collects: one for every sampled line that
    it splits into more than one column. *)
Definition columnCounts (delimiter : Z) (lines : list jsstring) : list Z :=
  filter (fun columnCount => 1 <? columnCount)
    (map (fun line => Z.of_nat (length (split_on delimiter line)))
       (filter nonBlank lines)).

Definition zero : number := S754_zero false.

Definition maxOf (l : list Z) : Z := fold_left Z.max l (hd 0 l).
Definition minOf (l : list Z) : Z := fold_left Z.min l (hd 0 l).

(** The score of a candidate with a non-empty list of column counts. *)
Definition scoreOf (columnCounts : list Z) : number :=
  let n := num_of_nat (length columnCounts) in
  let avgColumns :=
    fdiv (fold_left (fun a b => fadd a (num_of_Z b)) columnCounts zero) n in
  let maxCols := maxOf columnCounts in
  let minCols := minOf columnCounts in
  let consistency :=
    if 10 <? maxCols then num_of_decimal false 8 1
    else fsub (num_of_Z 1)
           (fdiv (num_of_Z (maxCols - minCols)) (Math_max avgColumns (num_of_Z 1))) in
  fmul (fmul avgColumns (Math_max consistency (num_of_decimal false 5 1))) n.

(** The value of [score] when the body of the loop over the candidates
    ends: 0 for a candidate that collected no column count. *)
Definition candidateScore (lines : list jsstring) (delimiter : Z) : number :=
  match columnCounts delimiter lines with
  | [] => zero
  | counts => scoreOf counts
  end.

(** One turn of the loop over the candidates, on the pair
    [(bestDelimiter, maxScore)]. *)
Definition detectStep (lines : list jsstring) (acc : Z * number) (delimiter : Z)
  : Z * number :=
  match columnCounts delimiter lines with
  | [] => acc
  | _ =>
    if flt (snd acc) (candidateScore lines delimiter) then
      (delimiter, candidateScore lines delimiter)
    else acc
  end.

Definition detectLoop (lines : list jsstring) : Z * number :=
  fold_left (detectStep lines) delimiters (COMMA, zero).

Definition detectDelimiter (text : jsstring) : jsstring :=
  [fst (detectLoop (sampleLines text))].

(** ** The collaborators *)

(** An options object: the properties of the object literal of the call. *)
Inductive optval :=
| OBool (b : bool)
| ONum (n : Z)
| OStr (s : string)
| ONull.

Definition Options := list (string * optval).

Definition prop (key : string) (value : optval) : string * optval := (key, value).

(** The imported libraries.  [XLSX.read] and the decoders may throw;
    [XLSX.write] is taken to succeed on every workbook it is handed, as the
    specification assumes of the workbook writer.  [XLSX_sheet_to_json] is
    [XLSX.utils.sheet_to_json] with [header: 1]: the rows of a sheet.
    [jschardet_detect] gives [encoding] and [confidence], or nothing. *)
Record Collaborators := MkCollaborators
  { XLSX_read : Buffer -> Options -> result WorkBook;
    XLSX_sheet_to_json : Sheet -> Options -> Table;
    XLSX_write : WorkBook -> Options -> Buffer;
    jschardet_detect : Buffer -> result (option (jsstring * number));
    iconv_decode : Buffer -> jsstring -> result jsstring;
    iconv_encodingExists : jsstring -> bool;
    zlib_inflateRawSync : Buffer -> result Buffer;
    zlib_gunzipSync : Buffer -> result Buffer }.

(** [XLSX.utils.book_new], [aoa_to_sheet] and [book_append_sheet].  The
    last one throws on a name of more than 31 characters, on a name with one
    of the characters [ ] * ? / \ and on a name the workbook already has, or
    when the workbook is full.  (The converter never passes an empty
    name, for which SheetJS would make one up.) *)
Definition book_new : WorkBook := [].

Definition aoa_to_sheet (data : Table) : Sheet := data.

Definition badchars : jsstring := [93; 91; 42; 63; 47; 92].

Definition book_append_sheet (wb : WorkBook) (ws : Sheet) (name : jsstring)
  : result WorkBook :=
  if 0xFFFF <=? Z.of_nat (length wb) then Throw (js "Too many worksheets")
  else if (31 <? length name)%nat then Throw (js "Sheet names cannot exceed 31 chars")
  else if existsb (fun c => existsb (Z.eqb c) name) badchars
  then Throw (js "Sheet name cannot contain : \ / ? * [ ]")
  else if existsb (str_eqb name) (map fst wb)
  then Throw (js "Worksheet with name |" ++ name ++ js "| already exists!")
  else Ok (wb ++ [(name, ws)]).

(** ** File name helpers (converter.ts 7-38) *)

Definition SUPPORTED_EXTENSIONS : list jsstring :=
  [js ".xls"; js ".xlsx"; js ".csv"; js ".tsv"; js ".txt"].

Definition MAX_FILE_SIZE : Z := 50 * 1024 * 1024.

Definition validateFileExtension (filename : jsstring) : bool :=
  let ext :=
    substring_from (orElse (lastIndexOf_end (js ".") filename) 0%nat)
      (toLowerCase filename) in
  existsb (str_eqb ext) SUPPORTED_EXTENSIONS.

Definition validateFileSize (size : Z) : bool := size <=? MAX_FILE_SIZE.

(** [/[^\w가-힣.\-_]/g] and [/_{2,}/g] *)
Definition RE_notFilenameChar : pattern :=
  re (Cls true (c_word ++ c_hangul ++ [one "."; one "-"; one "_"])).
Definition RE_underscores : pattern := re (atleast 2 (Chr (ch "_"))).

Definition sanitizeFilename (filename : jsstring) : jsstring :=
  let sanitized :=
    trim (re_replace_g RE_underscores
            (re_replace_g RE_notFilenameChar filename (js "_")) (js "_")) in
  match sanitized with
  | [] => js "converted_file"
  | _ => sanitized
  end.

(** ** The encoding resolver (converter.ts 43-90) *)

Definition REPLACEMENT : jsstring := [0xFFFD].

Section Pipeline.
Variable E : Collaborators.

(** Step 2, the body of its [try]: the statistical detector. *)
Definition decodeDetected (buffer : Buffer) : result (option jsstring) :=
  detected <- jschardet_detect E buffer ;;
  match detected with
  | Some (c :: cs, confidence) =>
    if flt (num_of_decimal false 7 1) confidence then
      let encoding := toLowerCase (c :: cs) in
      if includes (js "euc-kr") encoding || includes (js "cp949") encoding
      then decoded <- iconv_decode E buffer (js "euc-kr") ;; Ok (Some decoded)
      else if iconv_encodingExists E encoding
      then decoded <- iconv_decode E buffer encoding ;; Ok (Some decoded)
      else Ok None
    else Ok None
  | _ => Ok None
  end.

(** Step 3: the first encoding of the list whose decoding is not empty
    and has no replacement character. *)
Fixpoint decodeFirstClean (buffer : Buffer) (encodings : list jsstring)
  : option jsstring :=
  match encodings with
  | [] => None
  | encoding :: encodings' =>
    match iconv_decode E buffer encoding with
    | Ok (c :: cs) =>
      if negb (includes REPLACEMENT (c :: cs)) then Some (c :: cs)
      else decodeFirstClean buffer encodings'
    | _ => decodeFirstClean buffer encodings'
    end
  end.

Definition detectAndDecode (buffer : Buffer) : result jsstring :=
  let utf8Text := toString_utf8 buffer in
  if negb (includes REPLACEMENT utf8Text) then Ok utf8Text
  else
    match try_catch (decodeDetected buffer) (fun _ => Ok None) with
    | Ok (Some decoded) => Ok decoded
    | _ =>
      match decodeFirstClean buffer [js "euc-kr"; js "cp949"; js "utf8"; js "latin1"] with
      | Some decoded => Ok decoded
      | None => iconv_decode E buffer (js "latin1")
      end
    end.

(** ** Delimited-text recovery (converter.ts 286-420) *)

(** [cell !== null && cell !== ''] *)
Definition notEmptyCell (cell : Cell) : bool :=
  match cell with
  | CNull => false
  | CStr [] => false
  | _ => true
  end.

(** [cells.indexOf(cell)]; [None] stands for -1. *)
Fixpoint cells_indexOf (cell : jsstring) (cells : list jsstring) (i : nat)
  : option nat :=
  match cells with
  | [] => None
  | c :: cells' => if str_eqb c cell then Some i else cells_indexOf cell cells' (S i)
  end.

(** The number after [컬럼] in a placeholder: [cells.indexOf(cell) + 1]. *)
Definition placeholderNumber (cell : jsstring) (cells : list jsstring) : nat :=
  match cells_indexOf cell cells 0 with
  | Some i => S i
  | None => 0
  end.

(** [normalizeHeaderField(cell) || `컬럼${cells.indexOf(cell) + 1}`] *)
Definition headerCell (cells : list jsstring) (cell : jsstring) : jsstring :=
  match normalizeHeaderField cell with
  | [] => js "컬럼" ++ String_of_nat (placeholderNumber cell cells)
  | h => h
  end.

(** What one line contributes: the cells of the [try] block, or the cells
    the [catch] block computes when tokenizing threw. *)
Inductive lineOutcome :=
| Parsed (processedCells : Row)
| Fallback (processedFallbackCells : Row).

(** The [try] block up to the cells.  Neither [parseCSVLine] nor the two
    normalizers contain an operation that can throw, so a line always
    takes this branch. *)
Definition processLine (delimiter : jsstring) (lineIndex : nat) (line : jsstring)
  : lineOutcome :=
  let cells := parseCSVLine line delimiter in
  Parsed (if (lineIndex =? 0)%nat
          then map (fun cell => CStr (headerCell cells cell)) cells
          else map normalizeCell cells).

(** The rest of the loop body on [(data, maxColumns)]: each branch keeps
    the header and the rows with a cell that is not empty; the [try]
    branch counts the columns of every line, the [catch] branch those of
    the rows it keeps. *)
Definition rowStep (st : Table * nat) (lineIndex : nat) (o : lineOutcome)
  : Table * nat :=
  let '(data, maxColumns) := st in
  match o with
  | Parsed processedCells =>
    let maxColumns := Nat.max maxColumns (length processedCells) in
    if (lineIndex =? 0)%nat || existsb notEmptyCell processedCells
    then (data ++ [processedCells], maxColumns)
    else (data, maxColumns)
  | Fallback processedFallbackCells =>
    if (lineIndex =? 0)%nat || existsb notEmptyCell processedFallbackCells
    then (data ++ [processedFallbackCells],
          Nat.max maxColumns (length processedFallbackCells))
    else (data, maxColumns)
  end.

Fixpoint rowLoop (st : Table * nat) (lineIndex : nat) (os : list lineOutcome)
  : Table * nat :=
  match os with
  | [] => st
  | o :: os' => rowLoop (rowStep st lineIndex o) (S lineIndex) os'
  end.

(** [while (row.length < maxColumns) row.push('')] *)
Definition padRow (maxColumns : nat) (row : Row) : Row :=
  row ++ repeat (CStr []) (maxColumns - length row).

Definition padRows (st : Table * nat) : Table :=
  map (padRow (snd st)) (fst st).

Fixpoint mapi_from {A B} (f : nat -> A -> B) (i : nat) (l : list A) : list B :=
  match l with
  | [] => []
  | a :: l' => f i a :: mapi_from f (S i) l'
  end.

Definition mapi {A B} (f : nat -> A -> B) (l : list A) : list B := mapi_from f 0 l.

Definition textLines (text : jsstring) : list jsstring :=
  filter nonBlank (split_on NEWLINE text).

(** The pair [(data, maxColumns)] when the loop over the lines ends. *)
Definition textRows (text : jsstring) : Table * nat :=
  let delimiter := detectDelimiter text in
  rowLoop ([], 0%nat) 0 (mapi (processLine delimiter) (textLines text)).

(** [data] after the padding. *)
Definition textTable (text : jsstring) : Table := padRows (textRows text).

Definition NO_DATA : jsstring :=
  js "파싱된 데이터가 없습니다. 파일 형식을 확인해주세요.".

Definition textBasedRecovery (buffer : Buffer) : result WorkBook :=
  text <- detectAndDecode buffer ;;
  match textTable text with
  | [] => Throw NO_DATA
  | data => book_append_sheet book_new (aoa_to_sheet data) (js "Sheet1")
  end.

(** ** The workbook normalizer (converter.ts 425-460) *)

(** [typeof cell === 'string' ? normalizeCell(cell) : cell] *)
Definition normalizeJsonCell (cell : Cell) : Cell :=
  match cell with
  | CStr s => normalizeCell s
  | _ => cell
  end.

Definition normalizeSheet (acc : result WorkBook) (entry : jsstring * Sheet)
  : result WorkBook :=
  normalizedWorkbook <- acc ;;
  let '(sheetName, worksheet) := entry in
  let jsonData :=
    XLSX_sheet_to_json E worksheet
      [prop "header" (ONum 1); prop "defval" ONull; prop "raw" (OBool false)] in
  let normalizedData := map (map normalizeJsonCell) jsonData in
  let normalizedSheet := aoa_to_sheet normalizedData in
  let safeSheetName := substring 0 31 (sanitizeFilename sheetName) in
  book_append_sheet normalizedWorkbook normalizedSheet safeSheetName.

Definition normalizeWorkbook (workbook : WorkBook) : result WorkBook :=
  fold_left normalizeSheet workbook (Ok book_new).

(** ** Helpers of the miners *)

(** [buffer.toString(encoding)]: Node knows [utf8], [utf16le], [latin1],
    [ascii], [base64] and [hex]; any other name throws. *)
Definition b64_char (n : Z) : Z :=
  if n <? 26 then 65 + n
  else if n <? 52 then 97 + (n - 26)
  else if n <? 62 then 48 + (n - 52)
  else if n =? 62 then 43 else 47.

Fixpoint base64_go (bs : list Z) : jsstring :=
  match bs with
  | a :: b :: c :: bs' =>
    [b64_char (Z.shiftr a 2);
     b64_char (Z.lor (Z.shiftl (Z.land a 3) 4) (Z.shiftr b 4));
     b64_char (Z.lor (Z.shiftl (Z.land b 15) 2) (Z.shiftr c 6));
     b64_char (Z.land c 63)] ++ base64_go bs'
  | [a; b] =>
    [b64_char (Z.shiftr a 2);
     b64_char (Z.lor (Z.shiftl (Z.land a 3) 4) (Z.shiftr b 4));
     b64_char (Z.shiftl (Z.land b 15) 2); 61]
  | [a] => [b64_char (Z.shiftr a 2); b64_char (Z.shiftl (Z.land a 3) 4); 61; 61]
  | [] => []
  end.

Definition toString_base64 (buffer : Buffer) : jsstring :=
  base64_go (map byteZ buffer).

Definition Buffer_toString (encoding : string) (buffer : Buffer) : result jsstring :=
  if String.eqb encoding "utf8" then Ok (toString_utf8 buffer)
  else if String.eqb encoding "latin1" then Ok (toString_latin1 buffer)
  else if String.eqb encoding "ascii" then Ok (toString_ascii buffer)
  else if String.eqb encoding "utf16le" then Ok (toString_utf16le buffer)
  else if String.eqb encoding "base64" then Ok (toString_base64 buffer)
  else Throw (js "Unknown encoding: " ++ js encoding).

(** [Buffer.from(s, 'latin1')]: the low byte of every code unit. *)
Definition byte_of_Z (z : Z) : byte :=
  match Byte.of_N (Z.to_N (Z.land z 255)) with
  | Some b => b
  | None => x00
  end.

Definition Buffer_from_latin1 (s : jsstring) : Buffer := map byte_of_Z s.

(** [Array.from(new Set(l))]: the first occurrence of every element. *)
Fixpoint dedupe_go (seen l : list jsstring) : list jsstring :=
  match l with
  | [] => []
  | x :: l' =>
    if existsb (str_eqb x) seen then dedupe_go seen l'
    else x :: dedupe_go (x :: seen) l'
  end.

Definition dedupe (l : list jsstring) : list jsstring := dedupe_go [] l.

Definition strRow (l : list jsstring) : Row := map CStr l.
Definition strTable (t : list (list jsstring)) : Table := map strRow t.

(** [row = l.slice(i, i + width); while (row.length < width) row.push('')]
    for [i] from the start of [l] in steps of [width]. *)
Fixpoint chunkRows (fuel width : nat) (l : list jsstring) : list (list jsstring) :=
  match fuel with
  | O => []
  | S fuel' =>
    match l with
    | [] => []
    | _ =>
      let row := firstn width l in
      (row ++ repeat [] (width - length row)) :: chunkRows fuel' width (skipn width l)
    end
  end.

Definition WRITE_XLSX : Options :=
  [prop "type" (OStr "buffer"); prop "bookType" (OStr "xlsx")].
Definition WRITE_XLSX_COMPRESSED : Options :=
  WRITE_XLSX ++ [prop "compression" (OBool true)].

(** A workbook of one sheet, written. *)
Definition writeSheet (name : jsstring) (data : Table) (opts : Options)
  : result Buffer :=
  workbook <- book_append_sheet book_new (aoa_to_sheet data) name ;;
  Ok (XLSX_write E workbook opts).

(** ** The byte-scan miner: [findMeaningfulTextInBuffer]
    (converter.ts 964-1141) *)

(** [/\.[^.]+$/], [/[_\-\[\]().\s]+/] and the three filters on the parts
    of the file name. *)
Definition RE_extension : pattern :=
  re (seqs [Chr (ch "."); plus (Cls true [one "."]); Eol]).
Definition RE_nameSeparators : pattern :=
  re (plus (Cls false ([one "_"; one "-"; one "["; one "]"; one "("; one ")"; one "."]
                       ++ c_space))).
Definition RE_anyHangul : pattern := re hangul.
Definition RE_alpha2 : pattern := re (atleast 2 (Cls false c_alpha)).
Definition RE_digit4 : pattern := re (atleast 4 digit).

Definition filenameTexts (filename : jsstring) : list jsstring :=
  filter (fun text => re_test RE_anyHangul text || re_test RE_alpha2 text
                      || re_test RE_digit4 text)
    (filter (fun text => (0 <? length text)%nat)
       (re_split RE_nameSeparators (re_replace RE_extension filename []))).

(** [/[가-힣]{2,}/g] and [/^[가-힣]+$/] *)
Definition RE_hangul2 : pattern := re (atleast 2 hangul).
Definition RE_pureHangul : pattern := re (seqs [Bol; plus hangul; Eol]).

Definition validKorean (textContent : jsstring) : list jsstring :=
  filter (fun word =>
            (2 <=? length word)%nat && (length word <=? 20)%nat
            && re_test RE_pureHangul word
            && negb (includes (js "ㅏ") word) && negb (includes (js "ㅓ") word)
            && negb (str_eqb word (js "가가")) && negb (str_eqb word (js "나나")))
    (re_match_g RE_hangul2 textContent).

Definition businessKeywords : list string :=
  ["주문번호"; "송장번호"; "운송장"; "배송"; "택배";
   "연락처"; "전화번호"; "휴대폰"; "핸드폰";
   "주소"; "도로명"; "지번"; "우편번호";
   "수량"; "금액"; "가격"; "합계"; "총액";
   "고객"; "업체"; "회사"; "상호"; "법인";
   "날짜"; "시간"; "년"; "월"; "일";
   "상품"; "제품"; "품목"; "아이템";
   "부내사업"; "지정송하인"; "오쎄"]%string.

(** The pattern with the flags [gi] that lists the business words between
    two word boundaries. *)
Definition RE_businessEnglish : pattern :=
  re_i (seqs [WordB;
              Grp (alts (map lit ["order"; "delivery"; "phone"; "address"; "company";
                                  "customer"; "date"; "time"; "product"; "item";
                                  "type"; "number"]%string));
              WordB]).

(** [/\b\d{2,4}-\d{2,4}-\d{4}\b/g], [/\b\d{5}\b/g], [/\b20\d{8,10}\b/g]
    and [/\b\d{4,}/g] *)
Definition numberPatterns : list pattern :=
  [re (seqs [WordB; between 2 4 digit; Chr (ch "-"); between 2 4 digit; Chr (ch "-");
             exactly 4 digit; WordB]);
   re (seqs [WordB; exactly 5 digit; WordB]);
   re (seqs [WordB; lit "20"; between 8 10 digit; WordB]);
   re (seqs [WordB; atleast 4 digit])].

(** What one encoding adds to [meaningfulTexts]. *)
Definition scanContent (textContent : jsstring) : list jsstring :=
  validKorean textContent
  ++ flat_map (fun keyword => re_match_g (re (lit keyword)) textContent) businessKeywords
  ++ re_match_g RE_businessEnglish textContent
  ++ flat_map (fun pattern => re_match_g pattern textContent) numberPatterns.

(** One turn of the loop over the encodings; a name [buffer.toString]
    does not know throws and the [catch] goes on with the next one. *)
Definition scanEncoding (buffer : Buffer) (encoding : string) : list jsstring :=
  match Buffer_toString encoding buffer with
  | Ok textContent => scanContent textContent
  | Throw _ => []
  end.

Definition scanEncodings : list string :=
  ["euc-kr"; "cp949"; "utf8"; "utf16le"; "latin1"; "ascii"]%string.

Definition uniqueTexts (buffer : Buffer) (filename : jsstring) : list jsstring :=
  firstn 100
    (filter nonBlank
       (dedupe (filenameTexts filename ++ flat_map (scanEncoding buffer) scanEncodings))).

(** [/^[a-zA-Z]+$/] and [/^\d+$/] *)
Definition RE_pureAlpha : pattern := re (seqs [Bol; plus (Cls false c_alpha); Eol]).
Definition RE_pureDigits : pattern := re (seqs [Bol; plus digit; Eol]).

Definition classifyText (text : jsstring) : list jsstring :=
  let '(type, description) :=
    if re_test RE_pureHangul text then
      (js "한글",
       if includes (js "주문") text || includes (js "번호") text then js "주문 관련"
       else if includes (js "배송") text || includes (js "택배") text then js "배송 관련"
       else if includes (js "연락") text || includes (js "전화") text then js "연락처 관련"
       else js "한글 텍스트")
    else if re_test RE_pureAlpha text then (js "영문", js "업무 키워드")
    else if re_test RE_pureDigits text then
      (js "숫자",
       if (8 <=? length text)%nat then js "주문번호/ID"
       else if (length text =? 5)%nat then js "우편번호"
       else js "기타 숫자")
    else (js "복합", js "전화번호/주소 등") in
  [normalizeHeaderField text; type; String_of_nat (length text); description].

Definition meaningfulTable (texts : list jsstring) : Table :=
  strTable ([js "발견된 텍스트"; js "타입"; js "길이"; js "설명"] :: map classifyText texts).

(** The table of the final fallback. *)
Definition fileStatusTable (buffer : Buffer) (filename : jsstring) : Table :=
  strTable
    [[js "상태"; js "설명"];
     [js "파일 손상"; js "의미있는 텍스트를 찾을 수 없습니다"];
     [js "파일명"; filename];
     [js "파일 크기"; String_of_nat (length buffer) ++ js " bytes"];
     [js "권장사항"; js "원본 파일을 다시 확인해주세요"]].

(** The [try] block: [None] when it ends without a [return]. *)
Definition findMeaningfulTexts_try (buffer : Buffer) (filename : jsstring)
  : result (option Buffer) :=
  match uniqueTexts buffer filename with
  | [] => Ok None
  | texts =>
    outputBuffer <- writeSheet (js "MeaningfulData") (meaningfulTable texts)
                      WRITE_XLSX_COMPRESSED ;;
    Ok (Some outputBuffer)
  end.

Definition findMeaningfulTextInBuffer (buffer : Buffer) (filename : jsstring)
  : result Buffer :=
  match try_catch (findMeaningfulTexts_try buffer filename) (fun _ => Ok None) with
  | Ok (Some outputBuffer) => Ok outputBuffer
  | _ => writeSheet (js "FileStatus") (fileStatusTable buffer filename)
           WRITE_XLSX_COMPRESSED
  end.

(** ** [tryDecompressData] (converter.ts 631-690); [None] is [null] *)

Definition looksLikeMarkup (s : jsstring) : bool :=
  includes (js "<") s && includes (js ">") s.

(** [zlib.inflateRawSync] or [zlib.gunzipSync] inside its own [try]. *)
Definition inflateAttempt (inflate : Buffer -> result Buffer)
    (compressedBuffer : Buffer) : option jsstring :=
  match inflate compressedBuffer with
  | Ok inflated =>
    let result := toString_utf8 inflated in
    if looksLikeMarkup result then Some result else None
  | Throw _ => None
  end.

Fixpoint redecodeAttempt (compressedData : jsstring) (encodings : list string)
  : option jsstring :=
  match encodings with
  | [] => None
  | encoding :: encodings' =>
    match Buffer_toString encoding (Buffer_from_latin1 compressedData) with
    | Ok decoded =>
      if looksLikeMarkup decoded && includes (js "xml") decoded then Some decoded
      else redecodeAttempt compressedData encodings'
    | Throw _ => redecodeAttempt compressedData encodings'
    end
  end.

Definition tryDecompressData (compressedData : jsstring) : option jsstring :=
  if looksLikeMarkup compressedData then Some compressedData
  else
    let compressedBuffer := Buffer_from_latin1 compressedData in
    match inflateAttempt (zlib_inflateRawSync E) compressedBuffer with
    | Some result => Some result
    | None =>
      match inflateAttempt (zlib_gunzipSync E) compressedBuffer with
      | Some result => Some result
      | None => redecodeAttempt compressedData ["utf8"; "ascii"; "base64"]%string
      end
    end.

(** ** The string-pool miner: [extractDataFromSharedStrings]
    (converter.ts 783-959) *)

(** [/<t[^>]*>(B)<\/t>/g], where the group [B] is [[^<]*], and [/<[^>]*>/g] *)
Definition RE_textTag : pattern :=
  re (seqs [lit "<t"; star (Cls true [one ">"]); Chr (ch ">");
            Grp (star (Cls true [one "<"])); lit "</t>"]).
Definition RE_anyTag : pattern :=
  re (seqs [Chr (ch "<"); star (Cls true [one ">"]); Chr (ch ">")]).

(** Method 1: the bodies of the literal-text tags. *)
Definition tagTexts (sharedStringsContent : jsstring) : list jsstring :=
  filter (fun textContent => (0 <? length textContent)%nat)
    (map (fun m => trim (re_replace_g RE_anyTag m []))
       (re_match_g RE_textTag sharedStringsContent)).

Definition c_alnumHangul : list (Z * Z) := c_hangul ++ c_alpha ++ c_digit.

(** The patterns of the three filter levels. *)
Definition RE_strictWord : pattern :=
  re (seqs [Bol;
            plus (Cls false (c_alnumHangul ++
                    [one "-"; one "_"; one "("; one ")"; one "["; one "]";
                     one "{"; one "}"; one "."; one ","]));
            Eol]).
Definition RE_digitsDots : pattern :=
  re (seqs [Bol; plus (Cls false (c_digit ++ [one "."])); Eol]).
Definition RE_system1 : pattern :=
  re_i (alts [seqs [Bol; lit "xl/"]; seqs [lit ".xml"; Eol]; seqs [Bol; lit "PK"];
              seqs [Bol; lit "Content"]; seqs [Bol; lit "Types"]; lit "sharedStrings"]).
Definition RE_meaningfulChar : pattern := re (Cls false c_alnumHangul).
Definition RE_system2 : pattern :=
  re_i (alts [seqs [Bol; lit "xl/"]; seqs [lit ".xml"; Eol]; seqs [Bol; lit "PK"];
              seqs [Bol; lit "Content"]; seqs [Bol; lit "Types"]]).
Definition RE_hardControl : pattern :=
  re (Cls false [(0x00, 0x08); (0x0E, 0x1F); (0x7F, 0x9F)]).
Definition RE_system3 : pattern :=
  re_i (alts [seqs [Bol; lit "PK"; Eol]; seqs [Bol; lit "xl"; Eol]; seqs [lit "xml"; Eol]]).

Definition filterLevels : list (jsstring -> bool) :=
  [ (fun word =>
       (2 <=? length word)%nat && (length word <=? 50)%nat
       && re_test RE_strictWord word && negb (re_test RE_digitsDots word)
       && negb (re_test RE_system1 word));
    (fun word =>
       (2 <=? length word)%nat && (length word <=? 50)%nat
       && re_test RE_meaningfulChar word && negb (re_test RE_system2 word)
       && negb (re_test RE_hardControl word));
    (fun word =>
       (1 <=? length word)%nat && (length word <=? 100)%nat
       && re_test RE_meaningfulChar word && negb (re_test RE_system3 word)) ].

(** The loop over the levels; [last] tells the last level. *)
Fixpoint filterByLevels (allWords : list jsstring) (levels : list (jsstring -> bool))
  : list jsstring :=
  match levels with
  | [] => []
  | level :: levels' =>
    let filtered := filter level allWords in
    match filtered with
    | [] => filterByLevels allWords levels'
    | _ =>
      let unique := firstn 50 (dedupe filtered) in
      if (5 <=? length unique)%nat || (length levels' =? 0)%nat then unique
      else filterByLevels allWords levels'
    end
  end.

(** Method 2: the words between the tags. *)
Definition wordTexts (sharedStringsContent : jsstring) : list jsstring :=
  let withoutTags := re_replace_g RE_anyTag sharedStringsContent (js " ") in
  let allWords :=
    filter (fun word => (0 <? length word)%nat)
      (map trim (re_split RE_spaces withoutTags)) in
  filterByLevels allWords filterLevels.

(** Method 3: [/[가-힣]{1,}/g], [/[a-zA-Z]{2,}/g], [/[0-9]{4,}/g] and
    [/[가-힣a-zA-Z0-9]{1,}/g]. *)
Definition minePatterns : list pattern :=
  [re (atleast 1 hangul); re (atleast 2 (Cls false c_alpha)); re (atleast 4 digit);
   re (atleast 1 (Cls false c_alnumHangul))].

Fixpoint patternTexts (sharedStringsContent : jsstring) (patterns : list pattern)
    (extractedTexts : list jsstring) : list jsstring :=
  match patterns with
  | [] => extractedTexts
  | pattern :: patterns' =>
    let matches := re_match_g pattern sharedStringsContent in
    let extractedTexts :=
      extractedTexts ++
      filter (fun cleaned =>
                (1 <=? length cleaned)%nat && (length cleaned <=? 100)%nat
                && negb (re_test RE_system3 cleaned))
        (map trim matches) in
    match matches, extractedTexts with
    | _ :: _, _ :: _ => firstn 50 (dedupe (dedupe extractedTexts))
    | _, _ => patternTexts sharedStringsContent patterns' extractedTexts
    end
  end.

Definition extractTexts (sharedStringsContent : jsstring) : list jsstring :=
  let extractedTexts := tagTexts sharedStringsContent in
  let extractedTexts :=
    match extractedTexts with
    | [] => wordTexts sharedStringsContent
    | _ => extractedTexts
    end in
  if (length extractedTexts <? 5)%nat
  then patternTexts sharedStringsContent minePatterns extractedTexts
  else extractedTexts.

(** The three tests of a meaningful text. *)
Definition RE_keyword : pattern :=
  re (seqs [WordB;
            Grp (alts (map lit ["주문"; "배송"; "연락"; "전화"; "주소"; "번호";
                                "회사"; "고객"; "상품"]%string));
            WordB]).
Definition RE_longNumber : pattern := re (seqs [WordB; atleast 4 digit; WordB]).

Definition isMeaningful (text : jsstring) : bool :=
  re_test RE_hangul2 text || re_test RE_keyword text || re_test RE_longNumber text.

Definition sharedStringsTable (extractedTexts : list jsstring) : Table :=
  let headerCount := Nat.min (length extractedTexts) 10 in
  let headers := map normalizeHeaderField (firstn headerCount extractedTexts) in
  strTable (headers ::
            chunkRows (length extractedTexts) headerCount
              (skipn headerCount extractedTexts)).

Definition extractDataFromSharedStrings_try (sharedStringsContent : jsstring)
  : result (option Buffer) :=
  let extractedTexts := extractTexts sharedStringsContent in
  match filter isMeaningful extractedTexts with
  | [] => Throw (js "의미있는 텍스트 없음")
  | _ =>
    match extractedTexts with
    | [] => Ok None
    | _ =>
      outputBuffer <- writeSheet (js "Sheet1") (sharedStringsTable extractedTexts)
                        WRITE_XLSX_COMPRESSED ;;
      Ok (Some outputBuffer)
    end
  end.

Definition extractDataFromSharedStrings (buffer : Buffer) (filename : jsstring)
    (sharedStringsContent : jsstring) : result Buffer :=
  match try_catch (extractDataFromSharedStrings_try sharedStringsContent)
          (fun _ => Ok None) with
  | Ok (Some outputBuffer) => Ok outputBuffer
  | _ => findMeaningfulTextInBuffer buffer filename
  end.

(** ** The cell-markup miner: [extractDataFromWorksheet]
    (converter.ts 1279-1339) *)

(** [/<c[^>]*>.*?<\/c>/g] and [/<v[^>]*>(B)<\/v>/], where the group [B]
    is [[^<]*] *)
Definition RE_cellTag : pattern :=
  re (seqs [lit "<c"; star (Cls true [one ">"]); Chr (ch ">");
            Rep 0 None false Dot; lit "</c>"]).
Definition RE_valueTag : pattern :=
  re (seqs [lit "<v"; star (Cls true [one ">"]); Chr (ch ">");
            Grp (star (Cls true [one "<"])); lit "</v>"]).

Definition cellValues (worksheetContent : jsstring) : list jsstring :=
  flat_map (fun cellMatch =>
              match re_exec RE_valueTag cellMatch with
              | Some (_, (c :: cs) :: _) => [trim (c :: cs)]
              | _ => []
              end)
    (re_match_g RE_cellTag worksheetContent).

(** [Math.min(Math.max(Math.floor(Math.sqrt(n)), 3), 15)] *)
Definition estimatedColumns (n : nat) : nat :=
  Nat.min (Nat.max (Nat.sqrt n) 3) 15.

Definition worksheetTable (extractedValues : list jsstring) : Table :=
  let width := estimatedColumns (length extractedValues) in
  match chunkRows (length extractedValues) width extractedValues with
  | [] => []
  | row :: rows => strTable (map (headerCell row) row :: rows)
  end.

Definition WORKSHEET_FAILED : jsstring := js "Worksheet 추출 실패".

Definition extractDataFromWorksheet (worksheetContent : jsstring) : result Buffer :=
  match try_catch
          (match cellValues worksheetContent with
           | [] => Ok None
           | extractedValues =>
             outputBuffer <- writeSheet (js "Sheet1") (worksheetTable extractedValues)
                               WRITE_XLSX_COMPRESSED ;;
             Ok (Some outputBuffer)
           end)
          (fun _ => Ok None) with
  | Ok (Some outputBuffer) => Ok outputBuffer
  | _ => Throw WORKSHEET_FAILED
  end.

(** ** [convertBinaryToJsonToXlsx] (converter.ts 465-626) *)

(** The patterns of the line filter: [/[\r\n]+/], [/^[<>]/],
    [/^PK|^[A-Za-z0-9+/]{20,}$/], [/[가-힣a-zA-Z0-9\s\-_()[\]{}.,]/] and
    [/^[\x00-\x1F\x7F-\xFF]{5,}/]. *)
Definition RE_lineBreaks : pattern := re (plus (Cls false [(13, 13); (10, 10)])).
Definition RE_startsWithAngle : pattern :=
  re (seqs [Bol; Cls false [one "<"; one ">"]]).
Definition RE_zipOrBase64 : pattern :=
  re (alts [seqs [Bol; lit "PK"];
            seqs [Bol; atleast 20 (Cls false (c_alpha ++ c_digit ++ [one "+"; one "/"]));
                  Eol]]).
Definition RE_dataChar : pattern :=
  re (Cls false (c_alnumHangul ++ c_space ++
                 [one "-"; one "_"; one "("; one ")"; one "["; one "]";
                  one "{"; one "}"; one "."; one ","])).
Definition RE_binaryStart : pattern :=
  re (seqs [Bol; atleast 5 (Cls false [(0x00, 0x1F); (0x7F, 0xFF)])]).

Definition meaningfulLines (textContent : jsstring) : list jsstring :=
  firstn 100
    (filter (fun line =>
               (0 <? length line)%nat && (length line <? 500)%nat
               && negb (re_test RE_startsWithAngle line)
               && negb (re_test RE_zipOrBase64 line)
               && re_test RE_dataChar line
               && negb (re_test RE_binaryStart line))
       (map trim (re_split RE_lineBreaks textContent))).

(** [extractedData]: the encodings with a meaningful line, and their
    lines. *)
Definition extractEncoding (buffer : Buffer) (encoding : string)
  : list (string * list jsstring) :=
  match Buffer_toString encoding buffer with
  | Ok textContent =>
    match meaningfulLines textContent with
    | [] => []
    | lines => [(encoding, lines)]
    end
  | Throw _ => []
  end.

Definition extractedData (buffer : Buffer) : list (string * list jsstring) :=
  flat_map (extractEncoding buffer) ["utf8"; "latin1"; "ascii"; "base64"]%string.

(** [array.reduce(f)] without an initial value throws on an empty array. *)
Definition reduce1 {A} (f : A -> A -> A) (l : list A) : result A :=
  match l with
  | [] => Throw (js "Reduce of empty array with no initial value")
  | a :: l' => Ok (fold_left f l' a)
  end.

Definition moreLines (best current : string * list jsstring) : string * list jsstring :=
  if (length (snd best) <? length (snd current))%nat then current else best.

(** The header row from the first line of the best encoding. *)
Definition bestSplit (firstLine : jsstring) : list jsstring :=
  fst (fold_left
         (fun (acc : list jsstring * nat) delimiter =>
            let split := filter nonBlank (split_on delimiter firstLine) in
            if (snd acc <? length split)%nat && (length split <=? 20)%nat
            then (split, length split) else acc)
         [TAB; COMMA; SEMICOLON; PIPE; 32] ([firstLine], 1%nat)).

Definition binaryHeader (lines : list jsstring) : list (list jsstring) :=
  match lines with
  | [] => []
  | firstLine :: _ =>
    let headers := map (fun header => normalizeHeaderField (trim header))
                     (bestSplit firstLine) in
    if (1 <? length headers)%nat then [headers]
    else [[js "데이터"; js "내용"; js "인코딩"; js "라인번호"]]
  end.

(** The cells of one data line, before the empty-row test. *)
Definition binaryCells (headerLength : nat) (line : jsstring) : list jsstring :=
  let cells :=
    fold_left
      (fun (cells : list jsstring) delimiter =>
         let split := split_on delimiter line in
         if (length cells <? length split)%nat && (length split <=? 20)%nat
         then map trim split else cells)
      delimiters [line] in
  firstn headerLength (cells ++ repeat [] (headerLength - length cells)).

Definition binaryRows (header : list (list jsstring))
    (data : list (string * list jsstring)) : list (list jsstring) :=
  let headerLength :=
    match header with
    | h :: _ => match length h with O => 4%nat | n => n end
    | [] => 4%nat
    end in
  concat
    (mapi (fun encodingIndex (item : string * list jsstring) =>
             concat
               (mapi (fun lineIndex line =>
                        if (encodingIndex =? 0)%nat && (lineIndex =? 0)%nat
                           && (0 <? length header)%nat
                        then []
                        else
                          let cells := binaryCells headerLength line in
                          if existsb nonBlank cells then [cells] else [])
                  (snd item)))
       data).

Definition fileInfoTable (buffer : Buffer) (filename : jsstring) : Table :=
  strTable
    [[js "파일명"; js "크기"; js "상태"; js "비고"];
     [filename; String_of_nat (length buffer) ++ js " bytes"; js "변환 실패";
      js "바이너리 파일 - 수동 확인 필요"]].

Definition convertBinaryToJsonToXlsx (buffer : Buffer) (filename : jsstring)
  : result Buffer :=
  try_catch
    (let data := extractedData buffer in
     bestEncoding <- reduce1 moreLines data ;;
     let header := binaryHeader (snd bestEncoding) in
     writeSheet (js "ExtractedData") (strTable (header ++ binaryRows header data))
       WRITE_XLSX_COMPRESSED)
    (fun _ => writeSheet (js "FileInfo") (fileInfoTable buffer filename)
                WRITE_XLSX_COMPRESSED).

(** ** [handleBinaryExcelFile] (converter.ts 1533-1627) *)

(** [cell && String(cell).trim() !== ''] *)
Definition truthyNotBlank (cell : Cell) : bool :=
  match cell with
  | CStr s => nonBlank s
  | CNum x => negb (isNaN x) && negb (match x with S754_zero _ => true | _ => false end)
  | CBool b => b
  | CDate _ => true
  | CNull => false
  end.

Definition JSON_ROWS : Options :=
  [prop "header" (ONum 1); prop "defval" ONull].
Definition JSON_TEXT_ROWS : Options :=
  JSON_ROWS ++ [prop "raw" (OBool false)].
Definition JSON_TEXT_ROWS_NO_BLANK : Options :=
  JSON_TEXT_ROWS ++ [prop "blankrows" (OBool false)].

(** [XLSX.utils.sheet_to_json] of [Sheets[SheetNames[0]]]; SheetJS gives no
    rows for a sheet that is not there. *)
Definition firstSheetRows (workbook : WorkBook) (opts : Options) : Table :=
  match workbook with
  | [] => []
  | (_, firstSheet) :: _ => XLSX_sheet_to_json E firstSheet opts
  end.

Definition hasTextInFirstRow (testData : Table) : bool :=
  match testData with
  | [] => false
  | row0 :: _ => existsb truthyNotBlank row0
  end.

(** The first of the read options that decodes a workbook with text in
    the first row of its first sheet. *)
Fixpoint firstReadableWorkbook (buffer : Buffer) (readOptions : list Options)
  : option WorkBook :=
  match readOptions with
  | [] => None
  | o :: readOptions' =>
    match XLSX_read E buffer o with
    | Ok testWorkbook =>
      if hasTextInFirstRow (firstSheetRows testWorkbook JSON_TEXT_ROWS_NO_BLANK)
      then Some testWorkbook
      else firstReadableWorkbook buffer readOptions'
    | Throw _ => firstReadableWorkbook buffer readOptions'
    end
  end.

Definition BUFFER_TYPE : string * optval := prop "type" (OStr "buffer").

Definition binaryReadOptions : list Options :=
  [ [BUFFER_TYPE; prop "cellText" (OBool false); prop "cellDates" (OBool true);
     prop "raw" (OBool true)];
    [BUFFER_TYPE; prop "cellText" (OBool true); prop "cellDates" (OBool false);
     prop "raw" (OBool false)];
    [BUFFER_TYPE; prop "cellText" (OBool false); prop "cellDates" (OBool false);
     prop "raw" (OBool false)];
    [BUFFER_TYPE; prop "cellFormula" (OBool false); prop "cellHTML" (OBool false)] ].

Definition binaryTextTable (buffer : Buffer) (filename : jsstring) : Table :=
  let textContent := toString_utf8 (firstn (Z.to_nat 10000) buffer) in
  let lines := firstn 100 (split_on NEWLINE textContent) in
  strTable
    ([js "파일명"; js "내용"; js "비고"]
     :: [filename; js "바이너리 파일 - 텍스트 변환";
         js "원본 크기: " ++ String_of_nat (length buffer) ++ js " bytes"]
     :: mapi (fun index line =>
                [js "라인 " ++ String_of_nat (index + 1); substring 0 500 line; []])
          lines).

Definition handleBinaryExcelFile (buffer : Buffer) (filename : jsstring)
  : result Buffer :=
  try_catch
    (match firstReadableWorkbook buffer binaryReadOptions with
     | None => convertBinaryToJsonToXlsx buffer filename
     | Some workbook =>
       normalizedWorkbook <- normalizeWorkbook workbook ;;
       Ok (XLSX_write E normalizedWorkbook WRITE_XLSX_COMPRESSED)
     end)
    (fun _ => writeSheet (js "Sheet1") (binaryTextTable buffer filename)
                WRITE_XLSX_COMPRESSED).

(** ** [handleExcelFile] (converter.ts 1344-1528) *)

Definition excelReadOptions : list Options :=
  let base (cellText cellDates raw : bool) : Options :=
    [prop "cellText" (OBool cellText); prop "cellDates" (OBool cellDates);
     prop "raw" (OBool raw)] in
  [ base false true false;
    base true true false;
    base false true true;
    base true true true;
    base false false false ++ [prop "codepage" (ONum 949)];
    base true false false ++ [prop "codepage" (ONum 949)];
    base false false true ++ [prop "codepage" (ONum 949)];
    base false true false ++ [prop "codepage" (ONum 1200)];
    base false true false ++ [prop "codepage" (ONum 65001)];
    base false true false ++ [prop "bookVBA" (OBool true)];
    base false true false ++ [prop "bookSheets" (OBool true); prop "bookProps" (OBool true)] ].

(** The body of the [try] of the first loop: a buffer when this option
    decodes a first row with a cell that is not empty. *)
Definition readAttempt (buffer : Buffer) (o : Options) : result (option Buffer) :=
  workbook <- XLSX_read E buffer o ;;
  match firstSheetRows workbook JSON_ROWS with
  | row0 :: _ =>
    if (0 <? length workbook)%nat && (0 <? length row0)%nat
       && existsb notEmptyCell row0
    then
      normalizedWorkbook <- normalizeWorkbook workbook ;;
      Ok (Some (XLSX_write E normalizedWorkbook WRITE_XLSX))
    else Ok None
  | [] => Ok None
  end.

(** The body of the [try] of the backup loop. *)
Definition backupAttempt (buffer : Buffer) (o : Options) : result (option Buffer) :=
  workbook <- XLSX_read E buffer o ;;
  match workbook with
  | [] => Ok None
  | _ =>
    if hasTextInFirstRow (firstSheetRows workbook JSON_TEXT_ROWS_NO_BLANK)
    then
      normalizedWorkbook <- normalizeWorkbook workbook ;;
      Ok (Some (XLSX_write E normalizedWorkbook WRITE_XLSX_COMPRESSED))
    else Ok None
  end.

(** A loop whose body sits in a [try] with a [catch] that goes on. *)
Fixpoint firstSuccess (attempt : Options -> result (option Buffer))
    (options : list Options) : option Buffer :=
  match options with
  | [] => None
  | o :: options' =>
    match attempt o with
    | Ok (Some outputBuffer) => Some outputBuffer
    | _ => firstSuccess attempt options'
    end
  end.

Definition fallbackReadOptions : list Options :=
  [ [BUFFER_TYPE; prop "codepage" (ONum 949); prop "cellText" (OBool false);
     prop "cellDates" (OBool true)];
    [BUFFER_TYPE; prop "codepage" (ONum 1200); prop "cellText" (OBool false);
     prop "cellDates" (OBool true)];
    [BUFFER_TYPE; prop "codepage" (ONum 65001); prop "cellText" (OBool false);
     prop "cellDates" (OBool true)];
    [BUFFER_TYPE; prop "cellText" (OBool false); prop "cellDates" (OBool true);
     prop "raw" (OBool true)];
    [BUFFER_TYPE; prop "cellText" (OBool true); prop "cellDates" (OBool false);
     prop "raw" (OBool false)];
    [BUFFER_TYPE; prop "cellFormula" (OBool false); prop "cellHTML" (OBool false)] ].

(** The candidate payload of a container entry: from 30 characters after
    the local-file-header marker that precedes the entry name to the next
    [PK], or [cap] characters. *)
Definition LOCAL_HEADER : jsstring := [80; 75; 3; 4].

Definition zipPayload (textContent entryName : jsstring) (cap : nat)
  : option jsstring :=
  match indexOf entryName textContent with
  | None => None
  | Some entryIndex =>
    match lastIndexOf LOCAL_HEADER textContent entryIndex with
    | None => None
    | Some zipEntryStart =>
      let afterEntry := substring_from (zipEntryStart + 30) textContent in
      match indexOf (js "PK") afterEntry with
      | Some nextPKIndex => Some (substring 0 nextPKIndex afterEntry)
      | None => Some (substring 0 cap afterEntry)
      end
    end
  end.

(** [decompressedData] when it is neither [null] nor empty. *)
Definition decompressedEntry (textContent entryName : jsstring) (cap : nat)
  : option jsstring :=
  match zipPayload textContent entryName cap with
  | Some compressedData =>
    match tryDecompressData compressedData with
    | Some (c :: cs) => Some (c :: cs)
    | _ => None
    end
  | None => None
  end.

(** The body of the [try] of the container scan. *)
Definition containerScan (buffer : Buffer) (filename : jsstring)
  : result (option Buffer) :=
  let textContent := toString_latin1 buffer in
  match decompressedEntry textContent (js "xl/sharedStrings.xml") 1000 with
  | Some decompressedData =>
    outputBuffer <- extractDataFromSharedStrings buffer filename decompressedData ;;
    Ok (Some outputBuffer)
  | None =>
    match decompressedEntry textContent (js "xl/worksheets/sheet1.xml") 2000 with
    | Some decompressedData =>
      outputBuffer <- extractDataFromWorksheet decompressedData ;;
      Ok (Some outputBuffer)
    | None => Ok None
    end
  end.

Definition startsWithPK (buffer : Buffer) : bool :=
  match buffer with
  | b0 :: b1 :: _ => (byteZ b0 =? 0x50) && (byteZ b1 =? 0x4B)
  | _ => false
  end.

Definition handleExcelFile (buffer : Buffer) (filename : jsstring) : result Buffer :=
  match firstSuccess (readAttempt buffer) excelReadOptions with
  | Some outputBuffer => Ok outputBuffer
  | None =>
    match (if startsWithPK buffer
           then try_catch (containerScan buffer filename) (fun _ => Ok None)
           else Ok None) with
    | Ok (Some outputBuffer) => Ok outputBuffer
    | _ =>
      match firstSuccess (backupAttempt buffer) fallbackReadOptions with
      | Some outputBuffer => Ok outputBuffer
      | None => handleBinaryExcelFile buffer filename
      end
    end
  end.

(** ** [convertToXlsx] (converter.ts 1632-1746) *)

Definition isZipFile (buffer : Buffer) : bool :=
  match buffer with
  | b0 :: b1 :: b2 :: _ :: _ =>
    (byteZ b0 =? 0x50) && (byteZ b1 =? 0x4B)
    && ((byteZ b2 =? 0x03) || (byteZ b2 =? 0x05) || (byteZ b2 =? 0x07))
  | _ => false
  end.

(** [filename.toLowerCase().split('.').pop()] *)
Definition fileExtension (filename : jsstring) : jsstring :=
  last (split_on (ch ".") (toLowerCase filename)) [].

(** The routing test of the first [if]. *)
Definition isExcelRoute (buffer : Buffer) (filename : jsstring) : bool :=
  str_eqb (fileExtension filename) (js "xlsx")
  || str_eqb (fileExtension filename) (js "xls")
  || isZipFile buffer.

Definition STANDARD_READ : Options :=
  [BUFFER_TYPE; prop "cellDates" (OBool true); prop "cellNF" (OBool false);
   prop "cellText" (OBool false); prop "codepage" (ONum 65001)].

Definition EMPTY_WORKBOOK : jsstring := js "빈 워크북".
Definition EMPTY_HEADER : jsstring := js "헤더가 비어있음 - 텍스트 복구 필요".

(** Stage 1, the body of the inner [try]: the standard parser and the
    test of its header. *)
Definition standardParse (buffer : Buffer) : result WorkBook :=
  workbook <- XLSX_read E buffer STANDARD_READ ;;
  match workbook with
  | [] => Throw EMPTY_WORKBOOK
  | _ =>
    if hasTextInFirstRow (firstSheetRows workbook JSON_TEXT_ROWS)
    then Ok workbook
    else Throw EMPTY_HEADER
  end.

Definition WRITE_FINAL : Options :=
  WRITE_XLSX_COMPRESSED ++ [prop "cellDates" (OBool true)].

Definition CONVERSION_FAILED : jsstring := js "파일 변환에 실패했습니다: ".

(** The text route: the outer [try] and its [catch]. *)
Definition convertText (buffer : Buffer) (forceTextRecovery : bool) : result Buffer :=
  try_catch
    (workbook <-
       (if negb forceTextRecovery
        then try_catch (standardParse buffer) (fun _ => textBasedRecovery buffer)
        else textBasedRecovery buffer) ;;
     normalizedWorkbook <- normalizeWorkbook workbook ;;
     Ok (XLSX_write E normalizedWorkbook WRITE_FINAL))
    (fun message => Throw (CONVERSION_FAILED ++ message)).

Definition convertToXlsx (buffer : Buffer) (filename : jsstring)
    (forceTextRecovery : bool) : result Buffer :=
  if isExcelRoute buffer filename
  then handleExcelFile buffer filename
  else convertText buffer forceTextRecovery.

(** ** [processFile] (converter.ts 1751-1816) *)

Record ConversionResult := MkConversionResult
  { success : bool;
    buffer : option Buffer;
    filename : jsstring;
    originalSize : nat;
    convertedSize : option nat;
    message : option jsstring;
    warnings : option (list jsstring) }.

Definition UNSUPPORTED : jsstring :=
  js "지원하지 않는 파일 형식입니다. 지원 형식: .xls, .xlsx, .csv, .tsv, .txt".
Definition TOO_LARGE : jsstring := js "파일이 너무 큽니다. 최대 크기: 50MB".
Definition WARN_LARGER : jsstring :=
  js "변환된 파일이 원본보다 상당히 큽니다. 데이터 확인을 권장합니다.".
Definition WARN_SMALLER : jsstring :=
  js "변환된 파일이 원본보다 상당히 작습니다. 데이터 손실이 있을 수 있습니다.".

Definition sizeWarnings (convertedLength originalLength : nat) : list jsstring :=
  let sizeRatio := fdiv (num_of_nat convertedLength) (num_of_nat originalLength) in
  if flt (num_of_Z 3) sizeRatio then [WARN_LARGER]
  else if flt sizeRatio (num_of_decimal false 1 1) && (1000 <? originalLength)%nat
  then [WARN_SMALLER]
  else [].

(** The body of the [try]. *)
Definition processFile_try (buffer : Buffer) (originalFilename : jsstring)
    (forceTextRecovery : bool) : result ConversionResult :=
  if negb (validateFileExtension originalFilename) then Throw UNSUPPORTED
  else if negb (validateFileSize (Z.of_nat (length buffer))) then Throw TOO_LARGE
  else
    convertedBuffer <- convertToXlsx buffer originalFilename forceTextRecovery ;;
    let baseName := re_replace RE_extension originalFilename [] in
    let safeBaseName := sanitizeFilename baseName in
    let resultFilename := safeBaseName ++ js "_변환완료.xlsx" in
    let warnings := sizeWarnings (length convertedBuffer) (length buffer) in
    Ok (MkConversionResult true (Some convertedBuffer) resultFilename
          (length buffer) (Some (length convertedBuffer)) None
          (match warnings with [] => None | _ => Some warnings end)).

Definition processFile (buffer : Buffer) (originalFilename : jsstring)
    (forceTextRecovery : bool) : result ConversionResult :=
  try_catch (processFile_try buffer originalFilename forceTextRecovery)
    (fun message =>
       Ok (MkConversionResult false None originalFilename (length buffer) None
             (Some message) None)).
End Pipeline.

(** ** The callers of the converter *)

(** [l.join(sep)] *)
Definition join (sep : jsstring) (l : list jsstring) : jsstring :=
  match l with
  | [] => []
  | x :: l' => x ++ flat_map (fun y => sep ++ y) l'
  end.

(** The check of the file picker (components/FileUploader.tsx 8-9 and
    48-61); [None] is [null], a text is the message shown.  The two
    divisions by 1024 are exact, so [Math.round] leaves their quotient. *)
Module FileUploader.
Definition SUPPORTED_EXTENSIONS : list jsstring :=
  [js ".xls"; js ".xlsx"; js ".csv"; js ".tsv"; js ".txt"].

Definition MAX_FILE_SIZE : Z := 50 * 1024 * 1024.

Definition validateFile (name : jsstring) (size : Z) : option jsstring :=
  let ext :=
    substring_from (orElse (lastIndexOf_end (js ".") name) 0%nat) (toLowerCase name) in
  if negb (existsb (str_eqb ext) SUPPORTED_EXTENSIONS)
  then Some (js "지원하지 않는 파일 형식입니다. 지원 형식: "
             ++ join (js ", ") SUPPORTED_EXTENSIONS)
  else if MAX_FILE_SIZE <? size
  then Some (js "파일이 너무 큽니다. 최대 크기: "
             ++ String_of_nat (Z.to_nat (MAX_FILE_SIZE / 1024 / 1024)) ++ js "MB")
  else None.
End FileUploader.

(** The fallback of the API route and the name it gives the download
    (pages/api/convert-python.ts 129-140 and 212-214). *)
Definition ALL_FAILED : jsstring := js "모든 변환 방법이 실패했습니다.".

Definition fallbackToTypeScript (E : Collaborators) (fileBuffer : Buffer)
    (filename : jsstring) : result Buffer :=
  try_catch (convertToXlsx E fileBuffer filename false) (fun _ => Throw ALL_FAILED).

(** [/[^\w가-힣\-_]/g] *)
Definition RE_notDownloadChar : pattern :=
  re (Cls true (c_word ++ c_hangul ++ [one "-"; one "_"])).

Definition convertedFilename (originalFilename : jsstring) : jsstring :=
  let originalName :=
    match re_replace RE_extension originalFilename [] with
    | [] => js "converted"
    | name => name
    end in
  re_replace_g RE_notDownloadChar originalName (js "_") ++ js "_변환완료.xlsx".

(** ** Collaborators for the examples

    [rejecting] stands for libraries that recognise nothing: the decoder
    throws on every buffer, the charset detector finds nothing, the inflaters
    throw.  [XLSX_sheet_to_json] gives the rows of the grid, with [null] where
    a cell is absent (what [defval: null] asks for); [XLSX_write] writes the
    sheet names, which is enough to tell two workbooks of the examples
    apart. *)
Definition writeNames (wb : WorkBook) (_ : Options) : Buffer :=
  flat_map (fun entry : jsstring * Sheet => x00 :: map byte_of_Z (fst entry)) wb.

Definition rejecting : Collaborators :=
  {| XLSX_read := fun _ _ => Throw (js "Unsupported file");
     XLSX_sheet_to_json := fun sheet _ => sheet;
     XLSX_write := writeNames;
     jschardet_detect := fun _ => Ok None;
     iconv_decode := fun buffer _ => Ok (toString_latin1 buffer);
     iconv_encodingExists := fun _ => false;
     zlib_inflateRawSync := fun _ => Throw (js "invalid stored block lengths");
     zlib_gunzipSync := fun _ => Throw (js "incorrect header check") |}.

(** The same libraries with another decoder. *)
Definition withRead (E : Collaborators)
    (read : Buffer -> Options -> result WorkBook) : Collaborators :=
  {| XLSX_read := read;
     XLSX_sheet_to_json := XLSX_sheet_to_json E;
     XLSX_write := XLSX_write E;
     jschardet_detect := jschardet_detect E;
     iconv_decode := iconv_decode E;
     iconv_encodingExists := iconv_encodingExists E;
     zlib_inflateRawSync := zlib_inflateRawSync E;
     zlib_gunzipSync := zlib_gunzipSync E |}.

(** A decoder that reads every buffer as the workbook [wb]. *)
Definition reading (wb : WorkBook) : Collaborators :=
  withRead rejecting (fun _ _ => Ok wb).

Definition bytes (s : string) : Buffer := list_byte_of_string s.

(** The same libraries with another [iconv.decode]. *)
Definition withDecode (E : Collaborators)
    (decode : Buffer -> jsstring -> result jsstring) : Collaborators :=
  {| XLSX_read := XLSX_read E;
     XLSX_sheet_to_json := XLSX_sheet_to_json E;
     XLSX_write := XLSX_write E;
     jschardet_detect := jschardet_detect E;
     iconv_decode := decode;
     iconv_encodingExists := iconv_encodingExists E;
     zlib_inflateRawSync := zlib_inflateRawSync E;
     zlib_gunzipSync := zlib_gunzipSync E |}.

(** Libraries whose [iconv.decode] throws on every call. *)
Definition undecodable : Collaborators :=
  withDecode rejecting (fun _ _ => Throw (js "Encoding not recognized")).

(* ================================================================== *)
(** * Part II: the vocabulary of the properties                         *)
(* ================================================================== *)

Unset Implicit Arguments.

(** A string that does not start, or end, with white space. *)
Definition startsClean (s : jsstring) : Prop :=
  match s with c :: _ => isWhiteSpace c = false | [] => True end.

Definition endsClean (s : jsstring) : Prop := startsClean (rev s).

Definition isQuote (q : Z) : Prop := q = QUOTE \/ q = APOSTROPHE.

(** The state of the loop of the delimiter detector after the candidates
    [seen]: the largest score so far is in [snd st], and either nothing was
    adopted or [fst st] is the candidate adopted with that score. *)
Definition detectInv (lines : list jsstring) (seen : list Z) (st : Z * number) : Prop :=
  (forall c, In c seen -> flt (snd st) (candidateScore lines c) = false) /\
  ((st = (COMMA, zero) /\
    forall c, In c seen -> flt zero (candidateScore lines c) = false)
   \/ (In (fst st) seen /\ snd st = candidateScore lines (fst st) /\
       flt zero (snd st) = true)).

(** The sample as the specification words it: the first ten lines that are
    not blank. *)
Definition firstTenNonBlank (text : jsstring) : list jsstring :=
  firstn 10 (filter nonBlank (split_on NEWLINE text)).

(** Ten empty lines, then two lines with a semicolon. *)
Definition lateText : jsstring :=
  repeat NEWLINE 10 ++ js "a;b" ++ [NEWLINE] ++ js "c;d".

Definition abcText : jsstring :=
  js "a,b,c" ++ [NEWLINE] ++ js "1,2,3" ++ [NEWLINE] ++ js "4,5,6".

(** A positive number, finite or infinite, of at least [2^(k-1)]: the
    number of binary digits of its mantissa plus its exponent is at least
    [k]. *)
Definition big (k : Z) (x : number) : Prop :=
  x = S754_infinity false \/
  exists m e, x = S754_finite false m e /\ k <= Zpos (digits2_pos m) + e.

(** A positive number that is at least the integer [N]. *)
Definition above (N : Z) (x : number) : Prop :=
  big 54 x \/
  exists m e, x = S754_finite false m e /\ e <= 0 /\ N * 2 ^ (- e) <= Zpos m.

(** A positive number of at least [2^(k-1)] whose mantissa has 53 binary
    digits. *)
Definition normal (k : Z) (x : number) : Prop :=
  x = S754_infinity false \/
  exists m e, x = S754_finite false m e /\ Zpos (digits2_pos m) = 53 /\ k <= 53 + e.

(** The score as the specification words it: consistency divides by the
    average itself. *)
Definition scoreAsSpecified (columnCounts : list Z) : number :=
  let sampleSize := num_of_nat (length columnCounts) in
  let avgColumns :=
    fdiv (fold_left (fun a b => fadd a (num_of_Z b)) columnCounts zero) sampleSize in
  let consistency :=
    if 10 <? maxOf columnCounts then num_of_decimal false 8 1
    else fsub (num_of_Z 1)
           (fdiv (num_of_Z (maxOf columnCounts - minOf columnCounts)) avgColumns) in
  fmul (fmul avgColumns (Math_max consistency (num_of_decimal false 5 1))) sampleSize.

(** The double with the value [m * 2^e]. *)
Definition dyadic (m e : Z) : number := binary_normalize 53 1024 m e false.

(** The rules of the cell normalizer as a list, and the first of them that
    applies. *)
Definition parenthesisRule (trimmed : jsstring) : option Cell :=
  if includes (js "(") trimmed && includes (js ")") trimmed
  then Some (CStr trimmed) else None.

Fixpoint firstMatch (rules : list (jsstring -> option Cell)) (trimmed : jsstring)
  : Cell :=
  match rules with
  | [] => CStr trimmed
  | rule :: rules' =>
    match rule trimmed with
    | Some cell => cell
    | None => firstMatch rules' trimmed
    end
  end.

Definition outcomeCells (o : lineOutcome) : Row :=
  match o with
  | Parsed cells => cells
  | Fallback cells => cells
  end.

(** Every row of [data] has at most [maxColumns] cells. *)
Definition fits (maxColumns : nat) (data : Table) : Prop :=
  Forall (fun row => (length row <= maxColumns)%nat) data.

Definition maxWidth (rows : list Row) : nat :=
  fold_left (fun m row => Nat.max m (length row)) rows 0%nat.

(** The rows of cells the lines of a text are turned into, kept or not. *)
Definition tokenizedRows (text : jsstring) : list Row :=
  map outcomeCells (mapi (processLine (detectDelimiter text)) (textLines text)).

(** A name [book_append_sheet] accepts in a new workbook. *)
Definition validName (name : jsstring) : bool :=
  (length name <=? 31)%nat && negb (existsb (fun c => existsb (Z.eqb c) name) badchars).

(** A buffer the workbook writer produced from a workbook with a sheet. *)
Definition written (E : Collaborators) (out : Buffer) : Prop :=
  exists wb opts, out = XLSX_write E wb opts /\ wb <> [].

(** The two ways into delimited-text recovery on the text route: the
    caller forces it, or the standard parser throws (on its own or because
    the header it read is empty). *)
Definition entersTextRecovery (E : Collaborators) (buffer : Buffer)
    (forceTextRecovery : bool) : Prop :=
  forceTextRecovery = true \/ exists m, standardParse E buffer = Throw m.

Definition nullFree (table : Table) : Prop :=
  Forall (Forall (fun cell => cell <> CNull)) table.

Definition nullFreeWorkbook (wb : WorkBook) : Prop :=
  Forall (fun entry : jsstring * Sheet => nullFree (snd entry)) wb.

(** A diagnostic of one row, with or without a header row above it. *)
Definition oneRow (table : Table) : Prop := (length table <= 2)%nat.

(** Workbooks and inputs of the examples. *)
Definition decodedBook : WorkBook := [(js "Data", [[CStr (js "x")]])].
Definition emptyBook : WorkBook := [(js "Sheet1", [])].
Definition gapBook : WorkBook := [(js "Sheet1", [[CStr (js "a"); CNull; CStr (js "b")]])].
Definition quotedLine : jsstring := QUOTE :: js "a,b" ++ QUOTE :: js ",c".
Definition raggedText : jsstring :=
  js "a,b" ++ [NEWLINE] ++ js "1" ++ [NEWLINE] ++ js ",,," ++ [NEWLINE] ++ js "1,2,3".

(** ** Vocabulary of the further properties *)

(** The longest prefix of characters that satisfy [ok], and what follows. *)
Fixpoint takeRun (ok : Z -> bool) (s : jsstring) : jsstring :=
  match s with
  | c :: s' => if ok c then c :: takeRun ok s' else []
  | [] => []
  end.

Fixpoint dropRun (ok : Z -> bool) (s : jsstring) : jsstring :=
  match s with
  | c :: s' => if ok c then dropRun ok s' else s
  | [] => []
  end.

(** The two loops of a quantifier in [rmatch], by name. *)
Section Quantifier.
Variable icase : bool.
Variable r1 : regex.
Variable greedy : bool.
Variable k : mstate -> option mstate.
Variable lo : nat.
Variable hi : option nat.

Fixpoint repMore (fuel : nat) (budget : option nat) (st : mstate) {struct fuel}
  : option mstate :=
  match fuel with
  | O => k st
  | S fuel' =>
    match budget with
    | Some O => k st
    | _ =>
      let iter := fun _ : unit =>
        rmatch icase r1 st (fun st' =>
          if (length (m_rest st') <? length (m_rest st))%nat
          then repMore fuel' (option_map Nat.pred budget) st'
          else None) in
      if greedy
      then match iter tt with Some e => Some e | None => k st end
      else match k st with Some e => Some e | None => iter tt end
    end
  end.

Fixpoint repMust (n : nat) (st : mstate) {struct n} : option mstate :=
  match n with
  | O => repMore (S (length (m_rest st))) (option_map (fun h => (h - lo)%nat) hi) st
  | S n' => rmatch icase r1 st (fun st' => repMust n' st')
  end.
End Quantifier.

(** What replacing every run of at least [lo] characters that satisfy [ok]
    by [repl] gives: [run] holds the characters of the run being read. *)
Definition flushRun (lo : nat) (repl run : jsstring) : jsstring :=
  if (lo <=? length run)%nat && (0 <? length run)%nat then repl else run.

Fixpoint replaceRuns (ok : Z -> bool) (lo : nat) (repl : jsstring)
    (s run : jsstring) : jsstring :=
  match s with
  | [] => flushRun lo repl run
  | c :: s' =>
    if ok c then replaceRuns ok lo repl s' (run ++ [c])
    else flushRun lo repl run ++ c :: replaceRuns ok lo repl s' []
  end.

(** The characters [sanitizeFilename] keeps: [\w], a Hangul syllable, and
    one of [.], [-], [_]. *)
Definition isHangul (c : Z) : bool := (0xAC00 <=? c) && (c <=? 0xD7A3).

Definition filenameChar (c : Z) : bool :=
  isWordChar c || isHangul c || (c =? 46) || (c =? 45) || (c =? 95).

Definition UNDERSCORE : Z := 95.

(** Two adjacent occurrences of [c]. *)
Fixpoint adjacent (c : Z) (s : jsstring) : bool :=
  match s with
  | a :: s' =>
    match s' with
    | b :: _ => ((a =? c) && (b =? c)) || adjacent c s'
    | [] => false
    end
  | [] => false
  end.

(** The characters a normalized header is made of: [\w], a Hangul
    syllable, one of [( ) [ ] { } . , - _], and the space U+0020. *)
Definition SPACE : Z := 32.

Definition headerPunctuation (c : Z) : bool :=
  (c =? 40) || (c =? 41) || (c =? 91) || (c =? 93) || (c =? 123) || (c =? 125)
  || (c =? 46) || (c =? 44) || (c =? 45) || (c =? 95).

Definition headerChar (c : Z) : bool :=
  isWordChar c || isHangul c || headerPunctuation c || (c =? SPACE).

(** [[\x00-\x1F\x7F-\x9F]] *)
Definition isControl (c : Z) : bool :=
  ((0 <=? c) && (c <=? 0x1F)) || ((0x7F <=? c) && (c <=? 0x9F)).

(** The text a header that is not blank normalizes to, before the test for
    the empty string. *)
Definition headerText (trimmed : jsstring) : jsstring :=
  replaceRuns isWhiteSpace 1 [SPACE]
    (trim (filter (fun c => isWordChar c || isWhiteSpace c || isHangul c
                            || headerPunctuation c)
             (filter (fun c => negb (isControl c)) trimmed))) [].

Definition DOT : Z := 46.

(** U+0130, the one character whose lower case has two code units. *)
Definition DOTTED_I : Z := 0x0130.

(** The characters of the stem of a download name: [\w], a Hangul
    syllable, or a hyphen. *)
Definition downloadChar (c : Z) : bool := isWordChar c || isHangul c || (c =? 45).

(** The header row of a first line and the row of another line. *)
Definition headerRow (cells : list jsstring) : Row :=
  map (fun cell => CStr (headerCell cells cell)) cells.

Definition dataRow (delimiter : jsstring) (line : jsstring) : Row :=
  map normalizeCell (parseCSVLine line delimiter).

(** The position of the first empty string of a list. *)
Fixpoint firstEmpty (cells : list jsstring) : option nat :=
  match cells with
  | [] => None
  | [] :: _ => Some 0%nat
  | _ :: cells' => option_map S (firstEmpty cells')
  end.

(** [sanitizeFilename(sheetName).substring(0, 31)] and the sheets the
    normalizer appends. *)
Definition safeSheetName (sheetName : jsstring) : jsstring :=
  substring 0 31 (sanitizeFilename sheetName).

Definition normalizedSheets (E : Collaborators) (workbook : WorkBook) : WorkBook :=
  map (fun entry : jsstring * Sheet =>
         (safeSheetName (fst entry),
          map (map normalizeJsonCell)
            (XLSX_sheet_to_json E (snd entry)
               [prop "header" (ONum 1); prop "defval" ONull; prop "raw" (OBool false)])))
    workbook.

(** Two sheets whose names differ by a space. *)
Definition twinBook : WorkBook := [(js "a b", [[CStr (js "x")]]); (js "a_b", [[CStr (js "y")]])].

(** A table of strings whose rows all have [width] cells. *)
Definition rectangular (width : nat) (rows : list (list jsstring)) : Prop :=
  Forall (fun row => length row = width) rows.

(** The state of the loop over the candidates after the candidates [seen]:
    either no candidate has split a line yet, or the pair holds the first
    of the candidates with the highest score. *)
Definition firstBest (lines : list jsstring) (seen : list Z) (st : Z * number) : Prop :=
  (st = (COMMA, zero) /\ forall c, In c seen -> columnCounts c lines = [])
  \/ (exists pre post,
         seen = pre ++ fst st :: post /\
         snd st = candidateScore lines (fst st) /\
         columnCounts (fst st) lines <> [] /\
         (forall c, In c pre -> flt (candidateScore lines c) (snd st) = true) /\
         (forall c, In c post -> flt (snd st) (candidateScore lines c) = false)).

(** A field as it is written on a line: text outside quotes, regions
    between two quote characters [q] in which a [q] of the text is written
    twice, and a region that is opened and runs to the end of the line. *)
Inductive piece :=
| Plain (s : jsstring)
| Quoted (q : Z) (s : jsstring)
| Unclosed (q : Z) (s : jsstring).

Definition escape (q : Z) (s : jsstring) : jsstring :=
  flat_map (fun c => if c =? q then [q; q] else [c]) s.

Definition writtenPiece (p : piece) : jsstring :=
  match p with
  | Plain s => s
  | Quoted q s => q :: escape q s ++ [q]
  | Unclosed q s => q :: escape q s
  end.

Definition pieceText (p : piece) : jsstring :=
  match p with
  | Plain s => s
  | Quoted _ s => s
  | Unclosed _ s => s
  end.

Definition writtenField (field : list piece) : jsstring := flat_map writtenPiece field.
Definition fieldText (field : list piece) : jsstring := flat_map pieceText field.

(** The fields of a line, written with the delimiter [d] between them. *)
Fixpoint writtenLine (d : Z) (fields : list (list piece)) : jsstring :=
  match fields with
  | [] => []
  | field :: fields' =>
    match fields' with
    | [] => writtenField field
    | _ => writtenField field ++ d :: writtenLine d fields'
    end
  end.

Definition isQuoteChar (c : Z) : bool := (c =? QUOTE) || (c =? APOSTROPHE).

(** The text outside quotes holds no quote character and no delimiter; a
    region is opened by a quote character, and what follows its closing
    quote in the field is not the same quote character (that would be a
    doubled quote); a region that is not closed ends the last field. *)
Fixpoint wellQuoted (d : Z) (final : bool) (field : list piece) : bool :=
  match field with
  | [] => true
  | Plain s :: field' =>
    forallb (fun c => negb (isQuoteChar c) && negb (c =? d)) s
    && wellQuoted d final field'
  | Quoted q _ :: field' =>
    isQuoteChar q
    && negb (match writtenField field' with c :: _ => c =? q | [] => false end)
    && wellQuoted d final field'
  | Unclosed q _ :: field' =>
    final && isQuoteChar q && match field' with [] => true | _ => false end
  end.

Fixpoint wellQuotedLine (d : Z) (fields : list (list piece)) : bool :=
  match fields with
  | [] => false
  | field :: fields' =>
    match fields' with
    | [] => wellQuoted d true field
    | _ => wellQuoted d false field && wellQuotedLine d fields'
    end
  end.

(** A line with a doubled quote in its second field, and its fields. *)
Definition escapedLine : jsstring :=
  js "a," ++ QUOTE :: js "b" ++ QUOTE :: QUOTE :: js "c" ++ [QUOTE].
Definition escapedFields : list (list piece) :=
  [[Plain (js "a")]; [Quoted QUOTE (js "b" ++ QUOTE :: js "c")]].

(** A text whose header has two empty tokens and is shorter than its data
    row. *)
Definition gapHeaderText : jsstring := js "a,,b," ++ [NEWLINE] ++ js "1,2,3,4,5,6".

(* ================================================================== *)
(** * Part III: the properties                                          *)
(* ================================================================== *)

(** ** Trimming *)

Lemma trimStart_split (s : jsstring) :
  exists ws, s = ws ++ trimStart s /\ forallb isWhiteSpace ws = true.
Proof.
  induction s as [|c s IH]; simpl.
  - exists []. auto.
  - destruct (isWhiteSpace c) eqn:Hc.
    + destruct IH as [ws [H1 H2]]. exists (c :: ws). simpl.
      rewrite Hc, H2. split; [now f_equal|reflexivity].
    + exists []. auto.
Qed.

Lemma trimStart_clean (s : jsstring) : startsClean (trimStart s).
Proof.
  induction s as [|c s IH]; simpl; auto.
  destruct (isWhiteSpace c) eqn:Hc; simpl; auto.
Qed.

Lemma trimStart_id (s : jsstring) : startsClean s -> trimStart s = s.
Proof. destruct s as [|c s]; simpl; auto. intros ->. reflexivity. Qed.

Lemma trimEnd_id (s : jsstring) : endsClean s -> trimEnd s = s.
Proof.
  unfold endsClean, trimEnd. intros H. rewrite trimStart_id by exact H.
  apply rev_involutive.
Qed.

Lemma trimEnd_clean (s : jsstring) : endsClean (trimEnd s).
Proof.
  unfold endsClean, trimEnd. rewrite rev_involutive. apply trimStart_clean.
Qed.

Lemma trimEnd_split (s : jsstring) :
  exists ws, s = trimEnd s ++ ws /\ forallb isWhiteSpace ws = true.
Proof.
  destruct (trimStart_split (rev s)) as [ws [H1 H2]].
  exists (rev ws). split.
  - unfold trimEnd. rewrite <- rev_app_distr, <- H1. symmetry. apply rev_involutive.
  - rewrite forallb_forall in *. intros x Hx. apply H2. now apply in_rev.
Qed.

Lemma trimEnd_keeps_start (s : jsstring) : startsClean s -> startsClean (trimEnd s).
Proof.
  intros Hs. destruct (trimEnd_split s) as [ws [H1 _]].
  destruct (trimEnd s) as [|c t] eqn:Ht; simpl; auto.
  rewrite H1 in Hs. exact Hs.
Qed.

Lemma trim_clean (s : jsstring) : startsClean (trim s) /\ endsClean (trim s).
Proof.
  unfold trim. split.
  - apply trimEnd_keeps_start, trimStart_clean.
  - apply trimEnd_clean.
Qed.

Lemma trim_id (s : jsstring) : startsClean s -> endsClean s -> trim s = s.
Proof.
  intros H1 H2. unfold trim. rewrite trimStart_id by exact H1. now apply trimEnd_id.
Qed.

Lemma trim_idempotent (s : jsstring) : trim (trim s) = trim s.
Proof. destruct (trim_clean s). now apply trim_id. Qed.

(** ** The line tokenizer *)

Lemma isQuote_not_space (q : Z) : isQuote q -> isWhiteSpace q = false.
Proof. intros [-> | ->]; reflexivity. Qed.

Lemma str_eqb_refl (s : jsstring) : str_eqb s s = true.
Proof. unfold str_eqb. destruct (list_eq_dec Z.eq_dec s s); congruence. Qed.

Lemma str_eqb_single (a b : Z) : str_eqb [a] [b] = (a =? b).
Proof.
  unfold str_eqb. destruct (list_eq_dec Z.eq_dec [a] [b]) as [H|H];
    destruct (Z.eqb_spec a b); congruence.
Qed.

(** Inside a quoted region every character other than the quote character
    is taken as it is, the delimiter included. *)
Lemma scanLine_quoted (d : jsstring) (q : Z) (s rest cur : jsstring)
    (res : list jsstring) :
  ~ In q s ->
  scanLine d (s ++ rest) cur true [q] res = scanLine d rest (cur ++ s) true [q] res.
Proof.
  revert cur. induction s as [|c s IH]; intros cur Hq; simpl.
  - now rewrite app_nil_r.
  - rewrite str_eqb_single. destruct (Z.eqb_spec c q) as [->|Hc].
    + exfalso. apply Hq. now left.
    + rewrite IH.
      * now rewrite <- app_assoc.
      * intros H. apply Hq. now right.
Qed.

(** A doubled quote character inside the region is one literal quote. *)
Lemma scanLine_escaped (d : jsstring) (q : Z) (rest cur : jsstring)
    (res : list jsstring) :
  scanLine d (q :: q :: rest) cur true [q] res
  = scanLine d rest (cur ++ [q]) true [q] res.
Proof. simpl. now rewrite !str_eqb_refl. Qed.

(** The quote character at the end of the line closes the region. *)
Lemma scanLine_closing (d : jsstring) (q : Z) (cur : jsstring) (res : list jsstring) :
  scanLine d [q] cur true [q] res = res ++ [trim cur].
Proof. simpl. now rewrite str_eqb_refl. Qed.

Lemma scanLine_opening (d : jsstring) (q : Z) (rest cur qc : jsstring)
    (res : list jsstring) :
  isQuote q ->
  scanLine d (q :: rest) cur false qc res = scanLine d rest cur true [q] res.
Proof. intros [-> | ->]; reflexivity. Qed.

(** A whole region in the middle of a line: opened outside quotes, closed by
    a quote character that is not doubled. *)
Lemma scanLine_region (d : jsstring) (q c : Z) (s rest cur qc : jsstring)
    (res : list jsstring) :
  isQuote q -> ~ In q s -> c <> q ->
  scanLine d (q :: s ++ q :: c :: rest) cur false qc res
  = scanLine d (c :: rest) (cur ++ s) false [] res.
Proof.
  intros Hq Hs Hc. rewrite scanLine_opening by exact Hq.
  rewrite scanLine_quoted by exact Hs.
  cbn [scanLine negb]. rewrite str_eqb_refl, str_eqb_single.
  destruct (Z.eqb_spec c q) as [->|_]; [contradiction|reflexivity].
Qed.

Lemma trim_quoted_line (q : Z) (s : jsstring) :
  isQuote q -> trim (q :: s ++ [q]) = q :: s ++ [q].
Proof.
  intros Hq. apply trim_id.
  - simpl. now apply isQuote_not_space.
  - unfold endsClean. change (q :: s ++ [q]) with ((q :: s) ++ [q]).
    rewrite rev_app_distr. simpl. now apply isQuote_not_space.
Qed.

Lemma map_orEmpty (l : list jsstring) : map orEmpty l = l.
Proof.
  induction l as [|cell l IH]; simpl; [reflexivity|].
  rewrite IH. now destruct cell.
Qed.

Lemma scanLine_trimmed (d line cur : jsstring) (inQ : bool) (qc : jsstring)
    (res : list jsstring) :
  Forall (fun f => trim f = f) res ->
  Forall (fun f => trim f = f) (scanLine d line cur inQ qc res).
Proof.
  assert (Hpush : forall r c, Forall (fun f => trim f = f) r ->
                              Forall (fun f => trim f = f) (r ++ [trim c])).
  { intros r c Hr. apply Forall_app. split; [exact Hr|].
    constructor; [apply trim_idempotent|constructor]. }
  remember (length line) as n eqn:Hn. revert line Hn cur inQ qc res.
  induction n as [n IHn] using lt_wf_ind.
  assert (IH : forall l, (length l < n)%nat -> forall cur inQ qc res,
               Forall (fun f => trim f = f) res ->
               Forall (fun f => trim f = f) (scanLine d l cur inQ qc res)).
  { intros l Hl. now apply (IHn (length l)). }
  clear IHn. intros line -> cur inQ qc res Hres.
  destruct line as [|c rest]; simpl in *.
  - now apply Hpush.
  - destruct inQ; simpl.
    + destruct (str_eqb [c] qc).
      * destruct rest as [|n rest'].
        -- simpl. now apply Hpush.
        -- destruct (str_eqb [n] qc).
           ++ apply IH; [simpl; lia|exact Hres].
           ++ apply IH; [simpl; lia|exact Hres].
      * apply IH; [simpl; lia|exact Hres].
    + destruct ((c =? QUOTE) || (c =? APOSTROPHE)).
      * apply IH; [simpl; lia|exact Hres].
      * destruct (str_eqb [c] d).
        -- apply IH; [simpl; lia|now apply Hpush].
        -- apply IH; [simpl; lia|exact Hres].
Qed.

Lemma scanLine_nonempty (d line cur : jsstring) (inQ : bool) (qc : jsstring)
    (res : list jsstring) :
  scanLine d line cur inQ qc res <> [].
Proof.
  remember (length line) as n eqn:Hn. revert line Hn cur inQ qc res.
  induction n as [n IHn] using lt_wf_ind.
  assert (IH : forall l, (length l < n)%nat -> forall cur inQ qc res,
               scanLine d l cur inQ qc res <> []).
  { intros l Hl. now apply (IHn (length l)). }
  clear IHn. intros line -> cur inQ qc res.
  destruct line as [|c rest]; simpl in *.
  - destruct res; discriminate.
  - destruct inQ; simpl.
    + destruct (str_eqb [c] qc).
      * destruct rest as [|n rest'].
        -- simpl. destruct res; discriminate.
        -- destruct (str_eqb [n] qc); apply IH; simpl; lia.
      * apply IH; simpl; lia.
    + destruct ((c =? QUOTE) || (c =? APOSTROPHE)); [apply IH; simpl; lia|].
      destruct (str_eqb [c] d); apply IH; simpl; lia.
Qed.

(** Outside quotes the remembered quote character is not looked at. *)
Lemma scanLine_outside (d line cur qc qc' : jsstring) (res : list jsstring) :
  scanLine d line cur false qc res = scanLine d line cur false qc' res.
Proof.
  revert cur res. induction line as [|c rest IH]; intros cur res; [reflexivity|].
  cbn [scanLine negb].
  destruct ((c =? QUOTE) || (c =? APOSTROPHE)); [reflexivity|].
  destruct (str_eqb [c] d); apply IH.
Qed.

(** Text outside quotes goes into the current field. *)
Lemma scanLine_plain_text (d : Z) (s rest cur qc : jsstring) (res : list jsstring) :
  forallb (fun c => negb (isQuoteChar c) && negb (c =? d)) s = true ->
  scanLine [d] (s ++ rest) cur false qc res = scanLine [d] rest (cur ++ s) false qc res.
Proof.
  revert cur. induction s as [|c s IH]; intros cur H.
  - now rewrite app_nil_r.
  - cbn [forallb] in H. apply andb_true_iff in H. destruct H as [Hc Hs].
    apply andb_true_iff in Hc. destruct Hc as [Hq Hd].
    apply negb_true_iff in Hq. apply negb_true_iff in Hd.
    cbn [app scanLine negb]. unfold isQuoteChar in Hq. rewrite Hq.
    rewrite str_eqb_single, Hd. rewrite IH by exact Hs.
    now rewrite <- app_assoc.
Qed.

(** Inside a region every character of the text is taken, the delimiter
    included, and a doubled quote character is one quote character. *)
Lemma scanLine_inside (d : jsstring) (q : Z) (s rest cur : jsstring)
    (res : list jsstring) :
  scanLine d (escape q s ++ rest) cur true [q] res
  = scanLine d rest (cur ++ s) true [q] res.
Proof.
  revert cur. induction s as [|c s IH]; intros cur.
  - now rewrite app_nil_r.
  - unfold escape. cbn [flat_map]. fold (escape q s).
    destruct (Z.eqb_spec c q) as [->|Hc].
    + cbn [app]. rewrite scanLine_escaped, IH. now rewrite <- app_assoc.
    + cbn [app scanLine negb]. rewrite str_eqb_single.
      replace (c =? q) with false by (symmetry; now apply Z.eqb_neq).
      rewrite IH. now rewrite <- app_assoc.
Qed.

(** A quote character that is not doubled closes the region. *)
Lemma scanLine_close (d : jsstring) (q : Z) (rest cur : jsstring)
    (res : list jsstring) :
  hd_error rest <> Some q ->
  scanLine d (q :: rest) cur true [q] res = scanLine d rest cur false [] res.
Proof.
  intros H. cbn [scanLine negb]. rewrite str_eqb_refl.
  destruct rest as [|c rest]; [reflexivity|].
  rewrite str_eqb_single. destruct (Z.eqb_spec c q) as [->|_]; [|reflexivity].
  exfalso. now apply H.
Qed.

Lemma scanLine_escaped_region (d : jsstring) (q : Z) (s rest cur qc : jsstring)
    (res : list jsstring) :
  isQuote q -> hd_error rest <> Some q ->
  scanLine d (q :: escape q s ++ q :: rest) cur false qc res
  = scanLine d rest (cur ++ s) false [] res.
Proof.
  intros Hq Hrest. rewrite scanLine_opening by exact Hq.
  rewrite scanLine_inside. now apply scanLine_close.
Qed.

Lemma scanLine_unclosed (d : jsstring) (q : Z) (s cur qc : jsstring)
    (res : list jsstring) :
  isQuote q ->
  scanLine d (q :: escape q s) cur false qc res = res ++ [trim (cur ++ s)].
Proof.
  intros Hq. rewrite scanLine_opening by exact Hq.
  rewrite <- (app_nil_r (escape q s)). rewrite scanLine_inside. reflexivity.
Qed.

Lemma isQuoteChar_isQuote (q : Z) : isQuoteChar q = true <-> isQuote q.
Proof.
  unfold isQuoteChar, isQuote. rewrite orb_true_iff, !Z.eqb_eq. reflexivity.
Qed.

(** A field that is well quoted, followed by the end of the line or by a
    character that is not a quote: its text goes into the current field. *)
Lemma scanLine_field (d : Z) (final : bool) (field : list piece)
    (rest cur qc : jsstring) (res : list jsstring) :
  wellQuoted d final field = true ->
  (final = true -> rest = []) ->
  match rest with c :: _ => isQuoteChar c = false | [] => True end ->
  scanLine [d] (writtenField field ++ rest) cur false qc res
  = scanLine [d] rest (cur ++ fieldText field) false [] res.
Proof.
  intros Hw Hfinal Hrest. revert cur qc Hw.
  induction field as [|p field IH]; intros cur qc Hw.
  - cbn. rewrite app_nil_r. apply scanLine_outside.
  - unfold writtenField, fieldText. cbn [flat_map].
    fold (writtenField field). fold (fieldText field).
    rewrite <- !app_assoc. destruct p as [s|q s|q s]; cbn [wellQuoted] in Hw.
    + apply andb_true_iff in Hw. destruct Hw as [Hs Hw].
      cbn [writtenPiece pieceText]. rewrite scanLine_plain_text by exact Hs.
      rewrite (IH _ _ Hw). now rewrite <- app_assoc.
    + apply andb_true_iff in Hw. destruct Hw as [Hq Hw].
      apply andb_true_iff in Hq. destruct Hq as [Hq Hnext].
      apply negb_true_iff in Hnext.
      cbn [writtenPiece pieceText]. cbn [app]. rewrite <- app_assoc. cbn [app].
      rewrite scanLine_escaped_region.
      * rewrite (IH _ _ Hw). now rewrite <- app_assoc.
      * now apply isQuoteChar_isQuote.
      * destruct (writtenField field) as [|c w].
        -- cbn [app]. destruct rest as [|c rest]; [discriminate|].
           cbn. intros H. injection H as ->. congruence.
        -- cbn. intros H. injection H as ->. rewrite Z.eqb_refl in Hnext. discriminate.
    + apply andb_true_iff in Hw. destruct Hw as [Hq Hlast].
      apply andb_true_iff in Hq. destruct Hq as [Hf Hq].
      destruct field; [|discriminate].
      rewrite (Hfinal Hf). cbn [writtenPiece pieceText writtenField fieldText flat_map].
      rewrite !app_nil_r. cbn [app].
      rewrite scanLine_unclosed by now apply isQuoteChar_isQuote.
      reflexivity.
Qed.

Lemma wellQuotedLine_cons (d : Z) (field next : list piece) (fields : list (list piece)) :
  wellQuotedLine d (field :: next :: fields)
  = wellQuoted d false field && wellQuotedLine d (next :: fields).
Proof. reflexivity. Qed.

Lemma writtenLine_cons (d : Z) (field next : list piece) (fields : list (list piece)) :
  writtenLine d (field :: next :: fields)
  = writtenField field ++ d :: writtenLine d (next :: fields).
Proof. reflexivity. Qed.

Lemma scanLine_fields (d : Z) (fields : list (list piece)) (qc : jsstring)
    (res : list jsstring) :
  isQuoteChar d = false ->
  wellQuotedLine d fields = true ->
  scanLine [d] (writtenLine d fields) [] false qc res
  = res ++ map (fun field => trim (fieldText field)) fields.
Proof.
  intros Hd. revert qc res.
  induction fields as [|field fields IH]; intros qc res Hw; [discriminate|].
  destruct fields as [|next fields].
  - cbn [wellQuotedLine] in Hw.
    pose proof (scanLine_field d true field [] [] qc res Hw (fun _ => eq_refl) I) as H.
    rewrite app_nil_r in H. cbn [writtenLine]. rewrite H. reflexivity.
  - rewrite wellQuotedLine_cons in Hw. apply andb_true_iff in Hw.
    destruct Hw as [Hf Hw]. rewrite writtenLine_cons.
    rewrite (scanLine_field d false field (d :: writtenLine d (next :: fields)) [] qc res Hf);
      [|discriminate|exact Hd].
    cbn [scanLine negb app]. fold (isQuoteChar d). rewrite Hd.
    rewrite str_eqb_refl. rewrite (IH [] _ Hw).
    cbn [map]. now rewrite <- app_assoc.
Qed.

(** Every string, read after an opening quote [q], is a text in which [q]
    is doubled, either to the end or up to a [q] that is not doubled. *)
Lemma escape_reading (q : Z) (rest : jsstring) :
  (exists s, rest = escape q s)
  \/ (exists s rest', rest = escape q s ++ q :: rest' /\ hd_error rest' <> Some q
                     /\ (length rest' < length rest)%nat).
Proof.
  remember (length rest) as n eqn:Hn. revert rest Hn.
  induction n as [n IH] using lt_wf_ind. intros rest ->.
  destruct rest as [|c rest]; [left; now exists []|].
  destruct (Z.eqb_spec c q) as [->|Hc].
  - destruct rest as [|c' rest].
    + right. exists [], []. cbn. split; [reflexivity|]. split; [discriminate|lia].
    + destruct (Z.eqb_spec c' q) as [->|Hc'].
      * destruct (IH (length rest)) with (rest := rest)
          as [[s Hs] | [s [rest' [Hs [Hh Hl]]]]]; [cbn; lia|reflexivity| |].
        -- left. exists (q :: s). unfold escape. cbn [flat_map]. rewrite Z.eqb_refl.
           cbn [app]. fold (escape q s). now rewrite Hs.
        -- right. exists (q :: s), rest'. unfold escape. cbn [flat_map].
           rewrite Z.eqb_refl. cbn [app]. fold (escape q s).
           split; [now rewrite Hs|]. split; [exact Hh|cbn; lia].
      * right. exists [], (c' :: rest). cbn. split; [reflexivity|].
        split; [intros H; injection H as ->; congruence|lia].
  - destruct (IH (length rest)) with (rest := rest)
      as [[s Hs] | [s [rest' [Hs [Hh Hl]]]]]; [cbn; lia|reflexivity| |].
    + left. exists (c :: s). unfold escape. cbn [flat_map].
      replace (c =? q) with false by (symmetry; now apply Z.eqb_neq).
      cbn [app]. fold (escape q s). now rewrite Hs.
    + right. exists (c :: s), rest'. unfold escape. cbn [flat_map].
      replace (c =? q) with false by (symmetry; now apply Z.eqb_neq).
      cbn [app]. fold (escape q s).
      split; [now rewrite Hs|]. split; [exact Hh|cbn; lia].
Qed.

(** Every line is the written form of fields that are well quoted. *)
Lemma line_reading (d : Z) (line : jsstring) :
  isQuoteChar d = false ->
  exists field fields,
    wellQuotedLine d (field :: fields) = true /\ writtenLine d (field :: fields) = line.
Proof.
  intros Hd. remember (length line) as n eqn:Hn. revert line Hn.
  induction n as [n IH] using lt_wf_ind. intros line ->.
  destruct line as [|c line]; [now exists [], []|].
  destruct (isQuoteChar c) eqn:Hq.
  - destruct (escape_reading c line) as [[s ->] | [s [rest [-> [Hh Hl]]]]].
    + exists [Unclosed c s], []. cbn. rewrite Hq, app_nil_r. now split.
    + destruct (IH (length rest)) with (line := rest) as [field [fields [Hw Hl']]];
        [cbn; rewrite length_app; cbn; lia|reflexivity|].
      exists (Quoted c s :: field), fields.
      assert (Hnext : (match writtenField field with x :: _ => x =? c | [] => false end)
                      = false).
      { destruct (writtenField field) as [|x w] eqn:Ew; [reflexivity|].
        apply Z.eqb_neq. intros ->. apply Hh. rewrite <- Hl'.
        destruct fields; cbn [writtenLine]; rewrite Ew; reflexivity. }
      destruct fields as [|next fields].
      * cbn [wellQuotedLine wellQuoted writtenLine] in *. rewrite Hq, Hnext, Hw.
        split; [reflexivity|]. unfold writtenField in *. cbn [flat_map writtenPiece].
        rewrite <- Hl'. cbn [app]. now rewrite <- app_assoc.
      * rewrite wellQuotedLine_cons in *. rewrite writtenLine_cons in *.
        apply andb_true_iff in Hw. destruct Hw as [Hf Hw].
        cbn [wellQuoted]. rewrite Hq, Hnext, Hf, Hw. split; [reflexivity|].
        unfold writtenField in *. cbn [flat_map writtenPiece].
        rewrite <- Hl'. cbn [app]. now rewrite <- !app_assoc.
  - destruct (IH (length line)) with (line := line) as [field [fields [Hw Hl]]];
      [cbn; lia|reflexivity|].
    destruct (Z.eqb_spec c d) as [->|Hc].
    + exists [], (field :: fields). rewrite wellQuotedLine_cons, writtenLine_cons.
      rewrite Hw, Hl. now split.
    + exists (Plain [c] :: field), fields.
      assert (Hp : forallb (fun x => negb (isQuoteChar x) && negb (x =? d)) [c] = true).
      { cbn. rewrite Hq. replace (c =? d) with false by (symmetry; now apply Z.eqb_neq).
        reflexivity. }
      destruct fields as [|next fields].
      * cbn [wellQuotedLine wellQuoted writtenLine] in *. rewrite Hp, Hw.
        split; [reflexivity|]. now rewrite <- Hl.
      * rewrite wellQuotedLine_cons in *. rewrite writtenLine_cons in *.
        apply andb_true_iff in Hw. destruct Hw as [Hf Hw].
        cbn [wellQuoted]. rewrite Hp, Hf, Hw. split; [reflexivity|]. now rewrite <- Hl.
Qed.

(** The delimiter acts only through the characters outside quotes that are
    equal to it. *)
Lemma scanLine_delimiter (d d' line cur : jsstring) (inQ : bool) (qc : jsstring)
    (res : list jsstring) :
  (forall c, In c line -> isQuoteChar c = false -> str_eqb [c] d = str_eqb [c] d') ->
  scanLine d line cur inQ qc res = scanLine d' line cur inQ qc res.
Proof.
  remember (length line) as n eqn:Hn. revert line Hn cur inQ qc res.
  induction n as [n IHn] using lt_wf_ind.
  assert (IH : forall l, (length l < n)%nat -> forall cur inQ qc res,
               (forall c, In c l -> isQuoteChar c = false
                          -> str_eqb [c] d = str_eqb [c] d') ->
               scanLine d l cur inQ qc res = scanLine d' l cur inQ qc res).
  { intros l Hl. now apply (IHn (length l)). }
  clear IHn. intros line -> cur inQ qc res Hd.
  destruct line as [|c rest]; [reflexivity|].
  assert (Hrest : forall x, In x rest -> isQuoteChar x = false
                            -> str_eqb [x] d = str_eqb [x] d').
  { intros x Hx. apply Hd. now right. }
  cbn [scanLine]. destruct inQ; cbn [negb].
  - destruct (str_eqb [c] qc).
    + destruct rest as [|next rest']; [reflexivity|].
      destruct (str_eqb [next] qc).
      * apply IH; [cbn; lia|]. intros x Hx. apply Hrest. now right.
      * apply IH; [cbn; lia|exact Hrest].
    + apply IH; [cbn; lia|exact Hrest].
  - destruct ((c =? QUOTE) || (c =? APOSTROPHE)) eqn:Hq.
    + apply IH; [cbn; lia|exact Hrest].
    + rewrite <- (Hd c (or_introl eq_refl) Hq).
      destruct (str_eqb [c] d); apply IH; try (cbn; lia); exact Hrest.
Qed.

(** C8 (confirmed).  The tokenizer returns for every line and every
    delimiter: a list of at least one field, each field trimmed.  A region
    opened by a quote character (double or single) runs to the next quote
    character that is not doubled: what is inside, delimiters included, goes
    into the current field as it is and no field is emitted; every doubled
    quote character inside the region is one literal quote, wherever the
    region stands on the line; a region that is never closed runs to the
    end of the line.  So, for a delimiter that is not a quote character,
    every line is the written form of fields made of text outside quotes
    and of regions, and the tokenizer returns the trimmed texts of these
    fields.  A delimiter acts only through the characters outside quotes
    that are equal to it: one that is a quote character, or no single
    character, splits nothing.  On the line ["a,b",c] with the delimiter [,] the fields are
    [a,b] and [c]; on [escapedLine], whose second field holds a doubled
    quote, they are [a] and [b], one quote character, [c]. *)
Theorem parseCSVLine_honors_quoting :
  (forall line delimiter,
      parseCSVLine line delimiter <> [] /\
      Forall (fun field => trim field = field) (parseCSVLine line delimiter)) /\
  (forall delimiter q c s rest current quoteChar result,
      isQuote q -> ~ In q s -> c <> q ->
      scanLine delimiter (q :: s ++ q :: c :: rest) current false quoteChar result
      = scanLine delimiter (c :: rest) (current ++ s) false [] result) /\
  (forall q delimiter s,
      isQuote q -> ~ In q s ->
      parseCSVLine ([q] ++ s ++ [q]) delimiter = [trim s]) /\
  (forall q delimiter s1 s2,
      isQuote q -> ~ In q s1 -> ~ In q s2 ->
      parseCSVLine ([q] ++ s1 ++ [q; q] ++ s2 ++ [q]) delimiter
      = [trim (s1 ++ [q] ++ s2)]) /\
  (forall delimiter q s rest current quoteChar result,
      isQuote q -> hd_error rest <> Some q ->
      scanLine delimiter (q :: escape q s ++ q :: rest) current false quoteChar result
      = scanLine delimiter rest (current ++ s) false [] result) /\
  (forall delimiter q s current quoteChar result,
      isQuote q ->
      scanLine delimiter (q :: escape q s) current false quoteChar result
      = result ++ [trim (current ++ s)]) /\
  (forall d line fields,
      isQuoteChar d = false ->
      wellQuotedLine d fields = true ->
      trim line = writtenLine d fields ->
      parseCSVLine line [d] = map (fun field => trim (fieldText field)) fields) /\
  (forall d line,
      isQuoteChar d = false ->
      exists fields,
        wellQuotedLine d fields = true /\ trim line = writtenLine d fields) /\
  (forall line delimiter delimiter',
      (forall c, In c (trim line) -> isQuoteChar c = false ->
                 str_eqb [c] delimiter = str_eqb [c] delimiter') ->
      parseCSVLine line delimiter = parseCSVLine line delimiter') /\
  parseCSVLine quotedLine (js ",") = [js "a,b"; js "c"] /\
  parseCSVLine escapedLine (js ",") = [js "a"; js "b" ++ QUOTE :: js "c"].
Proof.
  split; [|split; [|split; [|split; [|split; [|split; [|split; [|split; [|split;
    [|split]]]]]]]]].
  - intros line d. unfold parseCSVLine. rewrite map_orEmpty. split.
    + apply scanLine_nonempty.
    + apply scanLine_trimmed. constructor.
  - intros d q c s rest cur qc res. apply scanLine_region.
  - intros q d s Hq Hs. unfold parseCSVLine. rewrite map_orEmpty.
    simpl app at 1. rewrite trim_quoted_line by exact Hq.
    rewrite scanLine_opening by exact Hq.
    rewrite scanLine_quoted by exact Hs.
    now rewrite scanLine_closing.
  - intros q d s1 s2 Hq H1 H2. unfold parseCSVLine. rewrite map_orEmpty.
    replace ([q] ++ s1 ++ [q; q] ++ s2 ++ [q]) with (q :: (s1 ++ [q; q] ++ s2) ++ [q])
      by (simpl; rewrite <- !app_assoc; reflexivity).
    rewrite trim_quoted_line by exact Hq.
    rewrite scanLine_opening by exact Hq.
    rewrite <- !app_assoc.
    rewrite scanLine_quoted by exact H1.
    simpl app at 1. rewrite scanLine_escaped.
    rewrite scanLine_quoted by exact H2.
    rewrite scanLine_closing. simpl. now rewrite <- !app_assoc.
  - intros d q s rest cur qc res. apply scanLine_escaped_region.
  - intros d q s cur qc res. apply scanLine_unclosed.
  - intros d line fields Hd Hw Hline. unfold parseCSVLine.
    rewrite map_orEmpty, Hline. now rewrite scanLine_fields.
  - intros d line Hd. destruct (line_reading d (trim line) Hd) as [field [fields [Hw Hl]]].
    exists (field :: fields). now split.
  - intros line d d' Hd. unfold parseCSVLine. f_equal.
    now apply scanLine_delimiter.
  - vm_compute. reflexivity.
  - vm_compute. reflexivity.
Qed.

(** A delimiter and a doubled quote inside single quotes; a doubled quote
    in the second field of a line. *)
Lemma parseCSVLine_honors_quoting_witness :
  parseCSVLine ([APOSTROPHE] ++ js "x;y" ++ [APOSTROPHE; APOSTROPHE] ++ js "z"
                ++ [APOSTROPHE]) (js ";")
  = [trim (js "x;y" ++ [APOSTROPHE] ++ js "z")]
  /\ parseCSVLine escapedLine (js ",")
     = map (fun field => trim (fieldText field)) escapedFields.
Proof.
  split.
  - apply (proj1 (proj2 (proj2 (proj2 parseCSVLine_honors_quoting)))).
    + right. reflexivity.
    + vm_compute. intuition discriminate.
    + vm_compute. intuition discriminate.
  - apply (proj1 (proj2 (proj2 (proj2 (proj2 (proj2 (proj2
             parseCSVLine_honors_quoting))))))).
    + reflexivity.
    + vm_compute. reflexivity.
    + vm_compute. reflexivity.
Defined.

(** ** The order of the numbers *)

Lemma SFltb_trans (a b c : number) :
  SFltb a b = true -> SFltb b c = true -> SFltb a c = true.
Proof.
  unfold SFltb, SFcompare.
  destruct a as [sa|sa| |sa ma ea], b as [sb|sb| |sb mb eb], c as [sc|sc| |sc mc ec];
    try discriminate; try (destruct sa, sb, sc; simpl; congruence);
    try (destruct sa, sb; simpl; congruence);
    try (destruct sa, sc; simpl; congruence);
    try (destruct sb, sc; simpl; congruence).
  change (Pos.compare_cont Eq ma mb) with (Pos.compare ma mb).
  change (Pos.compare_cont Eq mb mc) with (Pos.compare mb mc).
  change (Pos.compare_cont Eq ma mc) with (Pos.compare ma mc).
  destruct sa, sb, sc; try discriminate; try reflexivity;
    destruct (Z.compare_spec ea eb), (Z.compare_spec eb ec), (Z.compare_spec ea ec);
    try discriminate; try lia; try reflexivity; subst;
    destruct (Pos.compare_spec ma mb), (Pos.compare_spec mb mc), (Pos.compare_spec ma mc);
    simpl; try discriminate; try lia; try reflexivity.
Qed.

Lemma SFltb_asym (a b : number) : SFltb a b = true -> SFltb b a = false.
Proof.
  unfold SFltb, SFcompare.
  destruct a as [sa|sa| |sa ma ea], b as [sb|sb| |sb mb eb];
    try discriminate; try reflexivity;
    try (destruct sa, sb; simpl; congruence);
    try (destruct sa; simpl; congruence);
    try (destruct sb; simpl; congruence).
  change (Pos.compare_cont Eq ma mb) with (Pos.compare ma mb).
  change (Pos.compare_cont Eq mb ma) with (Pos.compare mb ma).
  destruct sa, sb; try discriminate; try reflexivity;
    destruct (Z.compare_spec ea eb), (Z.compare_spec eb ea);
    try discriminate; try lia; try reflexivity; subst;
    destruct (Pos.compare_spec ma mb), (Pos.compare_spec mb ma);
    simpl; try discriminate; try lia; try reflexivity.
Qed.

Lemma flt_above (a b c : number) :
  flt a b = true -> flt a c = false -> flt b c = false.
Proof.
  unfold flt. intros Hab Hac. destruct (SFltb b c) eqn:Hbc; [|reflexivity].
  rewrite (SFltb_trans _ _ _ Hab Hbc) in Hac. discriminate.
Qed.

(** ** Lower bounds on rounded numbers

    Rounding to binary64 keeps a positive number positive, and keeps it
    above every power of two and every integer below [2^53] that it was
    above. *)

Lemma digits2_size (p : positive) : digits2_pos p = Pos.size p.
Proof. induction p; simpl; congruence. Qed.

Lemma digits_upper (p : positive) : Zpos p < 2 ^ Zpos (digits2_pos p).
Proof.
  rewrite digits2_size. pose proof (Pos.size_gt p) as H.
  apply Pos2Z.pos_lt_pos in H. now rewrite Pos2Z.inj_pow in H.
Qed.

Lemma digits_lower (p : positive) : 2 ^ (Zpos (digits2_pos p) - 1) <= Zpos p.
Proof.
  induction p as [p IH|p IH|]; cbn [digits2_pos].
  - rewrite Pos2Z.inj_succ. replace (Z.succ (Zpos (digits2_pos p)) - 1)
      with (Z.succ (Zpos (digits2_pos p) - 1)) by lia.
    rewrite Z.pow_succ_r by lia. lia.
  - rewrite Pos2Z.inj_succ. replace (Z.succ (Zpos (digits2_pos p)) - 1)
      with (Z.succ (Zpos (digits2_pos p) - 1)) by lia.
    rewrite Z.pow_succ_r by lia. lia.
  - simpl. lia.
Qed.

Lemma digits_ge (p : positive) (j : Z) : 0 <= j -> 2 ^ j <= Zpos p -> j + 1 <= Zpos (digits2_pos p).
Proof.
  intros Hj H. pose proof (digits_upper p) as Hu.
  assert (2 ^ j < 2 ^ Zpos (digits2_pos p)) by lia.
  apply Z.pow_lt_mono_r_iff in H0; lia.
Qed.

Lemma digits_mono (p q : positive) : (p <= q)%positive -> Zpos (digits2_pos p) <= Zpos (digits2_pos q).
Proof.
  intros H. pose proof (digits_lower p). 
  assert (2 ^ (Zpos (digits2_pos p) - 1) <= Zpos q) by lia.
  apply digits_ge in H1; lia.
Qed.

Lemma Zdigits2_mono (a b : Z) : 0 < a -> a <= b -> Zdigits2 a <= Zdigits2 b.
Proof.
  intros Ha Hab. destruct a as [|p|p]; try lia. destruct b as [|q|q]; try lia.
  simpl. apply digits_mono. lia.
Qed.

Lemma Zdigits2_two (z : Z) : 2 <= z -> 2 <= Zdigits2 z.
Proof.
  intros Hz. destruct z as [|p|p]; try lia. cbn [Zdigits2].
  apply (digits_ge p 1); lia.
Qed.

Lemma shr_1_digits (mrs : shr_record) :
  0 < shr_m mrs -> 1 < Zdigits2 (shr_m mrs) ->
  0 < shr_m (shr_1 mrs) /\ Zdigits2 (shr_m (shr_1 mrs)) = Zdigits2 (shr_m mrs) - 1.
Proof.
  destruct mrs as [m r s].
  destruct m as [|[p|p|]|p]; cbn [shr_m shr_1 Zdigits2 digits2_pos]; intros H1 H2;
    try lia; (split; lia).
Qed.

Lemma iter_shr_digits (p : positive) (mrs : shr_record) :
  0 < shr_m mrs -> Zpos p < Zdigits2 (shr_m mrs) ->
  0 < shr_m (iter_pos shr_1 p mrs)
  /\ Zdigits2 (shr_m (iter_pos shr_1 p mrs)) = Zdigits2 (shr_m mrs) - Zpos p.
Proof.
  revert mrs. induction p as [p IH|p IH|]; intros mrs Hm Hd; cbn [iter_pos].
  - destruct (shr_1_digits mrs Hm ltac:(lia)) as [H1 H2].
    destruct (IH (shr_1 mrs) H1 ltac:(lia)) as [H3 H4].
    destruct (IH (iter_pos shr_1 p (shr_1 mrs)) H3 ltac:(lia)) as [H5 H6].
    split; [exact H5|lia].
  - destruct (IH mrs Hm ltac:(lia)) as [H3 H4].
    destruct (IH (iter_pos shr_1 p mrs) H3 ltac:(lia)) as [H5 H6].
    split; [exact H5|lia].
  - apply shr_1_digits; [exact Hm|lia].
Qed.

Lemma shr_m_of_loc (m : Z) (l : location) : shr_m (shr_record_of_loc m l) = m.
Proof. destruct l as [|[]]; reflexivity. Qed.

Lemma shr_fexp_big (m e : Z) (l : location) :
  0 < m -> -1021 <= Zdigits2 m + e ->
  0 < shr_m (fst (shr_fexp 53 1024 m e l))
  /\ Zdigits2 (shr_m (fst (shr_fexp 53 1024 m e l))) + snd (shr_fexp 53 1024 m e l)
     = Zdigits2 m + e.
Proof.
  intros Hm Hd. unfold shr_fexp, shr, fexp, emin.
  rewrite Z.max_l by lia.
  destruct (Zdigits2 m + e - 53 - e) as [|p|p] eqn:Hn; cbn [fst snd];
    rewrite ?shr_m_of_loc; try (split; [exact Hm|reflexivity]).
  destruct (iter_shr_digits p (shr_record_of_loc m l)) as [H1 H2];
    rewrite ?shr_m_of_loc; try lia.
  rewrite shr_m_of_loc in H2. split; [exact H1|lia].
Qed.

Lemma round_nearest_even_bounds (m : Z) (l : location) :
  m <= round_nearest_even m l <= m + 1.
Proof.
  unfold round_nearest_even. destruct l as [|[]]; try lia.
  destruct (Z.even m); lia.
Qed.

Lemma binary_round_aux_big (m e : Z) (l : location) (k : Z) :
  0 < m -> -1021 <= k -> k <= Zdigits2 m + e ->
  big k (binary_round_aux 53 1024 false m e l).
Proof.
  intros Hm Hk Hd. unfold binary_round_aux.
  destruct (shr_fexp_big m e l Hm ltac:(lia)) as [H1 H2].
  destruct (shr_fexp 53 1024 m e l) as [mrs' e'] eqn:Hs1. cbn [fst snd] in *.
  pose proof (round_nearest_even_bounds (shr_m mrs') (loc_of_shr_record mrs')) as Hr.
  set (m1 := round_nearest_even (shr_m mrs') (loc_of_shr_record mrs')) in *.
  pose proof (Zdigits2_mono (shr_m mrs') m1 H1 ltac:(lia)) as Hmono.
  clearbody m1.
  assert (Hm1 : 0 < m1) by lia.
  assert (Hd1 : -1021 <= Zdigits2 m1 + e') by lia.
  destruct (shr_fexp_big m1 e' loc_Exact Hm1 Hd1) as [H3 H4].
  destruct (shr_fexp 53 1024 m1 e' loc_Exact) as [mrs'' e''] eqn:Hs2. cbn [fst snd] in *.
  destruct (shr_m mrs'') as [|p|p] eqn:Hp; try lia.
  destruct (e'' <=? 1024 - 53); [|now left].
  right. exists p, e''. split; [reflexivity|]. cbn [Zdigits2] in H4. lia.
Qed.

Lemma shr_1_nonneg (mrs : shr_record) : 0 <= shr_m mrs -> 0 <= shr_m (shr_1 mrs).
Proof. destruct mrs as [m r s]. destruct m as [|[p|p|]|p]; simpl; lia. Qed.

Lemma iter_shr_nonneg (p : positive) (mrs : shr_record) :
  0 <= shr_m mrs -> 0 <= shr_m (iter_pos shr_1 p mrs).
Proof.
  revert mrs. induction p as [p IH|p IH|]; intros mrs Hm; cbn [iter_pos].
  - apply IH, IH, shr_1_nonneg, Hm.
  - apply IH, IH, Hm.
  - apply shr_1_nonneg, Hm.
Qed.

Lemma shr_fexp_nonneg (m e : Z) (l : location) :
  0 <= m -> 0 <= shr_m (fst (shr_fexp 53 1024 m e l)).
Proof.
  intros Hm. unfold shr_fexp, shr.
  destruct (fexp 53 1024 (Zdigits2 m + e) - e) as [|p|p]; cbn [fst];
    rewrite ?shr_m_of_loc; try exact Hm.
  apply iter_shr_nonneg. now rewrite shr_m_of_loc.
Qed.

Lemma binary_round_aux_not_nan (s : bool) (m e : Z) (l : location) :
  0 <= m -> binary_round_aux 53 1024 s m e l <> S754_nan.
Proof.
  intros Hm. unfold binary_round_aux.
  pose proof (shr_fexp_nonneg m e l Hm) as H1.
  destruct (shr_fexp 53 1024 m e l) as [mrs' e']. cbn [fst] in H1.
  pose proof (round_nearest_even_bounds (shr_m mrs') (loc_of_shr_record mrs')) as Hr.
  set (m1 := round_nearest_even (shr_m mrs') (loc_of_shr_record mrs')) in *.
  clearbody m1.
  pose proof (shr_fexp_nonneg m1 e' loc_Exact ltac:(lia)) as H2.
  destruct (shr_fexp 53 1024 m1 e' loc_Exact) as [mrs'' e'']. cbn [fst] in H2.
  destruct (shr_m mrs'') as [|p|p]; try lia; try discriminate.
  destruct (e'' <=? 1024 - 53); discriminate.
Qed.

Lemma iter_xO_digits (d m : positive) :
  Zpos (digits2_pos (Pos.iter xO m d)) = Zpos (digits2_pos m) + Zpos d
  /\ (m <= Pos.iter xO m d)%positive.
Proof.
  induction d as [|d IH] using Pos.peano_ind.
  - cbn [Pos.iter digits2_pos]. split; lia.
  - rewrite Pos.iter_succ. cbn [digits2_pos]. destruct IH as [IH1 IH2]. split; lia.
Qed.

Lemma shl_align_digits (mx : positive) (ex ex' : Z) :
  Zpos (digits2_pos (fst (shl_align mx ex ex'))) + snd (shl_align mx ex ex')
  = Zpos (digits2_pos mx) + ex
  /\ (mx <= fst (shl_align mx ex ex'))%positive
  /\ (ex' <= ex -> snd (shl_align mx ex ex') = ex').
Proof.
  unfold shl_align. destruct (ex' - ex) as [|d|d] eqn:Hd; cbn [fst snd].
  - split; [reflexivity|]. split; lia.
  - split; [reflexivity|]. split; lia.
  - destruct (iter_xO_digits d mx) as [H1 H2]. split; [lia|]. split; [exact H2|reflexivity].
Qed.

Lemma binary_round_big (mx : positive) (ex k : Z) :
  -1021 <= k -> k <= Zpos (digits2_pos mx) + ex ->
  big k (binary_round 53 1024 false mx ex).
Proof.
  intros Hk Hd. unfold binary_round.
  destruct (shl_align_digits mx ex (fexp 53 1024 (Zpos (digits2_pos mx) + ex)))
    as [H1 _].
  destruct (shl_align mx ex (fexp 53 1024 (Zpos (digits2_pos mx) + ex))) as [mz ez].
  cbn [fst snd] in H1. apply binary_round_aux_big; cbn [Zdigits2]; lia.
Qed.

Lemma binary_round_not_nan (s : bool) (mx : positive) (ex : Z) :
  binary_round 53 1024 s mx ex <> S754_nan.
Proof.
  unfold binary_round.
  destruct (shl_align mx ex (fexp 53 1024 (Zpos (digits2_pos mx) + ex))) as [mz ez].
  apply binary_round_aux_not_nan. lia.
Qed.

Lemma binary_normalize_not_nan (z e : Z) (s : bool) :
  binary_normalize 53 1024 z e s <> S754_nan.
Proof.
  destruct z as [|p|p]; cbn [binary_normalize];
    [discriminate|apply binary_round_not_nan|apply binary_round_not_nan].
Qed.

Lemma num_of_Z_big (z k : Z) :
  0 < z -> -1021 <= k -> k <= Zdigits2 z -> big k (num_of_Z z).
Proof.
  intros Hz Hk Hd. destruct z as [|p|p]; try lia.
  unfold num_of_Z, binary_normalize. apply binary_round_big; cbn [Zdigits2] in Hd; lia.
Qed.

Lemma big_weaken (a b : Z) (x : number) : b <= a -> big a x -> big b x.
Proof.
  intros Hab [-> | [m [e [-> H]]]]; [now left|].
  right. exists m, e. split; [reflexivity|lia].
Qed.

Lemma big_positive (k : Z) (x : number) : big k x -> flt zero x = true.
Proof. intros [-> | [m [e [-> _]]]]; reflexivity. Qed.

Lemma fmul_big (a b : Z) (x y : number) :
  big a x -> big b y -> -1021 <= a + b - 1 -> big (a + b - 1) (fmul x y).
Proof.
  intros [-> | [mx [ex [-> Hx]]]] [-> | [my [ey [-> Hy]]]] Hk; try (now left).
  unfold fmul, SFmul. cbn [xorb].
  apply binary_round_aux_big; [lia|exact Hk|]. cbn [Zdigits2].
  pose proof (digits_lower mx) as Lx. pose proof (digits_lower my) as Ly.
  assert (H : Zpos (digits2_pos mx) + Zpos (digits2_pos my) - 1
              <= Zpos (digits2_pos (mx * my))).
  { pose proof (Pos2Z.is_pos (digits2_pos mx)). pose proof (Pos2Z.is_pos (digits2_pos my)).
    replace (Zpos (digits2_pos mx) + Zpos (digits2_pos my) - 1)
      with ((Zpos (digits2_pos mx) - 1 + (Zpos (digits2_pos my) - 1)) + 1) by lia.
    apply digits_ge; [lia|].
    rewrite Z.pow_add_r by lia. rewrite Pos2Z.inj_mul.
    apply Z.mul_le_mono_nonneg; try lia; apply Z.pow_nonneg; lia. }
  lia.
Qed.

Lemma fadd_big (a b : Z) (x y : number) :
  big a x -> big b y -> -1021 <= a -> big a (fadd x y).
Proof.
  intros [-> | [mx [ex [-> Hx]]]] [-> | [my [ey [-> Hy]]]] Hk; try (now left).
  unfold fadd, SFadd. cbn [cond_Zopp].
  destruct (shl_align_digits mx ex (Z.min ex ey)) as [H1 [H2 H3]].
  destruct (shl_align_digits my ey (Z.min ex ey)) as [_ [_ H3']].
  specialize (H3 ltac:(lia)).
  destruct (shl_align mx ex (Z.min ex ey)) as [m1 e1].
  destruct (shl_align my ey (Z.min ex ey)) as [m2 e2]. cbn [fst snd] in *.
  change (Zpos m1 + Zpos m2) with (Zpos (m1 + m2)). cbn [binary_normalize].
  apply binary_round_big; [exact Hk|].
  pose proof (digits_mono m1 (m1 + m2) ltac:(lia)). lia.
Qed.

Lemma fadd_big_r (b : Z) (mx : positive) (ex : Z) (y : number) :
  big b y -> -1021 <= b -> big b (fadd (S754_finite false mx ex) y).
Proof.
  intros [-> | [my [ey [-> Hy]]]] Hk; try (now left).
  unfold fadd, SFadd. cbn [cond_Zopp].
  destruct (shl_align_digits my ey (Z.min ex ey)) as [H1 [H2 H3]].
  specialize (H3 ltac:(lia)).
  destruct (shl_align mx ex (Z.min ex ey)) as [m1 e1].
  destruct (shl_align my ey (Z.min ex ey)) as [m2 e2]. cbn [fst snd] in *.
  change (Zpos m1 + Zpos m2) with (Zpos (m1 + m2)). cbn [binary_normalize].
  apply binary_round_big; [exact Hk|].
  pose proof (digits_mono m2 (m1 + m2) ltac:(lia)). lia.
Qed.

Lemma fadd_zero_l (b : Z) (y : number) : big b y -> fadd zero y = y.
Proof. intros [-> | [my [ey [-> _]]]]; reflexivity. Qed.

Lemma shr_1_upper (mrs : shr_record) :
  0 <= shr_m mrs ->
  0 <= shr_m (shr_1 mrs) /\ shr_m mrs < 2 * (shr_m (shr_1 mrs) + 1).
Proof.
  destruct mrs as [m r s].
  destruct m as [|[p|p|]|p]; cbn [shr_m shr_1]; intros H; lia.
Qed.

Lemma iter_shr_upper (p : positive) (mrs : shr_record) :
  0 <= shr_m mrs ->
  0 <= shr_m (iter_pos shr_1 p mrs)
  /\ shr_m mrs < 2 ^ Zpos p * (shr_m (iter_pos shr_1 p mrs) + 1).
Proof.
  revert mrs. induction p as [p IH|p IH|]; intros mrs Hm; cbn [iter_pos].
  - destruct (shr_1_upper mrs Hm) as [H1 H2].
    destruct (IH (shr_1 mrs) H1) as [H3 H4].
    destruct (IH (iter_pos shr_1 p (shr_1 mrs)) H3) as [H5 H6].
    split; [exact H5|].
    replace (Zpos p~1) with (Zpos p + Zpos p + 1) by lia.
    rewrite !Z.pow_add_r, Z.pow_1_r by lia.
    assert (0 < 2 ^ Zpos p) by (apply Z.pow_pos_nonneg; lia). nia.
  - destruct (IH mrs Hm) as [H3 H4].
    destruct (IH (iter_pos shr_1 p mrs) H3) as [H5 H6].
    split; [exact H5|].
    replace (Zpos p~0) with (Zpos p + Zpos p) by lia.
    rewrite Z.pow_add_r by lia.
    assert (0 < 2 ^ Zpos p) by (apply Z.pow_pos_nonneg; lia). nia.
  - rewrite Z.pow_1_r. apply shr_1_upper, Hm.
Qed.

Lemma above_digits (N e : Z) (m : positive) :
  1 <= N -> e <= 0 -> N * 2 ^ (- e) <= Zpos m -> 1 <= Zpos (digits2_pos m) + e.
Proof.
  intros HN He H.
  assert (0 < 2 ^ (- e)) by (apply Z.pow_pos_nonneg; lia).
  assert (2 ^ (- e) <= Zpos m) by nia.
  pose proof (digits_ge m (- e) ltac:(lia) H1). lia.
Qed.

Lemma shr_fexp_above (m : positive) (e : Z) (l : location) (N : Z) :
  e <= 0 -> 1 <= N -> N * 2 ^ (- e) <= Zpos m -> Zpos (digits2_pos m) + e <= 53 ->
  snd (shr_fexp 53 1024 (Zpos m) e l) <= 0
  /\ N * 2 ^ (- snd (shr_fexp 53 1024 (Zpos m) e l))
     <= shr_m (fst (shr_fexp 53 1024 (Zpos m) e l)).
Proof.
  intros He HN H HD. pose proof (above_digits N e m HN He H) as HD1.
  unfold shr_fexp, shr, fexp, emin. cbn [Zdigits2].
  rewrite Z.max_l by lia.
  destruct (Zpos (digits2_pos m) + e - 53 - e) as [|p|p] eqn:Hn; cbn [fst snd];
    rewrite ?shr_m_of_loc; try (split; [exact He|exact H]).
  destruct (iter_shr_upper p (shr_record_of_loc (Zpos m) l)) as [H1 H2];
    rewrite ?shr_m_of_loc in *; try lia.
  split; [lia|].
  set (m' := shr_m (iter_pos shr_1 p (shr_record_of_loc (Zpos m) l))) in *.
  replace (- e) with (- (e + Zpos p) + Zpos p) in H by lia.
  rewrite Z.pow_add_r in H by lia.
  assert (0 < 2 ^ Zpos p) by (apply Z.pow_pos_nonneg; lia).
  assert (0 < 2 ^ (- (e + Zpos p))) by (apply Z.pow_pos_nonneg; lia).
  nia.
Qed.

Lemma binary_round_aux_above (m : positive) (e : Z) (l : location) (N : Z) :
  e <= 0 -> 1 <= N -> N * 2 ^ (- e) <= Zpos m ->
  above N (binary_round_aux 53 1024 false (Zpos m) e l).
Proof.
  intros He HN H. pose proof (above_digits N e m HN He H) as HD1.
  destruct (Z_le_gt_dec 54 (Zpos (digits2_pos m) + e)) as [Hbig|Hsmall].
  { left. apply binary_round_aux_big; cbn [Zdigits2]; lia. }
  unfold binary_round_aux.
  destruct (shr_fexp_big (Zpos m) e l ltac:(lia) ltac:(cbn [Zdigits2]; lia)) as [H1 H2].
  destruct (shr_fexp_above m e l N He HN H ltac:(lia)) as [A1 A2].
  destruct (shr_fexp 53 1024 (Zpos m) e l) as [mrs' e'] eqn:Hs1. cbn [fst snd] in *.
  pose proof (round_nearest_even_bounds (shr_m mrs') (loc_of_shr_record mrs')) as Hr.
  set (m1 := round_nearest_even (shr_m mrs') (loc_of_shr_record mrs')) in *.
  pose proof (Zdigits2_mono (shr_m mrs') m1 H1 ltac:(lia)) as Hmono.
  clearbody m1.
  destruct m1 as [|p1|p1]; try lia.
  cbn [Zdigits2] in H2, Hmono.
  assert (Hd1 : -1021 <= Zdigits2 (Zpos p1) + e') by (cbn [Zdigits2]; lia).
  destruct (shr_fexp_big (Zpos p1) e' loc_Exact ltac:(lia) Hd1) as [H3 H4].
  cbn [Zdigits2] in H4.
  destruct (Z_le_gt_dec 54 (Zpos (digits2_pos p1) + e')) as [Hbig1|Hsmall1].
  - destruct (shr_fexp 53 1024 (Zpos p1) e' loc_Exact) as [mrs'' e''] eqn:Hs2.
    cbn [fst snd] in *.
    destruct (shr_m mrs'') as [|p|p] eqn:Hp; try lia.
    left. destruct (e'' <=? 1024 - 53); [|now left].
    right. exists p, e''. split; [reflexivity|]. cbn [Zdigits2] in H4. lia.
  - destruct (shr_fexp_above p1 e' loc_Exact N A1 HN ltac:(lia) ltac:(lia)) as [A3 A4].
    destruct (shr_fexp 53 1024 (Zpos p1) e' loc_Exact) as [mrs'' e''] eqn:Hs2.
    cbn [fst snd] in *.
    destruct (shr_m mrs'') as [|p|p] eqn:Hp; try lia.
    destruct (Z.leb_spec e'' (1024 - 53)); [|lia].
    right. exists p, e''. split; [reflexivity|]. split; [exact A3|exact A4].
Qed.

Lemma shr_fexp_normal (m e : Z) (l : location) :
  0 < m -> -1021 <= Zdigits2 m + e -> 53 <= Zdigits2 m ->
  Zdigits2 (shr_m (fst (shr_fexp 53 1024 m e l))) = 53.
Proof.
  intros Hm Hd H53. unfold shr_fexp, shr, fexp, emin.
  rewrite Z.max_l by lia.
  destruct (Zdigits2 m + e - 53 - e) as [|p|p] eqn:Hn; cbn [fst snd];
    rewrite ?shr_m_of_loc; try lia.
  destruct (iter_shr_digits p (shr_record_of_loc m l)) as [H1 H2];
    rewrite ?shr_m_of_loc in *; lia.
Qed.

Lemma binary_round_aux_normal (m e : Z) (l : location) (k : Z) :
  0 < m -> 53 <= Zdigits2 m -> -1021 <= k -> k <= Zdigits2 m + e ->
  normal k (binary_round_aux 53 1024 false m e l).
Proof.
  intros Hm H53 Hk Hd. unfold binary_round_aux.
  destruct (shr_fexp_big m e l Hm ltac:(lia)) as [H1 H2].
  pose proof (shr_fexp_normal m e l Hm ltac:(lia) H53) as N1.
  destruct (shr_fexp 53 1024 m e l) as [mrs' e'] eqn:Hs1. cbn [fst snd] in *.
  pose proof (round_nearest_even_bounds (shr_m mrs') (loc_of_shr_record mrs')) as Hr.
  set (m1 := round_nearest_even (shr_m mrs') (loc_of_shr_record mrs')) in *.
  pose proof (Zdigits2_mono (shr_m mrs') m1 H1 ltac:(lia)) as Hmono.
  clearbody m1.
  assert (Hm1 : 0 < m1) by lia.
  assert (Hd1 : -1021 <= Zdigits2 m1 + e') by lia.
  destruct (shr_fexp_big m1 e' loc_Exact Hm1 Hd1) as [H3 H4].
  pose proof (shr_fexp_normal m1 e' loc_Exact Hm1 Hd1 ltac:(lia)) as N2.
  destruct (shr_fexp 53 1024 m1 e' loc_Exact) as [mrs'' e''] eqn:Hs2. cbn [fst snd] in *.
  destruct (shr_m mrs'') as [|p|p] eqn:Hp; try lia.
  destruct (e'' <=? 1024 - 53); [|now left].
  right. exists p, e''. cbn [Zdigits2] in *. split; [reflexivity|]. split; lia.
Qed.

Lemma iter_xO_value (d m : positive) :
  Zpos (Pos.iter xO m d) = Zpos m * 2 ^ Zpos d.
Proof.
  induction d as [|d IH] using Pos.peano_ind.
  - cbn [Pos.iter]. rewrite Z.pow_1_r. lia.
  - rewrite Pos.iter_succ, Pos2Z.inj_succ, Z.pow_succ_r by lia.
    rewrite Pos2Z.inj_xO, IH. lia.
Qed.

Lemma shl_align_value (mx : positive) (ex ex' : Z) :
  snd (shl_align mx ex ex') <= ex
  /\ Zpos (fst (shl_align mx ex ex')) = Zpos mx * 2 ^ (ex - snd (shl_align mx ex ex')).
Proof.
  unfold shl_align. destruct (ex' - ex) as [|d|d] eqn:Hd; cbn [fst snd].
  - rewrite Z.sub_diag. split; lia.
  - rewrite Z.sub_diag. split; lia.
  - split; [lia|]. rewrite iter_xO_value. f_equal. f_equal. lia.
Qed.

Lemma shl_align_above (N : Z) (mx : positive) (ex ex' : Z) :
  ex <= 0 -> N * 2 ^ (- ex) <= Zpos mx ->
  snd (shl_align mx ex ex') <= 0
  /\ N * 2 ^ (- snd (shl_align mx ex ex')) <= Zpos (fst (shl_align mx ex ex')).
Proof.
  intros He H. destruct (shl_align_value mx ex ex') as [H1 H2].
  split; [lia|]. rewrite H2.
  set (e' := snd (shl_align mx ex ex')) in *.
  replace (- e') with (- ex + (ex - e')) by lia.
  rewrite Z.pow_add_r by lia.
  assert (0 < 2 ^ (ex - e')) by (apply Z.pow_pos_nonneg; lia).
  nia.
Qed.

Lemma binary_round_above (N : Z) (mx : positive) (ex : Z) :
  ex <= 0 -> 1 <= N -> N * 2 ^ (- ex) <= Zpos mx ->
  above N (binary_round 53 1024 false mx ex).
Proof.
  intros He HN H. unfold binary_round.
  destruct (shl_align_above N mx ex (fexp 53 1024 (Zpos (digits2_pos mx) + ex)) He H)
    as [H1 H2].
  destruct (shl_align mx ex (fexp 53 1024 (Zpos (digits2_pos mx) + ex))) as [mz ez].
  cbn [fst snd] in *. apply binary_round_aux_above; assumption.
Qed.

Lemma num_of_Z_above (N z : Z) : 1 <= N -> N <= z -> above N (num_of_Z z).
Proof.
  intros HN Hz. destruct z as [|p|p]; try lia.
  unfold num_of_Z, binary_normalize. apply binary_round_above; [lia|exact HN|].
  cbn. lia.
Qed.

Lemma fadd_above (N M : Z) (x y : number) :
  1 <= N -> 1 <= M -> above N x -> above M y -> above (N + M) (fadd x y).
Proof.
  intros HN HM [Bx | [mx [ex [-> [Hex Hx]]]]] Hy.
  { left. destruct Hy as [By | [my [ey [-> _]]]].
    - apply fadd_big with (b := 54); [exact Bx|exact By|lia].
    - apply fadd_big with (b := Zpos (digits2_pos my) + ey); [exact Bx| |lia].
      right. exists my, ey. split; [reflexivity|lia]. }
  destruct Hy as [By | [my [ey [-> [Hey Hy]]]]].
  { left. apply fadd_big_r; [exact By|lia]. }
  unfold fadd, SFadd. cbn [cond_Zopp].
  destruct (shl_align_digits mx ex (Z.min ex ey)) as [_ [_ E1]].
  destruct (shl_align_digits my ey (Z.min ex ey)) as [_ [_ E2]].
  specialize (E1 ltac:(lia)). specialize (E2 ltac:(lia)).
  destruct (shl_align_above N mx ex (Z.min ex ey) Hex Hx) as [A1 A2].
  destruct (shl_align_above M my ey (Z.min ex ey) Hey Hy) as [B1 B2].
  destruct (shl_align mx ex (Z.min ex ey)) as [m1 e1].
  destruct (shl_align my ey (Z.min ex ey)) as [m2 e2]. cbn [fst snd] in *.
  change (Zpos m1 + Zpos m2) with (Zpos (m1 + m2)). cbn [binary_normalize].
  apply binary_round_above; [lia|lia|].
  rewrite E1 in A2. rewrite E2 in B2. rewrite Pos2Z.inj_add. lia.
Qed.

Lemma above_big (N j : Z) (x : number) :
  0 <= j <= 53 -> 2 ^ j <= N -> above N x -> big (j + 1) x.
Proof.
  intros Hj HN [Bx | [m [e [-> [He H]]]]].
  - apply big_weaken with (a := 54); [lia|exact Bx].
  - right. exists m, e. split; [reflexivity|].
    assert (0 < 2 ^ (- e)) by (apply Z.pow_pos_nonneg; lia).
    assert (0 < 2 ^ j) by (apply Z.pow_pos_nonneg; lia).
    assert (2 ^ (j + - e) <= Zpos m) by (rewrite Z.pow_add_r by lia; nia).
    pose proof (digits_ge m (j + - e) ltac:(lia) H2). lia.
Qed.

Lemma sum_above (counts : list Z) (acc : number) (N : Z) :
  Forall (fun c => 2 <= c) counts -> 1 <= N -> above N acc ->
  above (N + 2 * Z.of_nat (length counts))
    (fold_left (fun a b => fadd a (num_of_Z b)) counts acc).
Proof.
  revert acc N. induction counts as [|c counts IH]; intros acc N Hall HN Hacc.
  - simpl. replace (N + 0) with N by lia. exact Hacc.
  - inversion Hall; subst. cbn [fold_left].
    replace (N + 2 * Z.of_nat (length (c :: counts)))
      with ((N + 2) + 2 * Z.of_nat (length counts))
      by (cbn [length]; lia).
    apply IH; [assumption|lia|].
    apply fadd_above; [exact HN|lia|exact Hacc|].
    apply num_of_Z_above; lia.
Qed.

Lemma sum_from_zero_above (counts : list Z) :
  counts <> [] -> Forall (fun c => 2 <= c) counts ->
  above (2 * Z.of_nat (length counts))
    (fold_left (fun a b => fadd a (num_of_Z b)) counts zero).
Proof.
  intros Hn Hall. destruct counts as [|c counts]; [congruence|].
  cbn [fold_left]. inversion Hall; subst.
  assert (Bc : big 2 (num_of_Z c))
    by (apply num_of_Z_big; [lia|lia|apply Zdigits2_two; assumption]).
  rewrite (fadd_zero_l 2 _ Bc).
  replace (2 * Z.of_nat (length (c :: counts)))
    with (2 + 2 * Z.of_nat (length counts)) by (cbn [length]; lia).
  apply sum_above; [assumption|lia|]. apply num_of_Z_above; lia.
Qed.

Lemma fdiv_normal (a c : Z) (x : number) (my : positive) (ey : Z) :
  big a x -> Zpos (digits2_pos my) + ey <= c -> -1021 <= a - c ->
  normal (a - c) (fdiv x (S754_finite false my ey)).
Proof.
  intros [-> | [mx [ex [-> Hx]]]] Hy Hk; [now left|].
  unfold fdiv, SFdiv, SFdiv_core_binary. cbn [xorb Zdigits2].
  set (d1 := Zpos (digits2_pos mx)) in *. set (d2 := Zpos (digits2_pos my)) in *.
  unfold fexp, emin. rewrite (Z.max_l (d1 + ex - (d2 + ey) - 53)) by lia.
  set (e' := Z.min (d1 + ex - (d2 + ey) - 53) (ex - ey)).
  assert (Hs : 0 <= ex - ey - e') by (unfold e'; lia).
  assert (Hs' : d2 - d1 + 53 <= ex - ey - e') by (unfold e'; lia).
  set (s := ex - ey - e') in *.
  set (m' := match s with Z.pos _ => Z.shiftl (Zpos mx) s | 0 => Zpos mx | Z.neg _ => 0 end).
  assert (Hm' : m' = Zpos mx * 2 ^ s).
  { unfold m'. destruct s as [|p|p] eqn:Es; try lia.
    - rewrite Z.shiftl_mul_pow2 by lia. reflexivity. }
  pose proof (digits_lower mx) as Lx. pose proof (digits_upper my) as Uy.
  fold d1 in Lx. fold d2 in Uy.
  assert (Hd1 : 0 < d1) by (unfold d1; lia).
  assert (Hd2 : 0 < d2) by (unfold d2; lia).
  assert (Hq : 2 ^ (d1 + s - 1 - d2) <= m' / Zpos my).
  { apply Z.div_le_lower_bound; [lia|].
    rewrite Hm'.
    assert (Zpos my * 2 ^ (d1 + s - 1 - d2) <= 2 ^ d2 * 2 ^ (d1 + s - 1 - d2)).
    { apply Z.mul_le_mono_nonneg_r; [apply Z.pow_nonneg; lia|lia]. }
    rewrite <- Z.pow_add_r in H by lia.
    replace (d2 + (d1 + s - 1 - d2)) with ((d1 - 1) + s) in H by lia.
    rewrite Z.pow_add_r in H by lia.
    assert (2 ^ (d1 - 1) * 2 ^ s <= Zpos mx * 2 ^ s).
    { apply Z.mul_le_mono_nonneg_r; [apply Z.pow_nonneg; lia|lia]. }
    lia. }
  unfold Z.div in Hq. destruct (Z.div_eucl m' (Zpos my)) as [q r]. cbn [fst] in Hq.
  assert (Hpow : 0 < 2 ^ (d1 + s - 1 - d2)) by (apply Z.pow_pos_nonneg; lia).
  destruct q as [|q|q]; try lia.
  pose proof (digits_ge q (d1 + s - 1 - d2) ltac:(lia) Hq).
  apply binary_round_aux_normal; cbn [Zdigits2]; unfold s in *; lia.
Qed.

Lemma normal_big (k : Z) (x : number) : normal k x -> big k x.
Proof.
  intros [-> | [m [e [-> [H1 H2]]]]]; [now left|].
  right. exists m, e. split; [reflexivity|lia].
Qed.

Lemma Math_max_one (x : number) : normal 1 x -> Math_max x (num_of_Z 1) = x.
Proof.
  assert (H1 : num_of_Z 1 = S754_finite false 4503599627370496 (-52))
    by (vm_compute; reflexivity).
  assert (H2 : 2 ^ (53 - 1) = 4503599627370496) by (vm_compute; reflexivity).
  rewrite H1. intros [-> | [m [e [-> [Hd He]]]]]; [reflexivity|].
  unfold Math_max, SFcompare.
  destruct (Z.compare_spec e (-52)) as [E|E|E]; try lia; [|reflexivity].
  pose proof (digits_lower m) as L. rewrite Hd, H2 in L.
  rewrite Pos.compare_cont_spec.
  destruct (Pos.compare_spec m 4503599627370496) as [C|C|C]; cbn [Pos.switch_Eq];
    [reflexivity| |reflexivity].
  exfalso. apply Pos2Z.pos_lt_pos in C. clear - C L. lia.
Qed.

Lemma average_normal (counts : list Z) :
  counts <> [] -> (length counts <= 10)%nat -> Forall (fun c => 2 <= c) counts ->
  normal 1 (fdiv (fold_left (fun a b => fadd a (num_of_Z b)) counts zero)
                 (num_of_nat (length counts))).
Proof.
  intros Hn Hlen Hall.
  pose proof (sum_from_zero_above counts Hn Hall) as Hs.
  set (sum := fold_left (fun a b => fadd a (num_of_Z b)) counts zero) in *.
  assert (Hl : (1 <= length counts <= 10)%nat).
  { destruct counts; [congruence|simpl in *; lia]. }
  set (n := length counts) in *. clearbody n sum.
  assert (Hcase : exists j my ey,
             num_of_nat n = S754_finite false my ey
             /\ Zpos (digits2_pos my) + ey <= j /\ 0 <= j <= 53
             /\ 2 ^ j <= 2 * Z.of_nat n).
  { do 11 (destruct n as [|n];
           [first [lia
                  | match goal with
                    | |- exists j my ey, num_of_nat ?k = _ /\ _ =>
                        exists (Z.log2 (2 * Z.of_nat k))
                    end;
                    eexists _, _;
                    split; [vm_compute; reflexivity|vm_compute; intuition discriminate]]|]).
    lia. }
  destruct Hcase as [j [my [ey [En [Hd [Hj Hp]]]]]].
  rewrite En.
  replace 1 with ((j + 1) - j) by lia.
  apply fdiv_normal; [|exact Hd|lia].
  apply above_big with (N := 2 * Z.of_nat n); assumption.
Qed.

Lemma fsub_finite_not_nan (s : bool) (m : positive) (e : Z) (u : number) :
  u <> S754_nan -> fsub (S754_finite s m e) u <> S754_nan.
Proof.
  intros Hu. destruct u as [su|su| |su mu eu]; try congruence;
    unfold fsub, SFsub; try discriminate.
  apply binary_normalize_not_nan.
Qed.

Lemma fdiv_not_nan (k : Z) (x y : number) :
  (x = zero \/ exists m e, x = S754_finite false m e) -> big k y ->
  fdiv x y <> S754_nan.
Proof.
  intros [-> | [mx [ex ->]]] [-> | [my [ey [-> _]]]]; try discriminate.
  unfold fdiv, SFdiv, SFdiv_core_binary.
  set (e' := Z.min _ _). set (s := ex - ey - e').
  set (m' := match s with Z.pos _ => Z.shiftl (Zpos mx) s | 0 => Zpos mx | Z.neg _ => 0 end).
  assert (Hm' : 0 <= m').
  { unfold m'. destruct s; try lia. apply Z.shiftl_nonneg. lia. }
  pose proof (Z.div_pos m' (Zpos my) Hm' ltac:(lia)) as Hq.
  unfold Z.div in Hq. destruct (Z.div_eucl m' (Zpos my)) as [q r]. cbn [fst] in Hq.
  apply binary_round_aux_not_nan. exact Hq.
Qed.

Lemma Math_max_half_big (x : number) :
  x <> S754_nan -> big (-52) (Math_max x (num_of_decimal false 5 1)).
Proof.
  intros Hx.
  assert (Hh : num_of_decimal false 5 1 = S754_finite false 4503599627370496 (-53))
    by (vm_compute; reflexivity).
  rewrite Hh.
  assert (Bh : big (-52) (S754_finite false 4503599627370496 (-53))).
  { right. eexists _, _. split; [reflexivity|]. vm_compute. discriminate. }
  destruct x as [s|s| |s m e]; try congruence.
  - destruct s; exact Bh.
  - destruct s; [exact Bh|now left].
  - unfold Math_max, SFcompare. destruct s; [exact Bh|].
    assert (Bx : -53 <= e -> big (-52) (S754_finite false m e)).
    { intros He. right. exists m, e. split; [reflexivity|].
      pose proof (Pos2Z.is_pos (digits2_pos m)). lia. }
    destruct (Z.compare_spec e (-53)) as [He|He|He]; try exact Bh.
    + destruct (Pcompare m 4503599627370496 Eq); try exact Bh; apply Bx; lia.
    + apply Bx; lia.
Qed.

Lemma fold_max_ge (l : list Z) (a : Z) : a <= fold_left Z.max l a.
Proof.
  revert a. induction l as [|x l IH]; intros a; cbn [fold_left]; [lia|].
  specialize (IH (Z.max a x)). lia.
Qed.

Lemma fold_min_le (l : list Z) (a : Z) : fold_left Z.min l a <= a.
Proof.
  revert a. induction l as [|x l IH]; intros a; cbn [fold_left]; [lia|].
  specialize (IH (Z.min a x)). lia.
Qed.

Lemma fold_min_ge (l : list Z) (a b : Z) :
  Forall (fun c => b <= c) l -> b <= a -> b <= fold_left Z.min l a.
Proof.
  revert a. induction l as [|x l IH]; intros a Hl Ha; cbn [fold_left]; [lia|].
  inversion Hl; subst. apply IH; [assumption|lia].
Qed.

Lemma spread_bounds (counts : list Z) :
  counts <> [] -> Forall (fun c => 2 <= c) counts ->
  0 <= maxOf counts - minOf counts <= maxOf counts - 2.
Proof.
  intros Hn Hall. destruct counts as [|c counts]; [congruence|].
  unfold maxOf, minOf. cbn [hd].
  pose proof (fold_max_ge (c :: counts) c).
  pose proof (fold_min_le (c :: counts) c).
  inversion Hall; subst.
  pose proof (fold_min_ge (c :: counts) c 2 Hall ltac:(lia)). lia.
Qed.

Lemma num_of_Z_small (z : Z) :
  0 <= z <= 8 -> num_of_Z z = zero \/ exists m e, num_of_Z z = S754_finite false m e.
Proof.
  intros Hz.
  assert (H : z = 0 \/ z = 1 \/ z = 2 \/ z = 3 \/ z = 4 \/ z = 5 \/ z = 6 \/ z = 7 \/ z = 8)
    by lia.
  repeat (destruct H as [-> | H]; [first [left; reflexivity
                                         |right; eexists _, _; vm_compute; reflexivity]|]).
  subst z. right. eexists _, _. vm_compute. reflexivity.
Qed.

(** ** The score of a candidate *)

(** The average of at most ten column counts is at least 1, so that
    [Math.max(avgColumns, 1)] is [avgColumns]. *)
Lemma scoreOf_specified (counts : list Z) :
  counts <> [] -> (length counts <= 10)%nat -> Forall (fun c => 2 <= c) counts ->
  scoreOf counts = scoreAsSpecified counts.
Proof.
  intros Hn Hlen Hall. unfold scoreOf, scoreAsSpecified. cbv zeta.
  rewrite (Math_max_one _ (average_normal counts Hn Hlen Hall)). reflexivity.
Qed.

Lemma scoreAsSpecified_big (counts : list Z) :
  counts <> [] -> (length counts <= 10)%nat -> Forall (fun c => 2 <= c) counts ->
  big (-52) (scoreAsSpecified counts).
Proof.
  intros Hn Hlen Hall. unfold scoreAsSpecified.
  pose proof (normal_big 1 _ (average_normal counts Hn Hlen Hall)) as Ba.
  set (avg := fdiv (fold_left (fun a b => fadd a (num_of_Z b)) counts zero)
                   (num_of_nat (length counts))) in *.
  set (cons := if 10 <? maxOf counts then num_of_decimal false 8 1
               else fsub (num_of_Z 1)
                      (fdiv (num_of_Z (maxOf counts - minOf counts)) avg)).
  assert (Bc : big (-52) (Math_max cons (num_of_decimal false 5 1))).
  { apply Math_max_half_big. unfold cons.
    destruct (10 <? maxOf counts) eqn:Emax; [vm_compute; discriminate|].
    apply Z.ltb_ge in Emax.
    change (num_of_Z 1) with (S754_finite false 4503599627370496 (-52)).
    apply fsub_finite_not_nan.
    apply fdiv_not_nan with (k := 1); [|exact Ba].
    apply num_of_Z_small. pose proof (spread_bounds counts Hn Hall). lia. }
  assert (Bn : big 1 (num_of_nat (length counts))).
  { apply num_of_Z_big; [|lia|].
    - destruct counts; [congruence|simpl; lia].
    - destruct counts; [congruence|]. cbn [length]. rewrite Nat2Z.inj_succ.
      destruct (Z.succ (Z.of_nat (length counts))) as [|p|p] eqn:E; try lia.
      cbn [Zdigits2]. pose proof (Pos2Z.is_pos (digits2_pos p)). lia. }
  pose proof (fmul_big 1 (-52) _ _ Ba Bc ltac:(lia)) as B1.
  pose proof (fmul_big (1 + -52 - 1) 1 _ _ B1 Bn ltac:(lia)) as B2.
  exact B2.
Qed.

Lemma columnCounts_all (c : Z) (lines : list jsstring) :
  Forall (fun n => 2 <= n) (columnCounts c lines).
Proof.
  unfold columnCounts. apply Forall_forall. intros n Hin.
  apply filter_In in Hin. destruct Hin as [_ H]. apply Z.ltb_lt in H. lia.
Qed.

Lemma filter_length_le {A : Type} (f : A -> bool) (l : list A) :
  (length (filter f l) <= length l)%nat.
Proof.
  induction l as [|x l IH]; cbn [filter length]; [lia|].
  destruct (f x); cbn [length]; lia.
Qed.

Lemma columnCounts_sample_length (c : Z) (text : jsstring) :
  (length (columnCounts c (sampleLines text)) <= 10)%nat.
Proof.
  unfold columnCounts, sampleLines.
  pose proof (filter_length_le (fun columnCount => 1 <? columnCount)
    (map (fun line => Z.of_nat (length (split_on c line)))
       (filter nonBlank (filter nonBlank (firstn 10 (split_on NEWLINE text)))))) as H1.
  rewrite length_map in H1.
  pose proof (filter_length_le nonBlank
    (filter nonBlank (firstn 10 (split_on NEWLINE text)))) as H2.
  pose proof (filter_length_le nonBlank (firstn 10 (split_on NEWLINE text))) as H3.
  pose proof (firstn_le_length 10 (split_on NEWLINE text)) as H4.
  lia.
Qed.

(** On the sampled lines the score of a candidate that splits a line is the
    specified one, and it is positive. *)
Lemma candidateScore_specified (c : Z) (text : jsstring) :
  columnCounts c (sampleLines text) <> [] ->
  candidateScore (sampleLines text) c = scoreAsSpecified (columnCounts c (sampleLines text))
  /\ flt zero (candidateScore (sampleLines text) c) = true.
Proof.
  intros Hn. unfold candidateScore.
  pose proof (columnCounts_sample_length c text) as Hlen.
  pose proof (columnCounts_all c (sampleLines text)) as Hall.
  destruct (columnCounts c (sampleLines text)) as [|n counts] eqn:E; [congruence|].
  rewrite (scoreOf_specified (n :: counts) Hn Hlen Hall).
  split; [reflexivity|].
  apply big_positive with (k := -52). apply scoreAsSpecified_big; assumption.
Qed.

Lemma candidateScore_splits (c : Z) (text : jsstring) :
  flt zero (candidateScore (sampleLines text) c) = true <->
  columnCounts c (sampleLines text) <> [].
Proof.
  split.
  - intros Hpos Hc. unfold candidateScore in Hpos. rewrite Hc in Hpos. discriminate.
  - intros Hn. apply candidateScore_specified, Hn.
Qed.

(** ** The delimiter detector *)

Section Detector.
Variable lines : list jsstring.

Lemma candidateScore_empty (c : Z) :
  columnCounts c lines = [] -> candidateScore lines c = zero.
Proof. unfold candidateScore. now intros ->. Qed.

Lemma detectStep_inv (seen : list Z) (st : Z * number) (c : Z) :
  detectInv lines seen st -> detectInv lines (seen ++ [c]) (detectStep lines st c).
Proof.
  intros [Hmax Hbest]. unfold detectStep.
  assert (Hzero : flt (snd st) zero = false).
  { destruct Hbest as [[-> _] | [_ [_ Hpos]]]; [reflexivity|].
    now apply SFltb_asym. }
  destruct (columnCounts c lines) as [|n counts] eqn:Hc.
  - (* the candidate splits no line: its score is 0 *)
    pose proof (candidateScore_empty c Hc) as Hs.
    split.
    + intros x Hx. apply in_app_or in Hx. destruct Hx as [Hx | [<- | []]]; auto.
      now rewrite Hs.
    + destruct Hbest as [[-> Hno] | [Hin [Heq Hpos]]].
      * left. split; [reflexivity|]. intros x Hx. apply in_app_or in Hx.
        destruct Hx as [Hx | [<- | []]]; auto. now rewrite Hs.
      * right. split; [apply in_or_app; now left|]. now split.
  - destruct (flt (snd st) (candidateScore lines c)) eqn:Hlt.
    + (* the candidate is adopted *)
      split.
      * intros x Hx. simpl. apply in_app_or in Hx. destruct Hx as [Hx | [<- | []]].
        -- apply (flt_above _ _ _ Hlt). now apply Hmax.
        -- destruct (flt (candidateScore lines c) (candidateScore lines c)) eqn:Hrefl;
             [|reflexivity].
           pose proof (SFltb_asym _ _ Hrefl) as Hcontra. unfold flt in Hrefl. congruence.
      * right. simpl. split; [apply in_or_app; right; now left|]. split; [reflexivity|].
        destruct Hbest as [[-> _] | [_ [_ Hpos]]]; [exact Hlt|].
        exact (SFltb_trans _ _ _ Hpos Hlt).
    + split.
      * intros x Hx. apply in_app_or in Hx. destruct Hx as [Hx | [<- | []]]; auto.
      * destruct Hbest as [[-> Hno] | [Hin [Heq Hpos]]].
        -- left. split; [reflexivity|]. intros x Hx. apply in_app_or in Hx.
           destruct Hx as [Hx | [<- | []]]; auto.
        -- right. split; [apply in_or_app; now left|]. now split.
Qed.

Lemma detectFold_inv (cands seen : list Z) (st : Z * number) :
  detectInv lines seen st ->
  detectInv lines (seen ++ cands) (fold_left (detectStep lines) cands st).
Proof.
  revert seen st. induction cands as [|c cands IH]; intros seen st H; simpl.
  - now rewrite app_nil_r.
  - replace (seen ++ c :: cands) with ((seen ++ [c]) ++ cands)
      by (rewrite <- app_assoc; reflexivity).
    apply IH. now apply detectStep_inv.
Qed.

Lemma detectLoop_inv : detectInv lines delimiters (detectLoop lines).
Proof.
  apply (detectFold_inv delimiters [] (COMMA, zero)).
  split; [intros c []|]. left. split; [reflexivity|intros c []].
Qed.
End Detector.

(** C6, the claim as stated fails: the sample is not the first ten lines
    that are not blank.  After ten empty lines the two lines [a;b] and [c;d]
    are not sampled: over the first ten non-blank lines the semicolon
    scores higher than the comma, and the detector answers comma. *)
Lemma detectDelimiter_misses_late_lines :
  detectDelimiter lateText = [COMMA] /\
  flt (candidateScore (firstTenNonBlank lateText) COMMA)
      (candidateScore (firstTenNonBlank lateText) SEMICOLON) = true.
Proof. vm_compute. split; reflexivity. Qed.

(** C6 (amended).  The sample is made of the lines that are not blank among
    the first ten lines of the text.  Over the sample, a candidate that
    splits some line into more than one column scores
    avgColumns * max(consistency, 0.5) * sampleSize, over the column counts
    of the lines it splits, with consistency 0.8 when the largest count
    exceeds 10 and 1 - (max - min) / avg otherwise; this score is positive,
    and a candidate that splits no line scores 0.  The detector returns one
    of tab, comma, semicolon and pipe that no candidate scores above, one
    that splits a line when some candidate does, and comma when no
    candidate splits any sampled line.  On the three lines [a,b,c], [1,2,3],
    [4,5,6] it returns comma. *)
Theorem detectDelimiter_highest_score :
  (forall text,
      let lines := filter nonBlank (firstn 10 (split_on NEWLINE text)) in
      exists d,
        detectDelimiter text = [d] /\ In d delimiters /\
        (forall c, In c delimiters ->
           flt (candidateScore lines d) (candidateScore lines c) = false) /\
        ((exists c, In c delimiters /\ columnCounts c lines <> []) ->
         columnCounts d lines <> []) /\
        ((forall c, In c delimiters -> columnCounts c lines = []) -> d = COMMA)) /\
  (forall text c,
      let lines := filter nonBlank (firstn 10 (split_on NEWLINE text)) in
      (columnCounts c lines = [] -> candidateScore lines c = zero) /\
      (columnCounts c lines <> [] ->
       candidateScore lines c = scoreAsSpecified (columnCounts c lines) /\
       flt zero (candidateScore lines c) = true)) /\
  sampleLines lateText = [] /\
  detectDelimiter abcText = js ",".
Proof.
  split; [|split; [|split]].
  - intros text lines. fold (sampleLines text) in lines. subst lines.
    exists (fst (detectLoop (sampleLines text))).
    destruct (detectLoop_inv (sampleLines text)) as [Hmax Hbest].
    split; [reflexivity|].
    assert (Hzero : (forall c, In c delimiters ->
                       flt zero (candidateScore (sampleLines text) c) = false) ->
                    forall c, In c delimiters ->
                      candidateScore (sampleLines text) c = zero).
    { intros Hnone c Hc. apply candidateScore_empty.
      destruct (columnCounts c (sampleLines text)) as [|n counts] eqn:E; [reflexivity|].
      assert (Hpos : flt zero (candidateScore (sampleLines text) c) = true).
      { apply candidateScore_splits. rewrite E. discriminate. }
      rewrite (Hnone c Hc) in Hpos. discriminate. }
    split; [|split; [|split]].
    + destruct Hbest as [[-> _] | [Hin _]]; [right; now left|exact Hin].
    + destruct Hbest as [[Hst Hnone] | [Hin [Heq Hp]]].
      * intros c Hc. rewrite Hst. cbn [fst].
        rewrite (Hzero Hnone c Hc), (Hzero Hnone COMMA); [reflexivity|right; now left].
      * rewrite <- Heq. exact Hmax.
    + intros [c [Hc Hn]]. destruct Hbest as [[Hst Hnone] | [Hin [Heq Hp]]].
      * apply candidateScore_splits in Hn. rewrite (Hnone c Hc) in Hn. discriminate.
      * apply candidateScore_splits. rewrite <- Heq. exact Hp.
    + intros Hall. destruct Hbest as [[-> _] | [Hin [Heq Hpos]]]; [reflexivity|].
      rewrite Heq in Hpos.
      rewrite (candidateScore_empty (sampleLines text) _ (Hall _ Hin)) in Hpos.
      discriminate.
  - intros text c lines. fold (sampleLines text) in lines. subst lines. split.
    + apply candidateScore_empty.
    + apply candidateScore_specified.
  - vm_compute. reflexivity.
  - vm_compute. reflexivity.
Qed.

(** On [abcText] the comma splits every line, and no candidate scores above
    the answer. *)
Lemma detectDelimiter_highest_score_witness :
  exists d,
    detectDelimiter abcText = [d] /\
    columnCounts d (sampleLines abcText) <> [] /\
    forall c, In c delimiters ->
      flt (candidateScore (sampleLines abcText) d)
          (candidateScore (sampleLines abcText) c) = false.
Proof.
  destruct (proj1 detectDelimiter_highest_score abcText) as [d [Hd [_ [Hmax [Hsplit _]]]]].
  exists d. split; [exact Hd|]. split; [|exact Hmax].
  apply Hsplit. exists COMMA. split; [right; now left|]. vm_compute. discriminate.
Defined.

(** ** The cell normalizer *)

Lemma normalizeCell_firstMatch (value : jsstring) :
  normalizeCell value
  = match trim value with
    | [] => CStr []
    | trimmed =>
      firstMatch [parenthesisRule; numberRule; percentRule; dateRule; booleanRule]
        trimmed
    end.
Proof.
  unfold normalizeCell. destruct (trim value) as [|c s]; [reflexivity|].
  cbn [firstMatch]. unfold parenthesisRule.
  destruct (includes (js "(") (c :: s) && includes (js ")") (c :: s)); [reflexivity|].
  destruct (numberRule (c :: s)); [reflexivity|].
  destruct (percentRule (c :: s)); [reflexivity|].
  destruct (dateRule (c :: s)); [reflexivity|].
  destruct (booleanRule (c :: s)); reflexivity.
Qed.

(** C5 (confirmed).  The normalizer gives an empty text for a blank value
    and otherwise what the first rule that applies gives, in the order
    parentheses, number, percent, date, boolean, with the trimmed text when
    none applies; so [1,234.5] is the number 1234.5 (2469 * 2^-1), [50%] is
    0.5, [2024-01-01] is that date, [(123)] stays the text [(123)] and [참]
    is true. *)
Theorem normalizeCell_first_match_wins :
  (forall value,
      normalizeCell value
      = match trim value with
        | [] => CStr []
        | trimmed =>
          firstMatch [parenthesisRule; numberRule; percentRule; dateRule; booleanRule]
            trimmed
        end) /\
  normalizeCell (js "1,234.5") = CNum (dyadic 2469 (-1)) /\
  normalizeCell (js "50%") = CNum (dyadic 1 (-1)) /\
  normalizeCell (js "2024-01-01") = CDate (MkDate 2024 1 1) /\
  normalizeCell (js "(123)") = CStr (js "(123)") /\
  normalizeCell (js "참") = CBool true.
Proof.
  split; [exact normalizeCell_firstMatch|].
  vm_compute. repeat split; reflexivity.
Qed.

(** ** The text table *)

Lemma fits_mono (m m' : nat) (data : Table) :
  (m <= m')%nat -> fits m data -> fits m' data.
Proof.
  intros Hm H. unfold fits in *. rewrite Forall_forall in *.
  intros row Hrow. specialize (H row Hrow). lia.
Qed.

Lemma rowStep_fits (data : Table) (m i : nat) (o : lineOutcome) :
  fits m data ->
  fits (snd (rowStep (data, m) i o)) (fst (rowStep (data, m) i o)) /\
  (m <= snd (rowStep (data, m) i o))%nat.
Proof.
  intros H. unfold rowStep. destruct o as [cells|cells];
    destruct ((i =? 0)%nat || existsb notEmptyCell cells); simpl.
  - split; [|lia]. apply Forall_app. split.
    + apply fits_mono with (m := m); [lia|exact H].
    + constructor; [lia|constructor].
  - split; [|lia]. apply fits_mono with (m := m); [lia|exact H].
  - split; [|lia]. apply Forall_app. split.
    + apply fits_mono with (m := m); [lia|exact H].
    + constructor; [lia|constructor].
  - split; [exact H|lia].
Qed.

Lemma rowLoop_fits (os : list lineOutcome) (st : Table * nat) (i : nat) :
  fits (snd st) (fst st) -> fits (snd (rowLoop st i os)) (fst (rowLoop st i os)).
Proof.
  revert st i. induction os as [|o os IH]; intros [data m] i H; simpl; [exact H|].
  apply IH. exact (proj1 (rowStep_fits data m i o H)).
Qed.

Lemma padRow_length (m : nat) (row : Row) :
  (length row <= m)%nat -> length (padRow m row) = m.
Proof. intros H. unfold padRow. rewrite length_app, repeat_length. lia. Qed.

(** Whatever the lines give, the padded table is rectangular. *)
Lemma padRows_rectangular (os : list lineOutcome) :
  let st := rowLoop ([], 0%nat) 0 os in
  Forall (fun row => length row = snd st) (padRows st).
Proof.
  intros st. unfold padRows. apply Forall_map.
  assert (H : fits (snd st) (fst st)) by (apply rowLoop_fits; constructor).
  unfold fits in H. rewrite Forall_forall in *. intros row Hrow.
  apply padRow_length. now apply H.
Qed.

Lemma rowLoop_parsed_width (rows : list Row) (st : Table * nat) (i : nat) :
  snd (rowLoop st i (map Parsed rows))
  = fold_left (fun m row => Nat.max m (length row)) rows (snd st).
Proof.
  revert st i. induction rows as [|row rows IH]; intros [data m] i; simpl; [reflexivity|].
  rewrite IH. f_equal.
  destruct ((i =? 0)%nat || existsb notEmptyCell row); reflexivity.
Qed.

Lemma mapi_from_parsed (d : jsstring) (lines : list jsstring) (i : nat) :
  mapi_from (processLine d) i lines
  = map Parsed (map outcomeCells (mapi_from (processLine d) i lines)).
Proof.
  revert i. induction lines as [|l lines IH]; intros i; simpl; [reflexivity|].
  now rewrite <- IH.
Qed.

Lemma textRows_width (text : jsstring) :
  snd (textRows text) = maxWidth (tokenizedRows text).
Proof.
  unfold textRows, tokenizedRows, maxWidth, mapi.
  pose proof (mapi_from_parsed (detectDelimiter text) (textLines text) 0) as H.
  set (os := mapi_from (processLine (detectDelimiter text)) 0 (textLines text)) in *.
  rewrite H at 1. apply rowLoop_parsed_width.
Qed.

Lemma rowLoop_grows (os : list lineOutcome) (st : Table * nat) (i : nat) :
  (length (fst st) <= length (fst (rowLoop st i os)))%nat.
Proof.
  revert st i. induction os as [|o os IH]; intros [data m] i; cbn [rowLoop]; [lia|].
  etransitivity; [|apply IH].
  unfold rowStep. destruct o as [cells|cells];
    destruct ((i =? 0)%nat || existsb notEmptyCell cells); cbn [fst];
    rewrite ?length_app; simpl; lia.
Qed.

Lemma rowLoop_header_kept (o : lineOutcome) (os : list lineOutcome) :
  fst (rowLoop ([], 0%nat) 0 (o :: os)) <> [].
Proof.
  cbn [rowLoop]. pose proof (rowLoop_grows os (rowStep ([], 0%nat) 0 o) 1) as H.
  intros Heq. rewrite Heq in H. destruct o; simpl in H; lia.
Qed.

Lemma mapi_from_nil {A B} (f : nat -> A -> B) (i : nat) (l : list A) :
  mapi_from f i l = [] <-> l = [].
Proof. destruct l; simpl; split; congruence. Qed.

Lemma textTable_empty (text : jsstring) : textTable text = [] <-> textLines text = [].
Proof.
  unfold textTable, padRows, textRows, mapi. split.
  - intros H. apply map_eq_nil in H.
    destruct (mapi_from (processLine (detectDelimiter text)) 0 (textLines text))
      as [|o os] eqn:Hos.
    + now apply mapi_from_nil in Hos.
    + exfalso. now apply (rowLoop_header_kept o os).
  - intros ->. reflexivity.
Qed.

(** ** Workbooks *)

Lemma book_append_sheet_new (ws : Sheet) (name : jsstring) :
  validName name = true -> book_append_sheet book_new ws name = Ok [(name, ws)].
Proof.
  unfold validName, book_append_sheet. intros H.
  apply andb_true_iff in H. destruct H as [H1 H2].
  apply Nat.leb_le in H1. apply negb_true_iff in H2.
  simpl length at 1. simpl Z.of_nat. simpl (_ <=? _).
  replace (31 <? length name)%nat with false by (symmetry; apply Nat.ltb_ge; lia).
  rewrite H2. reflexivity.
Qed.

Section Results.
Variable E : Collaborators.

Lemma writeSheet_ok (name : jsstring) (data : Table) (opts : Options) :
  validName name = true ->
  writeSheet E name data opts = Ok (XLSX_write E [(name, data)] opts).
Proof.
  intros H. unfold writeSheet. now rewrite (book_append_sheet_new _ _ H).
Qed.

Lemma writeSheet_written (name : jsstring) (data : Table) (opts : Options) :
  validName name = true ->
  exists out, writeSheet E name data opts = Ok out /\ written E out.
Proof.
  intros H. rewrite (writeSheet_ok _ _ _ H). eexists. split; [reflexivity|].
  exists [(name, data)], opts. split; [reflexivity|discriminate].
Qed.

Lemma normalizeFold_throw (wb : WorkBook) (m : jsstring) :
  fold_left (normalizeSheet E) wb (Throw m) = Throw m.
Proof. induction wb as [|e wb IH]; simpl; [reflexivity|exact IH]. Qed.

Lemma normalizeFold_length (wb acc nw : WorkBook) :
  fold_left (normalizeSheet E) wb (Ok acc) = Ok nw ->
  length nw = (length acc + length wb)%nat.
Proof.
  revert acc. induction wb as [|[name ws] wb IH]; intros acc H; simpl in *.
  - injection H as <-. lia.
  - destruct (book_append_sheet acc
                (aoa_to_sheet (map (map normalizeJsonCell)
                   (XLSX_sheet_to_json E ws
                      [prop "header" (ONum 1); prop "defval" ONull; prop "raw" (OBool false)])))
                (substring 0 31 (sanitizeFilename name))) as [acc'|m] eqn:Hb.
    + apply IH in H. rewrite H.
      unfold book_append_sheet in Hb.
      repeat match type of Hb with
             | (if ?c then _ else _) = _ => destruct c; try discriminate
             end.
      injection Hb as <-. rewrite length_app. simpl. lia.
    + rewrite normalizeFold_throw in H. discriminate.
Qed.

Lemma normalizeWorkbook_nonempty (wb nw : WorkBook) :
  normalizeWorkbook E wb = Ok nw -> wb <> [] -> nw <> [].
Proof.
  intros H Hwb Hnw. apply normalizeFold_length in H. subst nw.
  destruct wb; [congruence|]. simpl in H. lia.
Qed.

(** The workbook of delimited-text recovery goes through the normalizer. *)
Lemma sheet1_name : substring 0 31 (sanitizeFilename (js "Sheet1")) = js "Sheet1".
Proof. vm_compute. reflexivity. Qed.

Lemma normalizeWorkbook_sheet1 (data : Table) :
  normalizeWorkbook E [(js "Sheet1", data)]
  = Ok [(js "Sheet1",
         map (map normalizeJsonCell) (XLSX_sheet_to_json E data JSON_TEXT_ROWS))].
Proof.
  unfold normalizeWorkbook. simpl fold_left. unfold normalizeSheet, bind, aoa_to_sheet.
  rewrite sheet1_name. apply book_append_sheet_new. vm_compute. reflexivity.
Qed.

Lemma textBasedRecovery_ok (buffer : Buffer) (text : jsstring) :
  detectAndDecode E buffer = Ok text -> textLines text <> [] ->
  textBasedRecovery E buffer = Ok [(js "Sheet1", textTable text)].
Proof.
  intros Hd Hl. unfold textBasedRecovery. rewrite Hd. simpl bind.
  destruct (textTable text) as [|row rows] eqn:Ht.
  - apply textTable_empty in Ht. contradiction.
  - apply book_append_sheet_new. vm_compute. reflexivity.
Qed.

Lemma textBasedRecovery_empty (buffer : Buffer) (text : jsstring) :
  detectAndDecode E buffer = Ok text -> textLines text = [] ->
  textBasedRecovery E buffer = Throw NO_DATA.
Proof.
  intros Hd Hl. unfold textBasedRecovery. rewrite Hd. simpl bind.
  apply textTable_empty in Hl. now rewrite Hl.
Qed.

(** ** The Excel route never throws *)

Lemma findMeaningfulTextInBuffer_total (buffer : Buffer) (filename : jsstring) :
  exists out, findMeaningfulTextInBuffer E buffer filename = Ok out /\ written E out.
Proof.
  unfold findMeaningfulTextInBuffer, findMeaningfulTexts_try.
  destruct (uniqueTexts buffer filename) as [|t ts].
  - simpl. apply writeSheet_written. vm_compute. reflexivity.
  - rewrite writeSheet_ok by (vm_compute; reflexivity). simpl.
    eexists. split; [reflexivity|]. eexists _, _. split; [reflexivity|discriminate].
Qed.

Lemma extractDataFromSharedStrings_total (buffer : Buffer) (filename content : jsstring) :
  exists out, extractDataFromSharedStrings E buffer filename content = Ok out /\ written E out.
Proof.
  unfold extractDataFromSharedStrings, extractDataFromSharedStrings_try.
  destruct (filter isMeaningful (extractTexts content)).
  - simpl. apply findMeaningfulTextInBuffer_total.
  - destruct (extractTexts content).
    + simpl. apply findMeaningfulTextInBuffer_total.
    + rewrite writeSheet_ok by (vm_compute; reflexivity). simpl.
      eexists. split; [reflexivity|]. eexists _, _. split; [reflexivity|discriminate].
Qed.

Lemma extractDataFromWorksheet_written (content : jsstring) (out : Buffer) :
  extractDataFromWorksheet E content = Ok out -> written E out.
Proof.
  unfold extractDataFromWorksheet. destruct (cellValues content).
  - simpl. discriminate.
  - rewrite writeSheet_ok by (vm_compute; reflexivity). simpl.
    intros H. injection H as <-. eexists _, _. split; [reflexivity|discriminate].
Qed.

Lemma convertBinaryToJsonToXlsx_total (buffer : Buffer) (filename : jsstring) :
  exists out, convertBinaryToJsonToXlsx E buffer filename = Ok out /\ written E out.
Proof.
  unfold convertBinaryToJsonToXlsx.
  destruct (reduce1 moreLines (extractedData buffer)) as [best|m].
  - simpl bind. rewrite writeSheet_ok by (vm_compute; reflexivity). simpl.
    eexists. split; [reflexivity|]. eexists _, _. split; [reflexivity|discriminate].
  - simpl. apply writeSheet_written. vm_compute. reflexivity.
Qed.

Lemma firstReadableWorkbook_nonempty (buffer : Buffer) (opts : list Options) (wb : WorkBook) :
  firstReadableWorkbook E buffer opts = Some wb -> wb <> [].
Proof.
  induction opts as [|o opts IH]; simpl; [discriminate|].
  destruct (XLSX_read E buffer o) as [w|m]; [|exact IH].
  destruct (hasTextInFirstRow (firstSheetRows E w JSON_TEXT_ROWS_NO_BLANK)) eqn:Hh; [|exact IH].
  intros H. injection H as <-. intros ->. simpl in Hh. discriminate.
Qed.

Lemma handleBinaryExcelFile_total (buffer : Buffer) (filename : jsstring) :
  exists out, handleBinaryExcelFile E buffer filename = Ok out /\ written E out.
Proof.
  unfold handleBinaryExcelFile.
  assert (Hfallback : exists out,
             writeSheet E (js "Sheet1") (binaryTextTable buffer filename)
               WRITE_XLSX_COMPRESSED = Ok out /\ written E out)
    by (apply writeSheet_written; vm_compute; reflexivity).
  destruct (firstReadableWorkbook E buffer binaryReadOptions) as [wb|] eqn:Hw.
  - destruct (normalizeWorkbook E wb) as [nw|m] eqn:Hn; simpl.
    + eexists. split; [reflexivity|]. exists nw, WRITE_XLSX_COMPRESSED.
      split; [reflexivity|].
      apply (normalizeWorkbook_nonempty _ _ Hn).
      now apply (firstReadableWorkbook_nonempty _ _ _ Hw).
    + exact Hfallback.
  - destruct (convertBinaryToJsonToXlsx_total buffer filename) as [out [Ho Hwr]].
    rewrite Ho. simpl. now exists out.
Qed.

Lemma readAttempt_written (buffer : Buffer) (o : Options) (out : Buffer) :
  readAttempt E buffer o = Ok (Some out) -> written E out.
Proof.
  unfold readAttempt. destruct (XLSX_read E buffer o) as [wb|m]; simpl; [|discriminate].
  destruct (firstSheetRows E wb JSON_ROWS) as [|row0 rows]; [discriminate|].
  destruct ((0 <? length wb)%nat && (0 <? length row0)%nat && existsb notEmptyCell row0)
    eqn:Hc; [|discriminate].
  destruct (normalizeWorkbook E wb) as [nw|m] eqn:Hn; simpl; [|discriminate].
  intros H. injection H as <-. exists nw, WRITE_XLSX. split; [reflexivity|].
  apply (normalizeWorkbook_nonempty _ _ Hn). intros ->. simpl in Hc. discriminate.
Qed.

Lemma backupAttempt_written (buffer : Buffer) (o : Options) (out : Buffer) :
  backupAttempt E buffer o = Ok (Some out) -> written E out.
Proof.
  unfold backupAttempt. destruct (XLSX_read E buffer o) as [wb|m]; simpl; [|discriminate].
  destruct wb as [|e wb]; [discriminate|].
  destruct (hasTextInFirstRow _); [|discriminate].
  destruct (normalizeWorkbook E (e :: wb)) as [nw|m] eqn:Hn; simpl; [|discriminate].
  intros H. injection H as <-. exists nw, WRITE_XLSX_COMPRESSED. split; [reflexivity|].
  apply (normalizeWorkbook_nonempty _ _ Hn). discriminate.
Qed.

Lemma firstSuccess_written (attempt : Options -> result (option Buffer))
    (opts : list Options) (out : Buffer) :
  (forall o out, attempt o = Ok (Some out) -> written E out) ->
  firstSuccess attempt opts = Some out -> written E out.
Proof.
  intros Ha. induction opts as [|o opts IH]; simpl; [discriminate|].
  destruct (attempt o) as [[out'|]|m] eqn:Ho; try exact IH.
  intros H. injection H as <-. now apply (Ha o).
Qed.

Lemma containerScan_written (buffer : Buffer) (filename : jsstring) (out : Buffer) :
  containerScan E buffer filename = Ok (Some out) -> written E out.
Proof.
  unfold containerScan.
  destruct (decompressedEntry E (toString_latin1 buffer) (js "xl/sharedStrings.xml") 1000).
  - destruct (extractDataFromSharedStrings_total buffer filename j) as [o [Ho Hw]].
    rewrite Ho. simpl. intros H. now injection H as <-.
  - destruct (decompressedEntry E (toString_latin1 buffer) (js "xl/worksheets/sheet1.xml") 2000).
    + destruct (extractDataFromWorksheet E j) eqn:Hx; simpl; [|discriminate].
      intros H. injection H as <-. now apply (extractDataFromWorksheet_written _ _ Hx).
    + discriminate.
Qed.

Lemma handleExcelFile_total (buffer : Buffer) (filename : jsstring) :
  exists out, handleExcelFile E buffer filename = Ok out /\ written E out.
Proof.
  unfold handleExcelFile.
  destruct (firstSuccess (readAttempt E buffer) excelReadOptions) as [out|] eqn:H1.
  { exists out. split; [reflexivity|].
    apply (firstSuccess_written _ _ _ (readAttempt_written buffer) H1). }
  assert (Hrest : exists out,
             match firstSuccess (backupAttempt E buffer) fallbackReadOptions with
             | Some outputBuffer => Ok outputBuffer
             | None => handleBinaryExcelFile E buffer filename
             end = Ok out /\ written E out).
  { destruct (firstSuccess (backupAttempt E buffer) fallbackReadOptions) as [out|] eqn:H2.
    - exists out. split; [reflexivity|].
      apply (firstSuccess_written _ _ _ (backupAttempt_written buffer) H2).
    - apply handleBinaryExcelFile_total. }
  destruct (startsWithPK buffer); [|exact Hrest].
  destruct (containerScan E buffer filename) as [[out|]|m] eqn:Hc; simpl; try exact Hrest.
  exists out. split; [reflexivity|]. now apply (containerScan_written _ _ _ Hc).
Qed.
End Results.

(** ** Routing and the two ways into delimited-text recovery *)

Lemma convertText_recovered (E : Collaborators) (buffer : Buffer) (force : bool) :
  entersTextRecovery E buffer force ->
  convertText E buffer force =
  try_catch
    (workbook <- textBasedRecovery E buffer ;;
     normalizedWorkbook <- normalizeWorkbook E workbook ;;
     Ok (XLSX_write E normalizedWorkbook WRITE_FINAL))
    (fun message => Throw (CONVERSION_FAILED ++ message)).
Proof.
  intros [-> | [m Hm]]; unfold convertText; simpl negb; cbv iota; [reflexivity|].
  destruct force; simpl negb; cbv iota; [reflexivity|]. now rewrite Hm.
Qed.

Lemma convertText_nonblank (E : Collaborators) (buffer : Buffer) (force : bool)
    (text : jsstring) :
  entersTextRecovery E buffer force ->
  detectAndDecode E buffer = Ok text -> textLines text <> [] ->
  exists out, convertText E buffer force = Ok out /\ written E out.
Proof.
  intros He Hd Hl. rewrite (convertText_recovered E buffer force He).
  rewrite (textBasedRecovery_ok E buffer text Hd Hl). cbn [bind].
  rewrite normalizeWorkbook_sheet1. cbn [bind try_catch].
  eexists. split; [reflexivity|]. eexists _, _. split; [reflexivity|discriminate].
Qed.

Lemma convertText_blank (E : Collaborators) (buffer : Buffer) (force : bool)
    (text : jsstring) :
  entersTextRecovery E buffer force ->
  detectAndDecode E buffer = Ok text -> textLines text = [] ->
  convertText E buffer force = Throw (CONVERSION_FAILED ++ NO_DATA).
Proof.
  intros He Hd Hl. rewrite (convertText_recovered E buffer force He).
  now rewrite (textBasedRecovery_empty E buffer text Hd Hl).
Qed.

Lemma convertToXlsx_excel (E : Collaborators) (buffer : Buffer) (filename : jsstring)
    (force : bool) :
  isExcelRoute buffer filename = true ->
  convertToXlsx E buffer filename force = handleExcelFile E buffer filename.
Proof. unfold convertToXlsx. now intros ->. Qed.

Lemma convertToXlsx_text (E : Collaborators) (buffer : Buffer) (filename : jsstring)
    (force : bool) :
  isExcelRoute buffer filename = false ->
  convertToXlsx E buffer filename force = convertText E buffer force.
Proof. unfold convertToXlsx. now intros ->. Qed.

(** On the text route an empty buffer raises, whatever the libraries do:
    the text has no line and the forced path has no further fallback. *)
Lemma forced_empty_buffer_raises (E : Collaborators) (filename : jsstring) :
  isExcelRoute [] filename = false ->
  convertToXlsx E [] filename true = Throw (CONVERSION_FAILED ++ NO_DATA).
Proof.
  intros Hr. rewrite (convertToXlsx_text E [] filename true Hr).
  apply convertText_blank with (text := []); [now left|reflexivity|reflexivity].
Qed.

(** C3, the claim as stated fails: for [book.xlsx] with the force flag set
    the result changes with the structured decoder, so the decoder was run. *)
Lemma forced_flag_ignored_on_excel_route :
  convertToXlsx (withRead rejecting (fun _ _ => Ok decodedBook)) (bytes "a,b")
    (js "book.xlsx") true
  <> convertToXlsx rejecting (bytes "a,b") (js "book.xlsx") true.
Proof. vm_compute. discriminate. Qed.

(** C3 (amended).  For every buffer and file name on the text route
    (extension other than [xlsx] and [xls], no ZIP signature), with the force
    flag set the pipeline is delimited-text recovery followed by the
    normalizer and the writer, and its result does not depend on the
    structured decoder.  For an input on the Excel route the flag is not
    looked at: the pipeline is [handleExcelFile]. *)
Theorem forced_text_recovery (E : Collaborators) (buffer : Buffer) (filename : jsstring) :
  (isExcelRoute buffer filename = false ->
   convertToXlsx E buffer filename true
   = try_catch
       (workbook <- textBasedRecovery E buffer ;;
        normalizedWorkbook <- normalizeWorkbook E workbook ;;
        Ok (XLSX_write E normalizedWorkbook WRITE_FINAL))
       (fun message => Throw (CONVERSION_FAILED ++ message))
   /\ forall read,
       convertToXlsx (withRead E read) buffer filename true
       = convertToXlsx E buffer filename true)
  /\
  (isExcelRoute buffer filename = true ->
   forall force, convertToXlsx E buffer filename force = handleExcelFile E buffer filename).
Proof.
  split.
  - intros Hr. split.
    + rewrite (convertToXlsx_text E buffer filename true Hr).
      apply convertText_recovered. now left.
    + intros read. rewrite !convertToXlsx_text by exact Hr. reflexivity.
  - intros Hr force. now apply convertToXlsx_excel.
Qed.

(** The forced [data.csv] with a decoder that would read a workbook. *)
Lemma forced_text_recovery_witness :
  convertToXlsx (withRead rejecting (fun _ _ => Ok decodedBook)) (bytes "a,b")
    (js "data.csv") true
  = convertToXlsx rejecting (bytes "a,b") (js "data.csv") true.
Proof.
  apply (proj1 (forced_text_recovery rejecting (bytes "a,b") (js "data.csv"))).
  vm_compute. reflexivity.
Defined.

(** ** Cells without null *)

Lemma normalizeCell_not_null (value : jsstring) : normalizeCell value <> CNull.
Proof.
  rewrite normalizeCell_firstMatch. destruct (trim value) as [|c s]; [discriminate|].
  generalize (c :: s). intros t. cbn [firstMatch].
  unfold parenthesisRule.
  destruct (includes (js "(") t && includes (js ")") t); [discriminate|].
  unfold numberRule.
  destruct (re_test RE_number t && negb (includes (js "(") t));
    [destruct (negb (isNaN (parseFloat (re_replace_g RE_comma t [])))
               && isFinite (parseFloat (re_replace_g RE_comma t []))); [discriminate|]|];
    unfold percentRule; destruct (re_exec RE_percent t) as [[m [|g gs]]|];
    try (destruct (negb (isNaN (parseFloat (re_replace_g RE_comma g [])))
                   && isFinite (parseFloat (re_replace_g RE_comma g []))); [discriminate|]);
    unfold dateRule; destruct (re_test RE_simpleDate t);
    try (destruct (parseISO t); [discriminate|]);
    unfold booleanRule;
    repeat match goal with |- context [if ?b then _ else _] => destruct b end;
    discriminate.
Qed.

Lemma normalizeJsonCell_null (cell : Cell) : normalizeJsonCell cell = CNull <-> cell = CNull.
Proof.
  destruct cell; simpl; split; try congruence.
  intros H. now apply normalizeCell_not_null in H.
Qed.

Lemma processLine_nullFree (d : jsstring) (i : nat) (line : jsstring) :
  Forall (fun cell => cell <> CNull) (outcomeCells (processLine d i line)).
Proof.
  unfold processLine. simpl. destruct (i =? 0)%nat; apply Forall_map, Forall_forall.
  - discriminate.
  - intros x _. apply normalizeCell_not_null.
Qed.

Lemma rowLoop_nullFree (os : list lineOutcome) (st : Table * nat) (i : nat) :
  Forall (fun o => Forall (fun cell => cell <> CNull) (outcomeCells o)) os ->
  nullFree (fst st) -> nullFree (fst (rowLoop st i os)).
Proof.
  revert st i. induction os as [|o os IH]; intros [data m] i Hos H; cbn [rowLoop];
    [exact H|].
  inversion Hos as [|? ? Ho Hos']; subst. apply IH; [exact Hos'|].
  unfold rowStep. destruct o as [cells|cells];
    destruct ((i =? 0)%nat || existsb notEmptyCell cells); cbn [fst]; try exact H;
    apply Forall_app; (split; [exact H|constructor; [exact Ho|constructor]]).
Qed.

Lemma mapi_from_Forall {A B} (P : B -> Prop) (f : nat -> A -> B) (i : nat) (l : list A) :
  (forall j a, P (f j a)) -> Forall P (mapi_from f i l).
Proof.
  intros H. revert i. induction l as [|a l IH]; intros i; simpl; constructor; auto.
Qed.

Lemma textTable_nullFree (text : jsstring) : nullFree (textTable text).
Proof.
  unfold textTable, padRows. apply Forall_map.
  assert (H : nullFree (fst (textRows text))).
  { unfold textRows, mapi. apply rowLoop_nullFree; [|constructor].
    apply mapi_from_Forall. intros j a. apply processLine_nullFree. }
  unfold nullFree in H. rewrite Forall_forall in *. intros row Hrow.
  unfold padRow. apply Forall_app. split; [now apply H|].
  apply Forall_forall. intros x Hx. apply repeat_spec in Hx. subst. discriminate.
Qed.

Lemma strTable_nullFree (t : list (list jsstring)) : nullFree (strTable t).
Proof.
  unfold strTable, strRow. apply Forall_map, Forall_forall. intros row _.
  apply Forall_map, Forall_forall. discriminate.
Qed.

Lemma textBasedRecovery_inv (E : Collaborators) (buffer : Buffer) (wb : WorkBook) :
  textBasedRecovery E buffer = Ok wb ->
  exists text, detectAndDecode E buffer = Ok text /\ textLines text <> [] /\
               wb = [(js "Sheet1", textTable text)].
Proof.
  intros H. destruct (detectAndDecode E buffer) as [text|m] eqn:Hd.
  - exists text. destruct (textLines text) as [|l ls] eqn:Hl.
    + rewrite (textBasedRecovery_empty E buffer text Hd Hl) in H. discriminate.
    + rewrite (textBasedRecovery_ok E buffer text Hd) in H by (rewrite Hl; discriminate).
      injection H as <-. repeat split; discriminate.
  - unfold textBasedRecovery in H. rewrite Hd in H. discriminate.
Qed.

Lemma normalizeFold_sheets (E : Collaborators) (wb acc nw : WorkBook) :
  fold_left (normalizeSheet E) wb (Ok acc) = Ok nw ->
  map snd nw
  = map snd acc ++
    map (fun entry : jsstring * Sheet =>
           map (map normalizeJsonCell) (XLSX_sheet_to_json E (snd entry) JSON_TEXT_ROWS)) wb.
Proof.
  revert acc. induction wb as [|[name ws] wb IH]; intros acc H; simpl in *.
  - injection H as <-. now rewrite app_nil_r.
  - destruct (book_append_sheet acc
                (aoa_to_sheet (map (map normalizeJsonCell)
                   (XLSX_sheet_to_json E ws
                      [prop "header" (ONum 1); prop "defval" ONull; prop "raw" (OBool false)])))
                (substring 0 31 (sanitizeFilename name))) as [acc'|m] eqn:Hb.
    + apply IH in H. rewrite H. unfold book_append_sheet in Hb.
      repeat match type of Hb with
             | (if ?c then _ else _) = _ => destruct c; try discriminate
             end.
      injection Hb as <-. rewrite map_app, <- app_assoc. reflexivity.
    + rewrite normalizeFold_throw in H. discriminate.
Qed.

(** C4, the claim as stated fails: a decoded sheet whose first row has no
    cell in its second column goes through the workbook normalizer with a
    null in that position. *)
Lemma normalizeWorkbook_keeps_null :
  exists nw, normalizeWorkbook rejecting gapBook = Ok nw /\ ~ nullFreeWorkbook nw.
Proof.
  eexists. split; [vm_compute; reflexivity|].
  intros H. inversion H as [|? ? Hs _]; subst. simpl in Hs.
  inversion Hs as [|? ? Hrow _]; subst.
  inversion Hrow as [|? ? _ Hrest]; subst.
  inversion Hrest as [|? ? Hnull _]; subst. now apply Hnull.
Qed.

(** C4 (amended).  The cell normalizer never returns null: an absent value
    is the empty text.  Every cell of the workbook of delimited-text recovery
    and of the tables of the miners, which are made of texts, is an empty
    text, a number, a boolean, a date or a text.  The workbook normalizer
    normalizes the text cells of the rows [sheet_to_json] reports and hands
    the other cells on as they are, so that a cell of its result is null
    exactly where [sheet_to_json] reported the null of an absent cell. *)
Theorem cells_never_null (E : Collaborators) :
  (forall value, normalizeCell value <> CNull) /\
  (forall buffer wb, textBasedRecovery E buffer = Ok wb -> nullFreeWorkbook wb) /\
  (forall texts, nullFree (strTable texts)) /\
  (forall cell, normalizeJsonCell cell = CNull <-> cell = CNull) /\
  (forall wb nw,
      normalizeWorkbook E wb = Ok nw ->
      map snd nw
      = map (fun entry : jsstring * Sheet =>
               map (map normalizeJsonCell)
                 (XLSX_sheet_to_json E (snd entry) JSON_TEXT_ROWS)) wb).
Proof.
  split; [exact normalizeCell_not_null|].
  split.
  { intros buffer wb H. destruct (textBasedRecovery_inv E buffer wb H) as [text [_ [_ ->]]].
    constructor; [|constructor]. apply textTable_nullFree. }
  split; [exact strTable_nullFree|].
  split; [exact normalizeJsonCell_null|].
  intros wb nw H. apply (normalizeFold_sheets E wb [] nw H).
Qed.

(** The workbook recovered from the ragged text. *)
Lemma cells_never_null_witness :
  nullFreeWorkbook [(js "Sheet1", textTable raggedText)].
Proof.
  apply (proj1 (proj2 (cells_never_null rejecting))
           (map byte_of_Z raggedText)).
  vm_compute. reflexivity.
Defined.

(** C7 (confirmed).  When delimited-text recovery succeeds its workbook has
    one sheet whose table is not empty; every row of the table has as many
    cells as the longest row the tokenizer produced from the lines of the
    text, kept or not, and is the row that was kept followed by empty
    texts. *)
Theorem textBasedRecovery_rectangular (E : Collaborators) (buffer : Buffer) (wb : WorkBook) :
  textBasedRecovery E buffer = Ok wb ->
  exists text table,
    detectAndDecode E buffer = Ok text /\
    wb = [(js "Sheet1", table)] /\
    table <> [] /\
    Forall (fun row => length row = maxWidth (tokenizedRows text)) table /\
    table = map (fun kept => kept ++ repeat (CStr [])
                               (maxWidth (tokenizedRows text) - length kept))
              (fst (textRows text)).
Proof.
  intros H. destruct (textBasedRecovery_inv E buffer wb H) as [text [Hd [Hl ->]]].
  exists text, (textTable text). split; [exact Hd|]. split; [reflexivity|].
  split; [intros Ht; now apply textTable_empty in Ht|].
  rewrite <- textRows_width. split.
  - apply (padRows_rectangular
             (mapi (processLine (detectDelimiter text)) (textLines text))).
  - reflexivity.
Qed.

(** The ragged text: rows of 2, 1, 4 (dropped) and 3 cells become three rows
    of 4 cells. *)
Lemma textBasedRecovery_rectangular_witness :
  exists text table,
    detectAndDecode rejecting (map byte_of_Z raggedText) = Ok text /\
    [(js "Sheet1", textTable raggedText)] = [(js "Sheet1", table)] /\
    table <> [] /\
    Forall (fun row => length row = maxWidth (tokenizedRows text)) table /\
    table = map (fun kept => kept ++ repeat (CStr [])
                               (maxWidth (tokenizedRows text) - length kept))
              (fst (textRows text)).
Proof.
  apply (textBasedRecovery_rectangular rejecting (map byte_of_Z raggedText)).
  vm_compute. reflexivity.
Defined.

(** ** Decimal digits *)

Lemma digits_go_value (fuel : nat) (n : Z) (acc : jsstring) :
  0 <= n < Z.of_nat fuel ->
  digitsValue (digits_go fuel n acc)
  = fold_left (fun a c => 10 * a + (c - 48)) acc n.
Proof.
  revert n acc. induction fuel as [|fuel IH]; intros n acc Hn; [lia|].
  cbn [digits_go]. destruct (Z.ltb_spec n 10) as [Hlt|Hge].
  - unfold digitsValue. cbn [fold_left]. f_equal.
    rewrite Z.mod_small by lia. lia.
  - rewrite IH.
    + cbn [fold_left]. f_equal.
      pose proof (Z.div_mod n 10 ltac:(lia)). lia.
    + split; [apply Z.div_pos; lia|].
      assert (n / 10 < n) by (apply Z.div_lt; lia). lia.
Qed.

Lemma String_of_nat_value (n : nat) : digitsValue (String_of_nat n) = Z.of_nat n.
Proof. unfold String_of_nat. rewrite digits_go_value; [reflexivity|lia]. Qed.

(** C9, the claim as stated fails: for the two bytes 00 FF named [a.b] the
    miner finds no token, and the table it emits has five rows. *)
Lemma zero_tokens_table_has_five_rows :
  uniqueTexts [x00; xff] (js "a.b") = [] /\
  exists table,
    findMeaningfulTextInBuffer rejecting [x00; xff] (js "a.b")
    = Ok (XLSX_write rejecting [(js "FileStatus", table)] WRITE_XLSX_COMPRESSED)
    /\ length table = 5%nat
    /\ ~ oneRow table.
Proof.
  split; [vm_compute; reflexivity|].
  exists (fileStatusTable [x00; xff] (js "a.b")).
  split; [vm_compute; reflexivity|]. split; [reflexivity|].
  unfold oneRow. simpl. lia.
Qed.

(** C9 (amended).  When the byte-scan miner finds no token, in the buffer
    under the encodings it tries and in the parts of the file name, the
    workbook it writes has one sheet, [FileStatus], with a table of five rows
    and two columns: a header, a row stating that the file is damaged and
    that no meaningful text was found, a row with the file name, a row with
    the byte length in decimal followed by [bytes], and a recommendation. *)
Theorem zero_tokens_diagnostic (E : Collaborators) (buffer : Buffer) (filename : jsstring) :
  uniqueTexts buffer filename = [] ->
  findMeaningfulTextInBuffer E buffer filename
  = Ok (XLSX_write E
          [(js "FileStatus",
            strTable
              [[js "상태"; js "설명"];
               [js "파일 손상"; js "의미있는 텍스트를 찾을 수 없습니다"];
               [js "파일명"; filename];
               [js "파일 크기"; String_of_nat (length buffer) ++ js " bytes"];
               [js "권장사항"; js "원본 파일을 다시 확인해주세요"]])]
          WRITE_XLSX_COMPRESSED)
  /\ digitsValue (String_of_nat (length buffer)) = Z.of_nat (length buffer).
Proof.
  intros H. split; [|apply String_of_nat_value].
  unfold findMeaningfulTextInBuffer, findMeaningfulTexts_try. rewrite H.
  cbn [try_catch]. apply writeSheet_ok. vm_compute. reflexivity.
Qed.

(** The two bytes 00 FF named [a.b]. *)
Lemma zero_tokens_diagnostic_witness :
  uniqueTexts [x00; xff] (js "a.b") = [] /\
  findMeaningfulTextInBuffer rejecting [x00; xff] (js "a.b")
  = Ok (XLSX_write rejecting
          [(js "FileStatus",
            strTable
              [[js "상태"; js "설명"];
               [js "파일 손상"; js "의미있는 텍스트를 찾을 수 없습니다"];
               [js "파일명"; js "a.b"];
               [js "파일 크기"; js "2 bytes"];
               [js "권장사항"; js "원본 파일을 다시 확인해주세요"]])]
          WRITE_XLSX_COMPRESSED).
Proof.
  assert (H : uniqueTexts [x00; xff] (js "a.b") = []) by (vm_compute; reflexivity).
  split; [exact H|].
  exact (proj1 (zero_tokens_diagnostic rejecting [x00; xff] (js "a.b") H)).
Defined.

(** C10 (confirmed).  [processFile] returns a result for every buffer, file
    name and force flag and never throws.  A result without success carries
    the original file name, the length of the buffer as original size, a
    message and no converted buffer; and the result is without success when
    the extension is not supported, when the buffer is too large and when
    the conversion throws, in which case the message is the one thrown. *)
Theorem processFile_total (E : Collaborators) (input : Buffer)
    (originalFilename : jsstring) (forceTextRecovery : bool) :
  exists r,
    processFile E input originalFilename forceTextRecovery = Ok r /\
    (success r = false ->
     filename r = originalFilename /\ originalSize r = length input /\
     (exists m, message r = Some m) /\ buffer r = None) /\
    (validateFileExtension originalFilename = false -> success r = false) /\
    (validateFileSize (Z.of_nat (length input)) = false -> success r = false) /\
    (forall m, convertToXlsx E input originalFilename forceTextRecovery = Throw m ->
               success r = false /\
               (validateFileExtension originalFilename = true ->
                validateFileSize (Z.of_nat (length input)) = true ->
                message r = Some m)).
Proof.
  unfold processFile, processFile_try.
  destruct (validateFileExtension originalFilename) eqn:Hext; cbn [negb].
  2:{ eexists. split; [reflexivity|]. cbn.
      repeat split; try reflexivity; eauto; intros; discriminate. }
  destruct (validateFileSize (Z.of_nat (length input))) eqn:Hsize; cbn [negb].
  2:{ eexists. split; [reflexivity|]. cbn.
      repeat split; try reflexivity; eauto; intros; discriminate. }
  destruct (convertToXlsx E input originalFilename forceTextRecovery) as [out|m] eqn:Hc;
    cbn [bind try_catch].
  - eexists. split; [reflexivity|]. cbn.
    repeat split; try discriminate.
  - eexists. split; [reflexivity|]. cbn.
    repeat split; try reflexivity; eauto; try discriminate;
      intros; try congruence.
Qed.

(* ================================================================== *)
(** * Part IV: further properties of the code                          *)
(* ================================================================== *)

Lemma Forall_checked {A : Type} (f : A -> bool) (l : list A) :
  forallb f l = true -> Forall (fun x => f x = true) l.
Proof.
  intros H. apply Forall_forall. intros x Hx.
  exact (proj1 (forallb_forall f l) H x Hx).
Qed.

(** ** The matcher on one-character patterns and on runs *)

Lemma rmatch_Rep (ic : bool) (lo : nat) (hi : option nat) (g : bool) (r1 : regex)
    (st : mstate) (k : mstate -> option mstate) :
  rmatch ic (Rep lo hi g r1) st k = repMust ic r1 g k lo hi lo st.
Proof. reflexivity. Qed.

Lemma scan_all_positions (ic : bool) (r : regex) (rest pre : jsstring) (skip st : nat)
    (m : jsstring) :
  In (st, m) (scan_all ic r pre rest skip) -> (length pre <= st)%nat.
Proof.
  revert pre skip. induction rest as [|c rest IH]; intros pre skip H.
  - destruct skip; simpl in H; [|contradiction].
    destruct (match_at ic r pre []); simpl in H; [|contradiction].
    destruct H as [H|[]]. inversion H. lia.
  - destruct skip as [|skip]; cbn [scan_all] in H.
    + destruct (match_at ic r pre (c :: rest)).
      * destruct H as [H|H]; [inversion H; lia|].
        apply IH in H. simpl in H. lia.
      * apply IH in H. simpl in H. lia.
    + apply IH in H. simpl in H. lia.
Qed.

Lemma replace_go_cons (ms : list (nat * jsstring)) (pos : nat) (c : Z) (s repl : jsstring) :
  (forall st m, In (st, m) ms -> (S pos <= st)%nat) ->
  replace_go ms pos (c :: s) repl = c :: replace_go ms (S pos) s repl.
Proof.
  destruct ms as [|[st m] ms]; intros H; [reflexivity|].
  pose proof (H st m (or_introl eq_refl)) as Hst. cbn [replace_go].
  replace (st - pos)%nat with (S (st - S pos)) by lia.
  cbn [firstn Nat.add skipn app]. reflexivity.
Qed.

Lemma scan_all_skip (ic : bool) (r : regex) (a b pre : jsstring) :
  scan_all ic r pre (a ++ b) (length a) = scan_all ic r (rev a ++ pre) b 0.
Proof.
  revert pre. induction a as [|c a IH]; intros pre; [reflexivity|].
  cbn [app length scan_all]. rewrite IH. cbn [rev]. rewrite <- app_assoc. reflexivity.
Qed.

Lemma takeRun_dropRun (ok : Z -> bool) (s : jsstring) : s = takeRun ok s ++ dropRun ok s.
Proof.
  induction s as [|c s IH]; simpl; [reflexivity|].
  destruct (ok c); simpl; [now f_equal|reflexivity].
Qed.

Lemma takeRun_all (ok : Z -> bool) (s : jsstring) : forallb ok (takeRun ok s) = true.
Proof.
  induction s as [|c s IH]; simpl; [reflexivity|].
  destruct (ok c) eqn:E; simpl; [now rewrite E|reflexivity].
Qed.

Lemma dropRun_head (ok : Z -> bool) (s : jsstring) :
  match dropRun ok s with c :: _ => ok c = false | [] => True end.
Proof.
  induction s as [|c s IH]; simpl; [exact I|].
  destruct (ok c) eqn:E; simpl; [exact IH|exact E].
Qed.

Lemma flushRun_nil (lo : nat) (repl : jsstring) : flushRun lo repl [] = [].
Proof. unfold flushRun. simpl. now rewrite andb_false_r. Qed.

Section OneCharacter.
Variable ic : bool.
Variable r1 : regex.
Variable ok : Z -> bool.
Hypothesis r1_char : forall st k, rmatch ic r1 st k = step_char st ok k.

Lemma match_at_char (pre rest : jsstring) :
  match_at ic r1 pre rest =
  match rest with
  | c :: rest' => if ok c then Some (MkM (c :: pre) rest' []) else None
  | [] => None
  end.
Proof. unfold match_at. rewrite r1_char. reflexivity. Qed.

Lemma replace_char (repl rest pre : jsstring) :
  replace_go (scan_all ic r1 pre rest 0) (length pre) rest repl
  = flat_map (fun c => if ok c then repl else [c]) rest.
Proof.
  revert pre. induction rest as [|c rest IH]; intros pre.
  - cbn [scan_all]. rewrite match_at_char. reflexivity.
  - cbn [scan_all]. rewrite match_at_char. cbn [flat_map].
    destruct (ok c) eqn:Hc.
    + cbn [m_rest length]. replace (S (length rest) - length rest)%nat with 1%nat by lia.
      cbn [firstn length Nat.sub replace_go].
      rewrite Nat.sub_diag. cbn [firstn app Nat.add skipn].
      replace (length pre + 1)%nat with (length (c :: pre)) by (simpl; lia).
      rewrite IH. reflexivity.
    + rewrite replace_go_cons.
      * change (S (length pre)) with (length (c :: pre)). rewrite IH. reflexivity.
      * intros st m H. apply scan_all_positions in H. simpl in H. lia.
Qed.

Lemma repMore_run (fuel : nat) (pre rest : jsstring) (caps : list jsstring) :
  (length rest < fuel)%nat ->
  repMore ic r1 true Some fuel None (MkM pre rest caps)
  = Some (MkM (rev (takeRun ok rest) ++ pre) (dropRun ok rest) caps).
Proof.
  revert pre rest. induction fuel as [|fuel IH]; intros pre rest Hf; [lia|].
  cbn [repMore]. rewrite r1_char. unfold step_char. cbn [m_rest m_pre m_caps].
  destruct rest as [|c rest]; [reflexivity|].
  cbn [takeRun dropRun]. destruct (ok c) eqn:Hc; [|reflexivity].
  cbn [m_rest length]. replace (length rest <? S (length rest))%nat with true
    by (symmetry; apply Nat.ltb_lt; lia).
  cbn [option_map]. rewrite IH by (simpl in Hf; lia).
  cbn [rev]. rewrite <- app_assoc. reflexivity.
Qed.

Lemma repMust_run (lo n : nat) (pre rest : jsstring) (caps : list jsstring) :
  repMust ic r1 true Some lo None n (MkM pre rest caps)
  = if (n <=? length (takeRun ok rest))%nat
    then Some (MkM (rev (takeRun ok rest) ++ pre) (dropRun ok rest) caps)
    else None.
Proof.
  revert pre rest. induction n as [|n IH]; intros pre rest.
  - cbn [repMust option_map m_rest]. rewrite repMore_run by lia. reflexivity.
  - cbn [repMust]. rewrite r1_char. unfold step_char. cbn [m_rest m_pre m_caps].
    destruct rest as [|c rest]; [reflexivity|].
    cbn [takeRun dropRun]. destruct (ok c) eqn:Hc; [|reflexivity].
    rewrite IH. cbn [length]. change (S n <=? S (length (takeRun ok rest)))%nat
      with (n <=? length (takeRun ok rest))%nat.
    cbn [rev]. rewrite <- app_assoc. reflexivity.
Qed.

Lemma match_at_run (lo : nat) (pre rest : jsstring) :
  match_at ic (Rep lo None true r1) pre rest
  = if (lo <=? length (takeRun ok rest))%nat
    then Some (MkM (rev (takeRun ok rest) ++ pre) (dropRun ok rest) [])
    else None.
Proof. unfold match_at. rewrite rmatch_Rep. apply repMust_run. Qed.

Lemma replaceRuns_run (lo : nat) (repl run tail acc : jsstring) :
  forallb ok run = true ->
  replaceRuns ok lo repl (run ++ tail) acc = replaceRuns ok lo repl tail (acc ++ run).
Proof.
  revert acc. induction run as [|c run IH]; intros acc H.
  - now rewrite app_nil_r.
  - simpl in H. apply andb_prop in H. destruct H as [Hc Hrun].
    cbn [app replaceRuns]. rewrite Hc, IH by exact Hrun.
    rewrite <- app_assoc. reflexivity.
Qed.

Lemma replaceRuns_flush (lo : nat) (repl tail acc : jsstring) :
  match tail with c :: _ => ok c = false | [] => True end ->
  replaceRuns ok lo repl tail acc
  = flushRun lo repl acc ++ replaceRuns ok lo repl tail [].
Proof.
  destruct tail as [|c tail]; intros H; cbn [replaceRuns].
  - rewrite flushRun_nil. now rewrite app_nil_r.
  - rewrite H. rewrite flushRun_nil. reflexivity.
Qed.

Lemma replace_runs (lo : nat) (repl : jsstring) (n : nat) (rest pre : jsstring) :
  (1 <= lo)%nat -> (length rest <= n)%nat ->
  replace_go (scan_all ic (Rep lo None true r1) pre rest 0) (length pre) rest repl
  = replaceRuns ok lo repl rest [].
Proof.
  intros Hlo. revert rest pre. induction n as [|n IH]; intros rest pre Hn.
  - destruct rest; [|simpl in Hn; lia].
    cbn [scan_all]. rewrite match_at_run. cbn [takeRun length].
    replace (lo <=? 0)%nat with false by (symmetry; apply Nat.leb_gt; lia).
    cbn [replace_go replaceRuns]. now rewrite flushRun_nil.
  - destruct rest as [|c rest].
    { cbn [scan_all]. rewrite match_at_run. cbn [takeRun length].
      replace (lo <=? 0)%nat with false by (symmetry; apply Nat.leb_gt; lia).
      cbn [replace_go replaceRuns]. now rewrite flushRun_nil. }
    cbn [scan_all]. rewrite match_at_run.
    pose proof (takeRun_dropRun ok (c :: rest)) as Hsplit.
    pose proof (takeRun_all ok (c :: rest)) as Hall.
    pose proof (dropRun_head ok (c :: rest)) as Hhead.
    set (run := takeRun ok (c :: rest)) in *.
    set (tail := dropRun ok (c :: rest)) in *.
    assert (Hlen : length (c :: rest) = (length run + length tail)%nat)
      by (rewrite Hsplit at 1; apply length_app).
    destruct (Nat.leb_spec lo (length run)) as [Hge|Hlt].
    + (* the run is replaced *)
      cbn [m_rest].
      replace (length (c :: rest) - length tail)%nat with (length run) by lia.
      assert (Hfirst : firstn (length run) (c :: rest) = run).
      { rewrite Hsplit at 1. rewrite firstn_app, Nat.sub_diag, firstn_all. cbn [firstn].
        now rewrite app_nil_r. }
      rewrite Hfirst. cbn [replace_go]. rewrite Nat.sub_diag. cbn [firstn app Nat.add].
      assert (Hskip : skipn (length run) (c :: rest) = tail).
      { rewrite Hsplit at 1. rewrite skipn_app, Nat.sub_diag, skipn_all. reflexivity. }
      rewrite Hskip.
      destruct run as [|c' run'] eqn:Erun; [simpl in Hge; lia|].
      assert (Ec : c' = c /\ rest = run' ++ tail).
      { cbn [app] in Hsplit. inversion Hsplit. split; reflexivity. }
      destruct Ec as [-> Erest].
      cbn [length Nat.sub]. rewrite Nat.sub_0_r.
      rewrite Erest at 1. rewrite scan_all_skip.
      replace (length pre + S (length run'))%nat with (length (rev run' ++ c :: pre))
        by (rewrite length_app, length_rev; simpl; lia).
      rewrite IH by (cbn [length] in *; lia).
      assert (Hrhs : replaceRuns ok lo repl (c :: rest) []
                     = repl ++ replaceRuns ok lo repl tail []).
      { rewrite Hsplit. rewrite replaceRuns_run by exact Hall.
        rewrite (replaceRuns_flush lo repl tail ([] ++ c :: run')) by exact Hhead.
        cbn [app]. unfold flushRun.
        replace (lo <=? length (c :: run'))%nat with true
          by (symmetry; apply Nat.leb_le; exact Hge).
        reflexivity. }
      rewrite Hrhs. reflexivity.
    + (* the run is too short: the scan moves one character on *)
      rewrite replace_go_cons.
      2:{ intros st m H. apply scan_all_positions in H. simpl in H. lia. }
      change (S (length pre)) with (length (c :: pre)).
      rewrite IH by (cbn [length] in *; lia).
      destruct (ok c) eqn:Hc.
      * assert (Erun : run = c :: takeRun ok rest) by (unfold run; simpl; now rewrite Hc).
        assert (Etail : tail = dropRun ok rest) by (unfold tail; simpl; now rewrite Hc).
        pose proof (takeRun_dropRun ok rest) as Hsplit'.
        pose proof (takeRun_all ok rest) as Hall'.
        rewrite Etail in Hhead. rewrite Erun in Hlt. cbn [length] in Hlt.
        set (tr := takeRun ok rest) in *. set (dr := dropRun ok rest) in *.
        assert (H1 : replaceRuns ok lo repl rest [c]
                     = (c :: tr) ++ replaceRuns ok lo repl dr []).
        { rewrite Hsplit'. rewrite replaceRuns_run by exact Hall'.
          rewrite (replaceRuns_flush lo repl dr ([c] ++ tr)) by exact Hhead.
          unfold flushRun. cbn [app length].
          replace (lo <=? S (length tr))%nat with false
            by (symmetry; apply Nat.leb_gt; lia).
          reflexivity. }
        assert (H2 : replaceRuns ok lo repl rest []
                     = tr ++ replaceRuns ok lo repl dr []).
        { rewrite Hsplit'. rewrite replaceRuns_run by exact Hall'.
          rewrite (replaceRuns_flush lo repl dr ([] ++ tr)) by exact Hhead.
          unfold flushRun. cbn [app].
          replace (lo <=? length tr)%nat with false
            by (symmetry; apply Nat.leb_gt; lia).
          reflexivity. }
        cbn [replaceRuns]. rewrite Hc. cbn [app]. rewrite H1, H2. reflexivity.
      * cbn [replaceRuns]. rewrite Hc, flushRun_nil. reflexivity.
Qed.
End OneCharacter.

(** ** Replacing with a pattern of the source *)

Lemma rmatch_Cls (ic neg : bool) (rs : list (Z * Z)) (st : mstate)
    (k : mstate -> option mstate) :
  rmatch ic (Cls neg rs) st k = step_char st (fun c => xorb neg (cls_match ic rs c)) k.
Proof. reflexivity. Qed.

Lemma rmatch_Chr (ic : bool) (p : Z) (st : mstate) (k : mstate -> option mstate) :
  rmatch ic (Chr p) st k = step_char st (chr_eq ic p) k.
Proof. reflexivity. Qed.

Lemma cls_match_plain (rs : list (Z * Z)) (c : Z) : cls_match false rs c = in_ranges rs c.
Proof. unfold cls_match. cbn [andb]. now rewrite orb_false_r. Qed.

(** [s.replace(/[...]/g, repl)] and [s.replace(/[^...]/g, repl)] *)
Lemma replace_class (neg : bool) (rs : list (Z * Z)) (s repl : jsstring) :
  re_replace_g (re (Cls neg rs)) s repl
  = flat_map (fun c => if xorb neg (in_ranges rs c) then repl else [c]) s.
Proof.
  unfold re_replace_g, re. cbn [p_icase p_re].
  pose proof (replace_char false (Cls neg rs) (fun c => xorb neg (cls_match false rs c))
                (rmatch_Cls false neg rs) repl s []) as H.
  cbn [length] in H. rewrite H.
  apply flat_map_ext. intros c. now rewrite cls_match_plain.
Qed.

(** [s.replace(/[...]{lo,}/g, repl)] *)
Lemma replace_class_runs (rs : list (Z * Z)) (lo : nat) (s repl : jsstring) :
  (1 <= lo)%nat ->
  re_replace_g (re (Rep lo None true (Cls false rs))) s repl
  = replaceRuns (in_ranges rs) lo repl s [].
Proof.
  intros Hlo. unfold re_replace_g, re. cbn [p_icase p_re].
  pose proof (replace_runs false (Cls false rs)
                (fun c => xorb false (cls_match false rs c))
                (rmatch_Cls false false rs) lo repl (length s) s [] Hlo (le_n _)) as H.
  cbn [length] in H. rewrite H.
  clear Hlo H. generalize (@nil Z). induction s as [|c s IH]; intros run; [reflexivity|].
  cbn [replaceRuns xorb]. rewrite cls_match_plain. now rewrite !IH.
Qed.

(** [s.replace(/c{lo,}/g, repl)] *)
Lemma replace_char_runs (p : Z) (lo : nat) (s repl : jsstring) :
  (1 <= lo)%nat ->
  re_replace_g (re (Rep lo None true (Chr p))) s repl
  = replaceRuns (Z.eqb p) lo repl s [].
Proof.
  intros Hlo. unfold re_replace_g, re. cbn [p_icase p_re].
  exact (replace_runs false (Chr p) (chr_eq false p) (rmatch_Chr false p) lo repl
           (length s) s [] Hlo (le_n _)).
Qed.

(** ** What replacing runs keeps *)

Lemma flushRun_cases (lo : nat) (repl run : jsstring) :
  flushRun lo repl run = repl \/ flushRun lo repl run = run.
Proof. unfold flushRun. destruct (_ && _); auto. Qed.

Lemma replaceRuns_Forall (P : Z -> Prop) (ok : Z -> bool) (lo : nat)
    (repl s run : jsstring) :
  Forall P repl -> Forall P s -> Forall P run ->
  Forall P (replaceRuns ok lo repl s run).
Proof.
  intros Hrepl. revert run. induction s as [|c s IH]; intros run Hs Hrun; cbn [replaceRuns].
  - destruct (flushRun_cases lo repl run) as [-> | ->]; assumption.
  - inversion Hs; subst. destruct (ok c).
    + apply IH; [assumption|]. apply Forall_app. split; [assumption|now constructor].
    + apply Forall_app. split.
      * destruct (flushRun_cases lo repl run) as [-> | ->]; assumption.
      * constructor; [assumption|]. apply IH; [assumption|constructor].
Qed.

Lemma adjacent_cons_other (c a : Z) (s : jsstring) :
  a <> c -> adjacent c (a :: s) = adjacent c s.
Proof.
  intros H. destruct s as [|b s]; [reflexivity|].
  cbn [adjacent]. replace (a =? c) with false by (symmetry; apply Z.eqb_neq; exact H).
  reflexivity.
Qed.

Lemma adjacent_one_other (c a : Z) (s : jsstring) :
  a <> c -> adjacent c (c :: a :: s) = adjacent c s.
Proof.
  intros H. change (adjacent c (c :: a :: s))
    with (((c =? c) && (a =? c)) || adjacent c (a :: s)).
  replace (a =? c) with false by (symmetry; apply Z.eqb_neq; exact H).
  rewrite andb_false_r. cbn [orb]. now apply adjacent_cons_other.
Qed.

(** Collapsing the runs of two or more [c] into one [c] leaves no two
    adjacent [c]. *)
Lemma collapse_not_adjacent (c : Z) (s run : jsstring) :
  Forall (eq c) run ->
  adjacent c (replaceRuns (Z.eqb c) 2 [c] s run) = false.
Proof.
  revert run. induction s as [|a s IH]; intros run Hrun; cbn [replaceRuns].
  - unfold flushRun. destruct run as [|x [|y run]]; reflexivity.
  - destruct (Z.eqb_spec c a) as [<- | Hne].
    + apply IH. apply Forall_app. split; [assumption|now constructor].
    + specialize (IH [] (Forall_nil _)).
      assert (Hflush : flushRun 2 [c] run = [] \/ flushRun 2 [c] run = [c]).
      { unfold flushRun. destruct run as [|x [|y run]]; cbn; auto.
        inversion Hrun; subst. now right. }
      destruct Hflush as [-> | ->]; cbn [app].
      * rewrite adjacent_cons_other by congruence. exact IH.
      * rewrite adjacent_one_other by congruence. exact IH.
Qed.

(** A string without two adjacent [c] has no run to collapse. *)
Lemma collapse_id (c : Z) (s run : jsstring) :
  run = [] \/ run = [c] ->
  adjacent c (run ++ s) = false ->
  replaceRuns (Z.eqb c) 2 [c] s run = run ++ s.
Proof.
  revert run. induction s as [|a s IH]; intros run Hrun Hadj; cbn [replaceRuns].
  - rewrite app_nil_r. destruct Hrun as [-> | ->]; reflexivity.
  - destruct (Z.eqb_spec c a) as [<- | Hne].
    + destruct Hrun as [-> | ->].
      * cbn [app] in *. rewrite (IH [c]); [reflexivity|now right|exact Hadj].
      * cbn [app adjacent] in Hadj. rewrite Z.eqb_refl in Hadj. discriminate.
    + assert (Hs : adjacent c s = false).
      { destruct Hrun as [-> | ->]; cbn [app] in Hadj.
        - now rewrite adjacent_cons_other in Hadj by congruence.
        - now rewrite adjacent_one_other in Hadj by congruence. }
      rewrite (IH [] (or_introl eq_refl) Hs). cbn [app].
      destruct Hrun as [-> | ->]; reflexivity.
Qed.

Lemma adjacent_infix (c : Z) (s a b : jsstring) :
  adjacent c s = false -> s <> a ++ [c; c] ++ b.
Proof.
  revert s. induction a as [|x a IH]; intros s H E; subst s.
  - cbn [app adjacent] in H. rewrite Z.eqb_refl in H. discriminate.
  - apply (IH (a ++ [c; c] ++ b)); [|reflexivity].
    cbn [app] in H. destruct (a ++ c :: c :: b) as [|y t] eqn:Et.
    + destruct a; discriminate.
    + cbn [adjacent] in H. apply orb_false_elim in H. cbn [app]. rewrite Et. apply H.
Qed.

(** ** [sanitizeFilename] *)

Lemma filename_class (c : Z) :
  in_ranges (c_word ++ c_hangul ++ [one "."; one "-"; one "_"]) c = filenameChar c.
Proof.
  change (c_word ++ c_hangul ++ [one "."; one "-"; one "_"])
    with [(48, 57); (65, 90); (95, 95); (97, 122); (0xAC00, 0xD7A3);
          (46, 46); (45, 45); (95, 95)].
  unfold in_ranges, filenameChar, isWordChar, isDigit, isHangul. cbn [existsb fst snd].
  apply eq_true_iff_eq.
  rewrite !orb_true_iff, !andb_true_iff, !Z.leb_le, !Z.eqb_eq. lia.
Qed.

Lemma filenameChar_not_space (c : Z) : filenameChar c = true -> isWhiteSpace c = false.
Proof.
  unfold filenameChar, isWordChar, isDigit, isHangul, isWhiteSpace. intros H.
  apply not_true_is_false. revert H.
  rewrite !orb_true_iff, !andb_true_iff, !Z.leb_le, !Z.eqb_eq. lia.
Qed.

Lemma trim_no_space (s : jsstring) :
  Forall (fun c => isWhiteSpace c = false) s -> trim s = s.
Proof.
  intros H. apply trim_id.
  - destruct s as [|c s]; [exact I|]. inversion H; subst. assumption.
  - unfold endsClean. apply Forall_rev in H.
    destruct (rev s) as [|c t]; [exact I|]. inversion H; subst. assumption.
Qed.

(** The text before [trim] and the test for the empty string. *)
Lemma sanitized_text (filename : jsstring) :
  re_replace_g RE_underscores (re_replace_g RE_notFilenameChar filename (js "_")) (js "_")
  = replaceRuns (Z.eqb UNDERSCORE) 2 [UNDERSCORE]
      (map (fun c => if filenameChar c then c else UNDERSCORE) filename) [].
Proof.
  unfold RE_notFilenameChar, RE_underscores, atleast.
  change (ch "_") with UNDERSCORE. change (js "_") with [UNDERSCORE].
  rewrite replace_char_runs by lia. rewrite replace_class. f_equal.
  induction filename as [|c s IH]; [reflexivity|].
  cbn [flat_map map]. rewrite IH, filename_class. cbn [xorb].
  destruct (filenameChar c); reflexivity.
Qed.

Lemma sanitized_chars (filename : jsstring) :
  Forall (fun c => filenameChar c = true)
    (replaceRuns (Z.eqb UNDERSCORE) 2 [UNDERSCORE]
       (map (fun c => if filenameChar c then c else UNDERSCORE) filename) []).
Proof.
  apply replaceRuns_Forall; [repeat constructor| |constructor].
  apply Forall_forall. intros x Hx. apply in_map_iff in Hx.
  destruct Hx as [c [<- _]]. destruct (filenameChar c) eqn:E; [exact E|reflexivity].
Qed.

Lemma sanitizeFilename_eq (filename : jsstring) :
  sanitizeFilename filename =
  let sanitized :=
    replaceRuns (Z.eqb UNDERSCORE) 2 [UNDERSCORE]
      (map (fun c => if filenameChar c then c else UNDERSCORE) filename) [] in
  match sanitized with
  | [] => js "converted_file"
  | _ => sanitized
  end.
Proof.
  unfold sanitizeFilename. rewrite sanitized_text. rewrite trim_no_space; [reflexivity|].
  eapply Forall_impl; [|apply sanitized_chars]. apply filenameChar_not_space.
Qed.

Lemma sanitizeFilename_shape (filename : jsstring) :
  sanitizeFilename filename <> [] /\
  Forall (fun c => filenameChar c = true) (sanitizeFilename filename) /\
  adjacent UNDERSCORE (sanitizeFilename filename) = false.
Proof.
  rewrite sanitizeFilename_eq. cbv zeta.
  pose proof (sanitized_chars filename) as Hchars.
  pose proof (collapse_not_adjacent UNDERSCORE
                (map (fun c => if filenameChar c then c else UNDERSCORE) filename) []
                (Forall_nil _)) as Hadj.
  destruct (replaceRuns (Z.eqb UNDERSCORE) 2 [UNDERSCORE]
              (map (fun c => if filenameChar c then c else UNDERSCORE) filename) [])
    as [|c s].
  - split; [discriminate|]. split; [|vm_compute; reflexivity].
    apply Forall_checked. vm_compute. reflexivity.
  - split; [discriminate|]. split; [exact Hchars|exact Hadj].
Qed.

(** X1.  Whatever the name, [sanitizeFilename] returns a name that is not
    empty, in which every character is a letter, a digit, an underscore, a
    Hangul syllable, a dot or a hyphen, and in which no two underscores are
    adjacent. *)
Theorem sanitizeFilename_safe (filename : jsstring) :
  sanitizeFilename filename <> [] /\
  Forall (fun c => filenameChar c = true) (sanitizeFilename filename) /\
  forall a b, sanitizeFilename filename <> a ++ js "__" ++ b.
Proof.
  destruct (sanitizeFilename_shape filename) as [Hne [Hchars Hadj]].
  split; [exact Hne|]. split; [exact Hchars|].
  intros a b. apply (adjacent_infix UNDERSCORE). exact Hadj.
Qed.

(** X2.  A name that is not empty, made of the characters the sanitizer
    keeps and without two adjacent underscores, is returned as it is; so
    sanitizing twice is sanitizing once. *)
Theorem sanitizeFilename_fixed :
  (forall filename,
      filename <> [] ->
      Forall (fun c => filenameChar c = true) filename ->
      adjacent UNDERSCORE filename = false ->
      sanitizeFilename filename = filename) /\
  (forall filename,
      sanitizeFilename (sanitizeFilename filename) = sanitizeFilename filename).
Proof.
  assert (Hfix : forall filename,
             filename <> [] ->
             Forall (fun c => filenameChar c = true) filename ->
             adjacent UNDERSCORE filename = false ->
             sanitizeFilename filename = filename).
  { intros filename Hne Hchars Hadj. rewrite sanitizeFilename_eq. cbv zeta.
    assert (Hmap : map (fun c => if filenameChar c then c else UNDERSCORE) filename
                   = filename).
    { clear Hne Hadj. induction Hchars as [|c s Hc _ IH]; [reflexivity|].
      cbn [map]. now rewrite Hc, IH. }
    rewrite Hmap. rewrite (collapse_id UNDERSCORE filename []); [|now left|exact Hadj].
    cbn [app]. destruct filename; [congruence|reflexivity]. }
  split; [exact Hfix|].
  intros filename. destruct (sanitizeFilename_shape filename) as [Hne [Hchars Hadj]].
  now apply Hfix.
Qed.

Lemma sanitizeFilename_fixed_witness :
  sanitizeFilename (js "report_2024.v1") = js "report_2024.v1".
Proof.
  apply (proj1 sanitizeFilename_fixed).
  - vm_compute. discriminate.
  - apply Forall_checked. vm_compute. reflexivity.
  - vm_compute. reflexivity.
Defined.

(** ** [normalizeHeaderField] *)

Lemma space_class (c : Z) : in_ranges c_space c = isWhiteSpace c.
Proof.
  unfold in_ranges, c_space, isWhiteSpace. cbn [existsb fst snd].
  apply eq_true_iff_eq.
  rewrite !orb_true_iff, !andb_true_iff, !Z.leb_le, !Z.eqb_eq. lia.
Qed.

Lemma control_class (c : Z) : in_ranges [(0x00, 0x1F); (0x7F, 0x9F)] c = isControl c.
Proof.
  unfold in_ranges, isControl. cbn [existsb fst snd]. now rewrite orb_false_r.
Qed.

Lemma unsafe_class (c : Z) :
  in_ranges (c_word ++ c_space ++ c_hangul ++
             [one "("; one ")"; one "["; one "]"; one "{"; one "}";
              one "."; one ","; one "-"; one "_"]) c
  = isWordChar c || isWhiteSpace c || isHangul c || headerPunctuation c.
Proof.
  change [one "("; one ")"; one "["; one "]"; one "{"; one "}";
          one "."; one ","; one "-"; one "_"]
    with [(40, 40); (41, 41); (91, 91); (93, 93); (123, 123); (125, 125);
          (46, 46); (44, 44); (45, 45); (95, 95)].
  unfold in_ranges, c_word, c_space, c_hangul, isWordChar, isDigit, isWhiteSpace,
    isHangul, headerPunctuation.
  cbn [existsb fst snd app].
  apply eq_true_iff_eq.
  rewrite !orb_true_iff, !andb_true_iff, !Z.leb_le, !Z.eqb_eq. lia.
Qed.

Lemma flat_map_filter (keep : Z -> bool) (s : jsstring) :
  flat_map (fun c => if negb (keep c) then [] else [c]) s = filter keep s.
Proof.
  induction s as [|c s IH]; [reflexivity|].
  cbn [flat_map filter]. rewrite IH. destruct (keep c); reflexivity.
Qed.

Lemma replaceRuns_ext (ok ok' : Z -> bool) (lo : nat) (repl s run : jsstring) :
  (forall c, ok c = ok' c) ->
  replaceRuns ok lo repl s run = replaceRuns ok' lo repl s run.
Proof.
  intros H. revert run. induction s as [|c s IH]; intros run; [reflexivity|].
  cbn [replaceRuns]. now rewrite H, !IH.
Qed.

Lemma normalizeHeaderField_eq (value : jsstring) :
  normalizeHeaderField value =
  match trim value with
  | [] => []
  | _ => match headerText (trim value) with
         | [] => js "컬럼"
         | _ => headerText (trim value)
         end
  end.
Proof.
  unfold normalizeHeaderField. destruct (trim value) as [|c t] eqn:Et; [reflexivity|].
  cbv zeta.
  assert (H : re_replace_g RE_spaces
                (trim (re_replace_g RE_unsafe (re_replace_g RE_control (c :: t) []) []))
                (js " ")
              = headerText (c :: t)).
  { unfold RE_spaces, RE_unsafe, RE_control, plus, headerText.
    rewrite replace_class_runs by lia. rewrite !replace_class.
    change (js " ") with [SPACE].
    rewrite (replaceRuns_ext _ _ 1 [SPACE] _ [] space_class).
    f_equal. f_equal.
    rewrite <- (flat_map_filter (fun c => isWordChar c || isWhiteSpace c || isHangul c
                                          || headerPunctuation c)).
    rewrite <- (flat_map_filter (fun c => negb (isControl c))).
    set (inner := flat_map _ (c :: t)).
    set (inner' := flat_map _ (c :: t)).
    assert (Hin : inner = inner').
    { unfold inner, inner'. apply flat_map_ext. intros x.
      rewrite control_class. cbn [xorb]. now rewrite negb_involutive. }
    rewrite Hin. apply flat_map_ext. intros x. rewrite unsafe_class. reflexivity. }
  rewrite H. reflexivity.
Qed.

Lemma flushRun_one (repl run : jsstring) :
  flushRun 1 repl run = match run with [] => [] | _ => repl end.
Proof. unfold flushRun. destruct run; reflexivity. Qed.

Section SpaceRuns.
Variable ok : Z -> bool.
Variable sp : Z.
Hypothesis ok_sp : ok sp = true.

Lemma runs_chars (P : Z -> Prop) (s run : jsstring) :
  P sp -> (forall c, In c s -> ok c = false -> P c) ->
  Forall P (replaceRuns ok 1 [sp] s run).
Proof.
  intros Hsp. revert run. induction s as [|c s IH]; intros run Hs; cbn [replaceRuns].
  - rewrite flushRun_one. destruct run; repeat constructor; exact Hsp.
  - destruct (ok c) eqn:Hc.
    + apply IH. intros x Hx. apply Hs. now right.
    + apply Forall_app. split.
      * rewrite flushRun_one. destruct run; repeat constructor; exact Hsp.
      * constructor; [apply Hs; [now left|exact Hc]|].
        apply IH. intros x Hx. apply Hs. now right.
Qed.

Lemma runs_not_adjacent (s run : jsstring) :
  adjacent sp (replaceRuns ok 1 [sp] s run) = false.
Proof.
  revert run. induction s as [|a s IH]; intros run; cbn [replaceRuns].
  - rewrite flushRun_one. destruct run; reflexivity.
  - destruct (ok a) eqn:Ha; [apply IH|].
    assert (Hne : a <> sp) by (intros ->; congruence).
    rewrite flushRun_one. destruct run; cbn [app].
    + rewrite adjacent_cons_other by exact Hne. apply IH.
    + rewrite adjacent_one_other by exact Hne. apply IH.
Qed.

Lemma runs_last (s run : jsstring) (c : Z) :
  ok c = false ->
  replaceRuns ok 1 [sp] (s ++ [c]) run = replaceRuns ok 1 [sp] s run ++ [c].
Proof.
  intros Hc. revert run. induction s as [|a s IH]; intros run; cbn [app replaceRuns].
  - rewrite Hc, flushRun_nil. reflexivity.
  - destruct (ok a); [apply IH|]. rewrite IH, <- app_assoc. reflexivity.
Qed.

Lemma runs_id (s run : jsstring) :
  (forall c, In c s -> ok c = true -> c = sp) ->
  run = [] \/ run = [sp] ->
  adjacent sp (run ++ s) = false ->
  replaceRuns ok 1 [sp] s run = run ++ s.
Proof.
  revert run. induction s as [|a s IH]; intros run Hs Hrun Hadj; cbn [replaceRuns].
  - rewrite app_nil_r, flushRun_one. destruct Hrun as [-> | ->]; reflexivity.
  - destruct (ok a) eqn:Ha.
    + assert (a = sp) by (apply Hs; [now left|exact Ha]). subst a.
      destruct Hrun as [-> | ->].
      * cbn [app] in *. rewrite (IH [sp]); [reflexivity| |now right|exact Hadj].
        intros x Hx. apply Hs. now right.
      * cbn [app adjacent] in Hadj. rewrite Z.eqb_refl in Hadj. discriminate.
    + assert (Hne : a <> sp) by (intros ->; congruence).
      assert (Hs' : adjacent sp s = false).
      { destruct Hrun as [-> | ->]; cbn [app] in Hadj.
        - now rewrite adjacent_cons_other in Hadj by exact Hne.
        - now rewrite adjacent_one_other in Hadj by exact Hne. }
      rewrite (IH []); [|intros x Hx; apply Hs; now right|now left|exact Hs'].
      rewrite flushRun_one. cbn [app]. destruct Hrun as [-> | ->]; reflexivity.
Qed.
End SpaceRuns.

Lemma trim_subset (s : jsstring) (c : Z) : In c (trim s) -> In c s.
Proof.
  intros H. unfold trim in H.
  destruct (trimEnd_split (trimStart s)) as [ws [H1 _]].
  destruct (trimStart_split s) as [ws' [H2 _]].
  rewrite H2. apply in_or_app. right. rewrite H1. apply in_or_app. now left.
Qed.

Lemma endsClean_last (s : jsstring) :
  endsClean s -> s = [] \/ exists s' c, s = s' ++ [c] /\ isWhiteSpace c = false.
Proof.
  unfold endsClean, startsClean. intros H.
  destruct (rev s) as [|c t] eqn:Er.
  - left. apply (f_equal (@rev Z)) in Er. now rewrite rev_involutive in Er.
  - right. exists (rev t), c. split; [|exact H].
    apply (f_equal (@rev Z)) in Er. rewrite rev_involutive in Er. exact Er.
Qed.

Lemma headerChar_keep (c : Z) :
  headerChar c = true ->
  negb (isControl c) = true
  /\ isWordChar c || isWhiteSpace c || isHangul c || headerPunctuation c = true
  /\ (isWhiteSpace c = true -> c = SPACE).
Proof.
  unfold headerChar, isControl, isWordChar, isDigit, isHangul, headerPunctuation,
    isWhiteSpace, SPACE.
  rewrite negb_true_iff, <- not_true_iff_false.
  rewrite !orb_true_iff, !andb_true_iff, !Z.leb_le, !Z.eqb_eq. lia.
Qed.

Lemma keep_headerChar (c : Z) :
  isWordChar c || isWhiteSpace c || isHangul c || headerPunctuation c = true ->
  isWhiteSpace c = false -> headerChar c = true.
Proof.
  unfold headerChar. intros H Hs. rewrite Hs in H.
  rewrite orb_false_r in H. now rewrite H.
Qed.

Lemma headerText_props (trimmed : jsstring) :
  Forall (fun c => headerChar c = true) (headerText trimmed)
  /\ adjacent SPACE (headerText trimmed) = false
  /\ trim (headerText trimmed) = headerText trimmed.
Proof.
  unfold headerText.
  set (s2 := filter (fun c => isWordChar c || isWhiteSpace c || isHangul c
                              || headerPunctuation c)
               (filter (fun c => negb (isControl c)) trimmed)).
  split; [|split].
  - apply (runs_chars isWhiteSpace SPACE (fun c => headerChar c = true));
      [reflexivity|].
    intros c Hin Hs. apply trim_subset in Hin. apply filter_In in Hin.
    apply keep_headerChar; [apply Hin|exact Hs].
  - apply (runs_not_adjacent isWhiteSpace SPACE eq_refl).
  - destruct (trim_clean s2) as [Hstart Hend].
    apply trim_id.
    + destruct (trim s2) as [|c t]; [exact I|].
      unfold startsClean in Hstart. cbn [replaceRuns]. rewrite Hstart, flushRun_nil.
      exact Hstart.
    + destruct (endsClean_last _ Hend) as [-> | [s' [c [-> Hc]]]]; [exact I|].
      rewrite runs_last by exact Hc. unfold endsClean. rewrite rev_app_distr. exact Hc.
Qed.

Lemma filter_all (keep : Z -> bool) (s : jsstring) :
  Forall (fun c => keep c = true) s -> filter keep s = s.
Proof.
  induction 1 as [|c s Hc _ IH]; [reflexivity|]. cbn [filter]. now rewrite Hc, IH.
Qed.

(** A header made as [headerText] makes them is normalized to itself. *)
Lemma normalizeHeaderField_fixed (r : jsstring) :
  r <> [] -> Forall (fun c => headerChar c = true) r ->
  adjacent SPACE r = false -> trim r = r ->
  normalizeHeaderField r = r.
Proof.
  intros Hne Hchars Hadj Htrim. rewrite normalizeHeaderField_eq, Htrim.
  assert (Htext : headerText r = r).
  { unfold headerText.
    rewrite (filter_all (fun c => negb (isControl c)))
      by (eapply Forall_impl; [|exact Hchars]; intros c Hc; apply (headerChar_keep c Hc)).
    rewrite (filter_all (fun c => isWordChar c || isWhiteSpace c || isHangul c
                                  || headerPunctuation c))
      by (eapply Forall_impl; [|exact Hchars]; intros c Hc; apply (headerChar_keep c Hc)).
    rewrite Htrim.
    rewrite (runs_id isWhiteSpace SPACE eq_refl r []); [reflexivity| |now left|exact Hadj].
    intros c Hin Hs. rewrite Forall_forall in Hchars.
    apply (headerChar_keep c (Hchars c Hin)). exact Hs. }
  rewrite Htext. destruct r; [congruence|reflexivity].
Qed.

(** X3.  [normalizeHeaderField] returns the empty string exactly for a
    blank value.  Its result is made of letters, digits, underscores,
    Hangul syllables, the punctuation [( ) [ ] { } . , -] and single spaces
    U+0020: it holds no control character, no two adjacent spaces, and
    neither starts nor ends with white space. *)
Theorem normalizeHeaderField_safe (value : jsstring) :
  (normalizeHeaderField value = [] <-> trim value = []) /\
  Forall (fun c => headerChar c = true /\ isControl c = false)
    (normalizeHeaderField value) /\
  (forall a b, normalizeHeaderField value <> a ++ js "  " ++ b) /\
  trim (normalizeHeaderField value) = normalizeHeaderField value.
Proof.
  rewrite normalizeHeaderField_eq.
  destruct (trim value) as [|c t] eqn:Et.
  - split; [tauto|]. split; [constructor|]. split; [|reflexivity].
    intros [|x a] b; discriminate.
  - destruct (headerText_props (c :: t)) as [Hchars [Hadj Htrim]].
    assert (Hboth : forall r, Forall (fun c => headerChar c = true) r ->
                      Forall (fun c => headerChar c = true /\ isControl c = false) r).
    { intros r Hr. eapply Forall_impl; [|exact Hr]. intros x Hx. split; [exact Hx|].
      apply negb_true_iff. apply (headerChar_keep x Hx). }
    destruct (headerText (c :: t)) as [|h r] eqn:Eh.
    + split; [split; discriminate|]. split.
      * apply Hboth. apply Forall_checked. vm_compute. reflexivity.
      * split; [|vm_compute; reflexivity].
        intros a b. apply (adjacent_infix SPACE). vm_compute. reflexivity.
    + split; [split; discriminate|]. split; [apply Hboth; exact Hchars|].
      split; [|exact Htrim].
      intros a b. apply (adjacent_infix SPACE). exact Hadj.
Qed.

(** X4.  Normalizing a header twice is normalizing it once. *)
Theorem normalizeHeaderField_idempotent (value : jsstring) :
  normalizeHeaderField (normalizeHeaderField value) = normalizeHeaderField value.
Proof.
  rewrite (normalizeHeaderField_eq value).
  destruct (trim value) as [|c t] eqn:Et; [reflexivity|].
  destruct (headerText_props (c :: t)) as [Hchars [Hadj Htrim]].
  destruct (headerText (c :: t)) as [|h r] eqn:Eh.
  - vm_compute. reflexivity.
  - apply normalizeHeaderField_fixed; [discriminate|exact Hchars|exact Hadj|exact Htrim].
Qed.

(** ** [validateFileExtension] *)

Lemma lastIndexOf_go_absent (d : Z) (s : jsstring) (i from : nat) (best : option nat) :
  ~ In d s -> lastIndexOf_go [d] s i from best = best.
Proof.
  revert i best. induction s as [|c s IH]; intros i best Hs; cbn [lastIndexOf_go starts_with].
  - now rewrite andb_false_r.
  - replace (d =? c) with false
      by (symmetry; apply Z.eqb_neq; intros ->; apply Hs; now left).
    cbn [andb]. rewrite andb_false_r. apply IH. intros H. apply Hs. now right.
Qed.

Lemma lastIndexOf_go_last (d : Z) (stem e : jsstring) (i from : nat) (best : option nat) :
  (i + length stem <= from)%nat -> ~ In d e ->
  lastIndexOf_go [d] (stem ++ d :: e) i from best = Some (i + length stem)%nat.
Proof.
  revert i best. induction stem as [|c stem IH]; intros i best Hfrom He.
  - cbn [app lastIndexOf_go starts_with]. rewrite Z.eqb_refl. cbn [andb].
    replace (i <=? from)%nat with true
      by (symmetry; apply Nat.leb_le; simpl in Hfrom; lia).
    cbn [andb]. rewrite lastIndexOf_go_absent by exact He. f_equal. simpl. lia.
  - cbn [app lastIndexOf_go]. rewrite IH by (simpl in Hfrom; try lia; exact He).
    f_equal. simpl. lia.
Qed.

Lemma lower_unit_dot (c : Z) : In DOT (lower_unit c) -> c = DOT.
Proof.
  unfold lower_unit, DOT. intros H.
  destruct ((65 <=? c) && (c <=? 90)) eqn:E1.
  - apply andb_prop in E1. destruct E1 as [A B]. apply Z.leb_le in A, B.
    destruct H as [H|[]]. lia.
  - destruct (c =? 304).
    + destruct H as [H|[H|[]]]; lia.
    + destruct (c =? 8490); destruct H as [H|[]]; lia.
Qed.

Lemma toLowerCase_dot (s : jsstring) : In DOT (toLowerCase s) -> In DOT s.
Proof.
  unfold toLowerCase. intros H. apply in_flat_map in H.
  destruct H as [c [Hc Hd]]. apply lower_unit_dot in Hd. now subst.
Qed.

Lemma lower_unit_length (c : Z) : c <> DOTTED_I -> length (lower_unit c) = 1%nat.
Proof.
  unfold lower_unit, DOTTED_I. intros H.
  destruct ((65 <=? c) && (c <=? 90)); [reflexivity|].
  destruct (Z.eqb_spec c 304); [congruence|].
  destruct (c =? 8490); reflexivity.
Qed.

Lemma lower_unit_longer (c : Z) : (1 <= length (lower_unit c))%nat.
Proof.
  unfold lower_unit.
  destruct ((65 <=? c) && (c <=? 90)); [simpl; lia|].
  destruct (c =? 304); [simpl; lia|]. destruct (c =? 8490); simpl; lia.
Qed.

Lemma toLowerCase_length (s : jsstring) :
  ~ In DOTTED_I s -> length (toLowerCase s) = length s.
Proof.
  induction s as [|c s IH]; intros H; [reflexivity|].
  unfold toLowerCase in *. cbn [flat_map]. rewrite length_app.
  rewrite lower_unit_length by (intros ->; apply H; now left).
  rewrite IH by (intros Hin; apply H; now right). reflexivity.
Qed.

Lemma toLowerCase_longer (s : jsstring) :
  In DOTTED_I s -> (length s < length (toLowerCase s))%nat.
Proof.
  assert (Hle : forall t, (length t <= length (toLowerCase t))%nat).
  { induction t as [|c t IH]; [simpl; lia|].
    unfold toLowerCase in *. cbn [flat_map length]. rewrite length_app.
    pose proof (lower_unit_longer c). lia. }
  induction s as [|c s IH]; intros H; [contradiction|].
  unfold toLowerCase in *. cbn [flat_map length]. rewrite length_app.
  destruct H as [-> | H].
  - specialize (Hle s). unfold toLowerCase in Hle. cbn. lia.
  - specialize (IH H). pose proof (lower_unit_longer c). lia.
Qed.

Lemma supported_shape (ext : jsstring) :
  existsb (str_eqb ext) SUPPORTED_EXTENSIONS = true ->
  exists t, ext = DOT :: t /\ ~ In DOT t.
Proof.
  intros H. apply existsb_exists in H. destruct H as [x [Hx Heq]].
  unfold str_eqb in Heq. destruct (list_eq_dec Z.eq_dec ext x); [|discriminate]. subst x.
  assert (Hall : Forall (fun x => exists t, x = DOT :: t /\ ~ In DOT t) SUPPORTED_EXTENSIONS).
  { repeat constructor;
      (eexists; split; [vm_compute; reflexivity|
                        cbn [In]; unfold DOT; intros H; repeat destruct H as [H|H]; lia]). }
  rewrite Forall_forall in Hall. now apply Hall.
Qed.

(** X5.  A name without a dot is rejected.  For a name that ends with a dot
    followed by characters none of which is a dot, and whose part before
    that dot holds no U+0130, the answer is whether the text from that dot
    on, in lower case, is one of [.xls], [.xlsx], [.csv], [.tsv], [.txt]. *)
Theorem validateFileExtension_last_dot :
  (forall filename, ~ In DOT filename -> validateFileExtension filename = false) /\
  (forall stem e,
      ~ In DOT e -> ~ In DOTTED_I stem ->
      validateFileExtension (stem ++ DOT :: e)
      = existsb (str_eqb (DOT :: toLowerCase e)) SUPPORTED_EXTENSIONS).
Proof.
  split.
  - intros filename Hdot. unfold validateFileExtension, lastIndexOf_end, lastIndexOf.
    change (js ".") with [DOT]. rewrite lastIndexOf_go_absent by exact Hdot.
    cbn [orElse]. unfold substring_from. cbn [skipn].
    destruct (existsb (str_eqb (toLowerCase filename)) SUPPORTED_EXTENSIONS) eqn:E;
      [|reflexivity].
    destruct (supported_shape _ E) as [t [Ht _]].
    exfalso. apply Hdot. apply toLowerCase_dot. rewrite Ht. now left.
  - intros stem e He Hstem.
    unfold validateFileExtension, lastIndexOf_end, lastIndexOf.
    change (js ".") with [DOT].
    rewrite lastIndexOf_go_last by (rewrite ?length_app; simpl; try lia; exact He).
    cbn [orElse Nat.add]. unfold substring_from, toLowerCase.
    rewrite flat_map_app. cbn [flat_map].
    change (lower_unit DOT) with [DOT]. cbn [app].
    fold (toLowerCase stem). fold (toLowerCase e).
    rewrite <- (toLowerCase_length stem Hstem).
    rewrite skipn_app, Nat.sub_diag, skipn_all. reflexivity.
Qed.

Lemma validateFileExtension_last_dot_witness :
  validateFileExtension (js "Report.2024" ++ DOT :: js "XLSX") = true.
Proof.
  rewrite (proj2 validateFileExtension_last_dot (js "Report.2024") (js "XLSX")).
  - vm_compute. reflexivity.
  - vm_compute. intros H. repeat destruct H as [H|H]; try discriminate H. exact H.
  - vm_compute. intros H. repeat destruct H as [H|H]; try discriminate H. exact H.
Defined.

(** X6.  The position of the last dot is taken in the name as given and
    used in its lower case: a name with a U+0130 before its last dot is
    rejected whatever its extension, since lower case makes that part
    longer. *)
Theorem validateFileExtension_dotted_I (stem e : jsstring) :
  In DOTTED_I stem -> ~ In DOT e ->
  validateFileExtension (stem ++ DOT :: e) = false.
Proof.
  intros Hstem He.
  unfold validateFileExtension, lastIndexOf_end, lastIndexOf.
  change (js ".") with [DOT].
  rewrite lastIndexOf_go_last by (rewrite ?length_app; simpl; try lia; exact He).
  cbn [orElse Nat.add]. unfold substring_from, toLowerCase.
  rewrite flat_map_app. cbn [flat_map].
  change (lower_unit DOT) with [DOT]. cbn [app].
  fold (toLowerCase stem). fold (toLowerCase e).
  pose proof (toLowerCase_longer stem Hstem) as Hlen.
  rewrite skipn_app.
  replace (length stem - length (toLowerCase stem))%nat with 0%nat by lia.
  cbn [skipn].
  destruct (skipn (length stem) (toLowerCase stem)) as [|p ps] eqn:Ep.
  { apply (f_equal (@length Z)) in Ep. rewrite length_skipn in Ep. simpl in Ep. lia. }
  destruct (existsb (str_eqb ((p :: ps) ++ DOT :: toLowerCase e)) SUPPORTED_EXTENSIONS)
    eqn:E; [|reflexivity].
  destruct (supported_shape _ E) as [t [Ht Hno]].
  exfalso. cbn [app] in Ht. inversion Ht; subst. apply Hno.
  apply in_or_app. right. now left.
Qed.

Lemma validateFileExtension_dotted_I_witness :
  validateFileExtension ([DOTTED_I] ++ DOT :: js "xlsx") = false.
Proof.
  apply validateFileExtension_dotted_I.
  - now left.
  - vm_compute. intros H. repeat destruct H as [H|H]; try discriminate H. exact H.
Defined.

(** ** The extension the router reads *)

Lemma split_go_none (sep : Z) (s cur : jsstring) :
  ~ In sep s -> split_go sep s cur = [cur ++ s].
Proof.
  revert cur. induction s as [|c s IH]; intros cur Hn; cbn [split_go].
  - now rewrite app_nil_r.
  - destruct (c =? sep) eqn:Ec.
    + apply Z.eqb_eq in Ec. exfalso. apply Hn. now left.
    + rewrite IH by (intros H; apply Hn; now right).
      now rewrite <- app_assoc.
Qed.

Lemma split_go_cons (sep : Z) (s cur : jsstring) :
  exists piece pieces, split_go sep s cur = piece :: pieces.
Proof.
  revert cur. induction s as [|c s IH]; intros cur; cbn [split_go].
  - now exists cur, [].
  - destruct (c =? sep); [now eexists _, _|apply IH].
Qed.

Lemma split_go_last (sep : Z) (a b cur d : jsstring) :
  ~ In sep b -> last (split_go sep (a ++ sep :: b) cur) d = b.
Proof.
  intros Hn. revert cur. induction a as [|x a IH]; intros cur; cbn [app split_go].
  - rewrite Z.eqb_refl. rewrite (split_go_none sep b [] Hn). reflexivity.
  - destruct (x =? sep); [|apply IH].
    specialize (IH []). destruct (split_go_cons sep (a ++ sep :: b) []) as [p [ps E]].
    rewrite E in IH |- *. exact IH.
Qed.

Lemma toLowerCase_app (a b : jsstring) :
  toLowerCase (a ++ b) = toLowerCase a ++ toLowerCase b.
Proof. unfold toLowerCase. apply flat_map_app. Qed.

Lemma fileExtension_last (stem e : jsstring) :
  ~ In DOT e -> fileExtension (stem ++ DOT :: e) = toLowerCase e.
Proof.
  intros Hn. unfold fileExtension, split_on.
  rewrite toLowerCase_app.
  change (toLowerCase (DOT :: e)) with (ch "." :: toLowerCase e).
  apply split_go_last. intros H. apply Hn. now apply toLowerCase_dot.
Qed.

Lemma fileExtension_whole (name : jsstring) :
  ~ In DOT name -> fileExtension name = toLowerCase name.
Proof.
  intros Hn. unfold fileExtension, split_on.
  rewrite split_go_none; [reflexivity|].
  intros H. apply Hn. now apply toLowerCase_dot.
Qed.

(** X7.  The router reads the extension as the lower case of what follows
    the last dot of the name, whatever stands before that dot, and as the
    lower case of the whole name when the name has no dot: a file named
    [XLS] is routed to the Excel path. *)
Theorem isExcelRoute_extension (buffer : Buffer) :
  (forall stem e,
      ~ In DOT e ->
      isExcelRoute buffer (stem ++ DOT :: e)
      = str_eqb (toLowerCase e) (js "xlsx") || str_eqb (toLowerCase e) (js "xls")
        || isZipFile buffer) /\
  (forall name,
      ~ In DOT name ->
      isExcelRoute buffer name
      = str_eqb (toLowerCase name) (js "xlsx") || str_eqb (toLowerCase name) (js "xls")
        || isZipFile buffer).
Proof.
  split.
  - intros stem e Hn. unfold isExcelRoute. now rewrite fileExtension_last.
  - intros name Hn. unfold isExcelRoute. now rewrite fileExtension_whole.
Qed.

Lemma isExcelRoute_extension_witness :
  isExcelRoute [] (js "XLS") = true /\
  isExcelRoute [] (js "a.b.Xlsx") = true.
Proof.
  destruct (isExcelRoute_extension []) as [Hlast Hwhole]. split.
  - rewrite Hwhole; [vm_compute; reflexivity|vm_compute; intuition discriminate].
  - change (js "a.b.Xlsx") with (js "a.b" ++ DOT :: js "Xlsx").
    rewrite Hlast; [vm_compute; reflexivity|vm_compute; intuition discriminate].
Defined.

(** ** The tokenizer outside quotes *)

Lemma scanLine_plain (sep : Z) (line cur qc : jsstring) (res : list jsstring) :
  ~ In QUOTE line -> ~ In APOSTROPHE line ->
  scanLine [sep] line cur false qc res = res ++ map trim (split_go sep line cur).
Proof.
  revert cur res. induction line as [|c rest IH]; intros cur res Hq Ha; [reflexivity|].
  cbn [scanLine negb split_go].
  replace (c =? QUOTE) with false
    by (symmetry; apply Z.eqb_neq; intros ->; apply Hq; now left).
  replace (c =? APOSTROPHE) with false
    by (symmetry; apply Z.eqb_neq; intros ->; apply Ha; now left).
  cbn [orb]. rewrite str_eqb_single.
  assert (Hq' : ~ In QUOTE rest) by (intros H; apply Hq; now right).
  assert (Ha' : ~ In APOSTROPHE rest) by (intros H; apply Ha; now right).
  destruct (c =? sep).
  - rewrite IH by assumption. cbn [map]. rewrite <- app_assoc. reflexivity.
  - apply IH; assumption.
Qed.

Lemma trimStart_ws_app (ws s : jsstring) :
  forallb isWhiteSpace ws = true -> trimStart (ws ++ s) = trimStart s.
Proof.
  induction ws as [|c ws IH]; intros H; [reflexivity|].
  simpl in H. apply andb_prop in H. destruct H as [Hc Hws].
  cbn [app trimStart]. rewrite Hc. now apply IH.
Qed.

Lemma trimEnd_app_ws (s ws : jsstring) :
  forallb isWhiteSpace ws = true -> trimEnd (s ++ ws) = trimEnd s.
Proof.
  intros H. unfold trimEnd. rewrite rev_app_distr. rewrite trimStart_ws_app; [reflexivity|].
  rewrite forallb_forall in *. intros x Hx. apply H. now apply in_rev.
Qed.

Lemma trimStart_all_ws (ws : jsstring) :
  forallb isWhiteSpace ws = true -> trimStart ws = [].
Proof.
  intros H. rewrite <- (app_nil_r ws). now rewrite trimStart_ws_app.
Qed.

Lemma trim_app_ws (s ws : jsstring) :
  forallb isWhiteSpace ws = true -> trim (s ++ ws) = trim s.
Proof.
  intros H. unfold trim.
  destruct (trimStart_split s) as [ws' [Hs Hws']].
  destruct (trimStart s) as [|c t] eqn:Et.
  - rewrite app_nil_r in Hs. subst s.
    rewrite trimStart_all_ws; [reflexivity|].
    rewrite forallb_app, Hws', H. reflexivity.
  - assert (Hc : isWhiteSpace c = false).
    { pose proof (trimStart_clean s) as Hclean. rewrite Et in Hclean. exact Hclean. }
    rewrite Hs at 1. rewrite <- app_assoc, trimStart_ws_app by exact Hws'.
    cbn [app trimStart]. rewrite Hc.
    change (c :: t ++ ws) with ((c :: t) ++ ws). now apply trimEnd_app_ws.
Qed.

Lemma trim_trimEnd (s : jsstring) : trim (trimEnd s) = trim s.
Proof.
  destruct (trimEnd_split s) as [ws [Hs Hws]].
  rewrite Hs at 2. symmetry. now apply trim_app_ws.
Qed.

(** X8.  On a line without a quote character, tokenizing is splitting the
    trimmed line at the delimiter and trimming every piece. *)
Theorem parseCSVLine_without_quotes (line : jsstring) (delimiter : Z) :
  ~ In QUOTE line -> ~ In APOSTROPHE line ->
  parseCSVLine line [delimiter] = map trim (split_on delimiter (trim line)).
Proof.
  intros Hq Ha. unfold parseCSVLine, split_on. rewrite map_orEmpty.
  rewrite scanLine_plain; [reflexivity| |].
  - intros H. apply Hq. now apply trim_subset.
  - intros H. apply Ha. now apply trim_subset.
Qed.

Lemma parseCSVLine_without_quotes_witness :
  parseCSVLine (js " a ; b;;c ") [SEMICOLON]
  = map trim (split_on SEMICOLON (trim (js " a ; b;;c "))).
Proof.
  apply parseCSVLine_without_quotes.
  - vm_compute. intros H. repeat destruct H as [H|H]; try discriminate H. exact H.
  - vm_compute. intros H. repeat destruct H as [H|H]; try discriminate H. exact H.
Defined.

(** X9.  A quote that is opened and never closed takes the rest of the
    line: the line is one field, delimiters included, without the quote
    character. *)
Theorem parseCSVLine_open_quote (q : Z) (s delimiter : jsstring) :
  isQuote q -> ~ In q s -> parseCSVLine (q :: s) delimiter = [trim s].
Proof.
  intros Hq Hs. unfold parseCSVLine. rewrite map_orEmpty.
  assert (Htrim : trim (q :: s) = q :: trimEnd s).
  { unfold trim. cbn [trimStart]. rewrite (isQuote_not_space q Hq).
    destruct (trimEnd_split s) as [ws [Hsplit Hws]].
    rewrite Hsplit at 1. change (q :: trimEnd s ++ ws) with ((q :: trimEnd s) ++ ws).
    rewrite trimEnd_app_ws by exact Hws.
    apply trimEnd_id. unfold endsClean.
    pose proof (trimEnd_clean s) as Hclean. unfold endsClean in Hclean.
    cbn [rev]. destruct (rev (trimEnd s)) as [|c t]; cbn [app startsClean].
    - now apply isQuote_not_space.
    - exact Hclean. }
  rewrite Htrim. rewrite scanLine_opening by exact Hq.
  rewrite <- (app_nil_r (trimEnd s)).
  rewrite scanLine_quoted.
  - cbn [scanLine app]. now rewrite trim_trimEnd.
  - intros H. apply Hs. destruct (trimEnd_split s) as [ws [Hsplit _]].
    rewrite Hsplit. apply in_or_app. now left.
Qed.

Lemma parseCSVLine_open_quote_witness :
  parseCSVLine (QUOTE :: js "a,b,c") (js ",") = [trim (js "a,b,c")].
Proof.
  apply parseCSVLine_open_quote.
  - now left.
  - vm_compute. intros H. repeat destruct H as [H|H]; try discriminate H. exact H.
Defined.

(** ** Cells kept as text *)

Lemma numberRule_number (trimmed : jsstring) (c : Cell) :
  numberRule trimmed = Some c -> exists n, c = CNum n.
Proof.
  unfold numberRule.
  destruct (re_test RE_number trimmed && negb (includes (js "(") trimmed));
    [|discriminate].
  destruct (negb (isNaN _) && isFinite _); [|discriminate].
  intros H. injection H as <-. now eexists.
Qed.

Lemma percentRule_number (trimmed : jsstring) (c : Cell) :
  percentRule trimmed = Some c -> exists n, c = CNum n.
Proof.
  unfold percentRule.
  destruct (re_exec RE_percent trimmed) as [[whole [|g1 groups]]|]; try discriminate.
  destruct (negb (isNaN _) && isFinite _); [|discriminate].
  intros H. injection H as <-. now eexists.
Qed.

Lemma dateRule_date (trimmed : jsstring) (c : Cell) :
  dateRule trimmed = Some c -> exists d, c = CDate d.
Proof.
  unfold dateRule. destruct (re_test RE_simpleDate trimmed); [|discriminate].
  destruct (parseISO trimmed); [|discriminate].
  intros H. injection H as <-. now eexists.
Qed.

Lemma booleanRule_boolean (trimmed : jsstring) (c : Cell) :
  booleanRule trimmed = Some c -> exists b, c = CBool b.
Proof.
  unfold booleanRule. cbv zeta.
  destruct (_ || _ || _); [intros H; injection H as <-; now eexists|].
  destruct (_ || _ || _); [intros H; injection H as <-; now eexists|discriminate].
Qed.

Lemma normalizeCell_trim (value : jsstring) :
  normalizeCell (trim value) = normalizeCell value.
Proof. unfold normalizeCell. now rewrite trim_idempotent. Qed.

(** X10.  White space around a value does not change its cell.  A cell
    that is kept as text is the trimmed value, and that text is a fixed
    point: normalizing it again gives the same text, never a number, a
    date or a boolean. *)
Theorem normalizeCell_text (value : jsstring) :
  normalizeCell (trim value) = normalizeCell value /\
  forall text, normalizeCell value = CStr text ->
               text = trim value /\ normalizeCell text = CStr text.
Proof.
  split; [apply normalizeCell_trim|].
  intros text H.
  assert (Ht : text = trim value).
  { revert H. unfold normalizeCell.
    destruct (trim value) as [|c s] eqn:Et; [congruence|].
    destruct (includes (js "(") (c :: s) && includes (js ")") (c :: s)); [congruence|].
    destruct (numberRule (c :: s)) as [x|] eqn:E1.
    { destruct (numberRule_number _ _ E1) as [n ->]. discriminate. }
    destruct (percentRule (c :: s)) as [x|] eqn:E2.
    { destruct (percentRule_number _ _ E2) as [n ->]. discriminate. }
    destruct (dateRule (c :: s)) as [x|] eqn:E3.
    { destruct (dateRule_date _ _ E3) as [n ->]. discriminate. }
    destruct (booleanRule (c :: s)) as [x|] eqn:E4.
    { destruct (booleanRule_boolean _ _ E4) as [n ->]. discriminate. }
    cbn [orElse]. congruence. }
  split; [exact Ht|]. subst text. rewrite normalizeCell_trim. exact H.
Qed.

Lemma normalizeCell_text_witness :
  js "12 apples" = trim (js "  12 apples ") /\
  normalizeCell (js "12 apples") = CStr (js "12 apples").
Proof.
  apply (proj2 (normalizeCell_text (js "  12 apples ")) (js "12 apples")).
  vm_compute. reflexivity.
Defined.

(** ** The detector when one candidate splits *)

(** X11.  When one candidate alone splits a sampled line into more than one
    column, the detector returns that candidate. *)
Theorem detectDelimiter_sole_candidate (text : jsstring) (d : Z) :
  In d delimiters ->
  columnCounts d (sampleLines text) <> [] ->
  (forall c, In c delimiters -> c <> d -> columnCounts c (sampleLines text) = []) ->
  detectDelimiter text = [d].
Proof.
  intros Hd Hsplit Hothers. unfold detectDelimiter. f_equal.
  destruct (detectLoop_inv (sampleLines text)) as [_ Hbest].
  destruct Hbest as [[_ Hnone] | [Hin [Heq Hpos]]].
  - apply candidateScore_splits in Hsplit. rewrite (Hnone d Hd) in Hsplit. discriminate.
  - destruct (Z.eq_dec (fst (detectLoop (sampleLines text))) d) as [E|E]; [exact E|].
    rewrite Heq in Hpos. apply candidateScore_splits in Hpos.
    exfalso. apply Hpos. now apply Hothers.
Qed.

Lemma detectDelimiter_sole_candidate_witness :
  detectDelimiter (js "name|qty" ++ [NEWLINE] ++ js "bolt|4") = [PIPE].
Proof.
  apply detectDelimiter_sole_candidate.
  - vm_compute. tauto.
  - vm_compute. discriminate.
  - intros c Hc Hne. unfold delimiters in Hc. cbn [In] in Hc.
    destruct Hc as [<- | [<- | [<- | [<- | []]]]]; try (vm_compute; reflexivity).
    congruence.
Defined.

(** ** The encoding resolver *)

Lemma includes_single (x : Z) (s : jsstring) : includes [x] s = true -> In x s.
Proof.
  unfold includes, indexOf. generalize 0%nat.
  induction s as [|c s IH]; intros i; cbn [indexOf_from starts_with].
  - discriminate.
  - destruct (Z.eqb_spec x c) as [->|Hne]; cbn [andb].
    + intros _. now left.
    + intros H. right. exact (IH _ H).
Qed.

Lemma utf8_go_ascii (bs : list Z) :
  Forall (fun b => b <= 0x7F) bs -> utf8_go None bs = bs.
Proof.
  induction 1 as [|b bs Hb _ IH]; [reflexivity|].
  cbn [utf8_go]. unfold utf8_lead.
  replace (b <=? 127) with true by (symmetry; apply Z.leb_le; exact Hb).
  cbn [app]. now rewrite IH.
Qed.

(** X12.  A buffer of ASCII bytes is decoded as UTF-8 to the characters
    with the codes of its bytes, whatever the detector and the decoders of
    the libraries would answer. *)
Theorem detectAndDecode_ascii (E : Collaborators) (buffer : Buffer) :
  Forall (fun b => byteZ b <= 0x7F) buffer ->
  detectAndDecode E buffer = Ok (map byteZ buffer).
Proof.
  intros H. unfold detectAndDecode, toString_utf8.
  assert (Hdec : utf8_go None (map byteZ buffer) = map byteZ buffer).
  { apply utf8_go_ascii. apply Forall_map. exact H. }
  rewrite Hdec.
  destruct (includes REPLACEMENT (map byteZ buffer)) eqn:Hinc; [|reflexivity].
  exfalso. apply includes_single in Hinc. apply in_map_iff in Hinc.
  destruct Hinc as [b [Hb Hin]]. rewrite Forall_forall in H. specialize (H b Hin). lia.
Qed.

Lemma detectAndDecode_ascii_witness :
  detectAndDecode rejecting (bytes "a,b") = Ok (js "a,b").
Proof.
  apply (detectAndDecode_ascii rejecting (bytes "a,b")).
  vm_compute. repeat constructor; discriminate.
Defined.

(** X13.  The resolver throws only when the decoding as UTF-8 holds a
    replacement character and the last resort, [iconv.decode(buffer,
    'latin1')], throws; what it throws is what that call throws.  A failure
    of the detector or of an earlier decoding is never passed on. *)
Theorem detectAndDecode_throws (E : Collaborators) (buffer : Buffer) (m : jsstring) :
  detectAndDecode E buffer = Throw m ->
  includes REPLACEMENT (toString_utf8 buffer) = true /\
  iconv_decode E buffer (js "latin1") = Throw m.
Proof.
  unfold detectAndDecode.
  destruct (includes REPLACEMENT (toString_utf8 buffer)); cbn [negb]; [|discriminate].
  intros H. split; [reflexivity|].
  destruct (try_catch (decodeDetected E buffer) (fun _ => Ok None)) as [[decoded|]|m'] eqn:Et.
  - discriminate.
  - destruct (decodeFirstClean E buffer _); [discriminate|exact H].
  - destruct (decodeFirstClean E buffer _); [discriminate|exact H].
Qed.

(** ** The detector on equal scores *)

(** A number that is not below [b] is below what [b] is below. *)
Lemma SFltb_le_lt (a b c : number) :
  a <> S754_nan -> SFltb b a = false -> SFltb b c = true -> SFltb a c = true.
Proof.
  unfold SFltb, SFcompare.
  destruct a as [sa|sa| |sa ma ea], b as [sb|sb| |sb mb eb], c as [sc|sc| |sc mc ec];
    try congruence; try discriminate;
    try (destruct sa, sb, sc; simpl; congruence);
    try (destruct sa, sb; simpl; congruence);
    try (destruct sa, sc; simpl; congruence);
    try (destruct sb, sc; simpl; congruence).
  intros _.
  change (Pos.compare_cont Eq ma mb) with (Pos.compare ma mb).
  change (Pos.compare_cont Eq mb mc) with (Pos.compare mb mc).
  change (Pos.compare_cont Eq ma mc) with (Pos.compare ma mc).
  change (Pos.compare_cont Eq mb ma) with (Pos.compare mb ma).
  destruct sa, sb, sc; try discriminate; try reflexivity;
    destruct (Z.compare_spec eb ea), (Z.compare_spec eb ec), (Z.compare_spec ea ec);
    try discriminate; try lia; try reflexivity; subst;
    destruct (Pos.compare_spec mb ma), (Pos.compare_spec mb mc), (Pos.compare_spec ma mc);
    simpl; try discriminate; try lia; try reflexivity.
Qed.

Section FirstBest.
Variable lines : list jsstring.
Hypothesis scores_positive :
  forall c, columnCounts c lines <> [] -> flt zero (candidateScore lines c) = true.

Lemma candidateScore_number (c : Z) : candidateScore lines c <> S754_nan.
Proof.
  destruct (columnCounts c lines) as [|n counts] eqn:Hc.
  - unfold candidateScore. rewrite Hc. discriminate.
  - assert (Hpos : flt zero (candidateScore lines c) = true).
    { apply scores_positive. rewrite Hc. discriminate. }
    intros E. rewrite E in Hpos. discriminate.
Qed.

Lemma detectStep_firstBest (seen : list Z) (st : Z * number) (c : Z) :
  firstBest lines seen st -> firstBest lines (seen ++ [c]) (detectStep lines st c).
Proof.
  intros H. unfold detectStep.
  destruct (columnCounts c lines) as [|n counts] eqn:Hc.
  - (* the candidate splits no line *)
    assert (Hs : candidateScore lines c = zero) by (unfold candidateScore; now rewrite Hc).
    destruct H as [[-> Hnone] | [pre [post [Hseen [Hscore [Hsplits [Hpre Hpost]]]]]]].
    + left. split; [reflexivity|]. intros x Hx. apply in_app_or in Hx.
      destruct Hx as [Hx | [<- | []]]; auto.
    + right. exists pre, (post ++ [c]). split; [rewrite Hseen, <- app_assoc; reflexivity|].
      split; [exact Hscore|]. split; [exact Hsplits|]. split; [exact Hpre|].
      intros x Hx. apply in_app_or in Hx. destruct Hx as [Hx | [<- | []]]; auto.
      rewrite Hs, Hscore. apply SFltb_asym. apply scores_positive, Hsplits.
  - assert (Hn : columnCounts c lines <> []) by (rewrite Hc; discriminate).
    destruct (flt (snd st) (candidateScore lines c)) eqn:Hlt.
    + (* the candidate is adopted: all the candidates before it score less *)
      right. exists seen, []. cbn [fst snd].
      split; [reflexivity|]. split; [reflexivity|]. split; [exact Hn|].
      split; [|intros x []].
      intros x Hx.
      destruct H as [[-> Hnone] | [pre [post [Hseen [Hscore [Hsplits [Hpre Hpost]]]]]]].
      * unfold candidateScore at 1. rewrite (Hnone x Hx). exact Hlt.
      * rewrite Hseen in Hx. apply in_app_or in Hx. destruct Hx as [Hx | [<- | Hx]].
        -- exact (SFltb_trans _ _ _ (Hpre x Hx) Hlt).
        -- rewrite <- Hscore. exact Hlt.
        -- apply (SFltb_le_lt _ (snd st)); [apply candidateScore_number| |exact Hlt].
           apply Hpost, Hx.
    + destruct H as [[-> Hnone] | [pre [post [Hseen [Hscore [Hsplits [Hpre Hpost]]]]]]].
      * cbn [snd] in Hlt. rewrite (scores_positive c Hn) in Hlt. discriminate.
      * right. exists pre, (post ++ [c]).
        split; [rewrite Hseen, <- app_assoc; reflexivity|].
        split; [exact Hscore|]. split; [exact Hsplits|]. split; [exact Hpre|].
        intros x Hx. apply in_app_or in Hx. destruct Hx as [Hx | [<- | []]]; auto.
Qed.

Lemma detectFold_firstBest (cands seen : list Z) (st : Z * number) :
  firstBest lines seen st ->
  firstBest lines (seen ++ cands) (fold_left (detectStep lines) cands st).
Proof.
  revert seen st. induction cands as [|c cands IH]; intros seen st H; cbn [fold_left].
  - now rewrite app_nil_r.
  - replace (seen ++ c :: cands) with ((seen ++ [c]) ++ cands)
      by (rewrite <- app_assoc; reflexivity).
    apply IH. now apply detectStep_firstBest.
Qed.

Lemma detectLoop_firstBest : firstBest lines delimiters (detectLoop lines).
Proof.
  apply (detectFold_firstBest delimiters [] (COMMA, zero)).
  left. split; [reflexivity|intros c []].
Qed.
End FirstBest.

(** X14.  Among the candidates with the highest score the detector returns
    the first in the order tab, comma, semicolon, pipe: when the returned
    candidate splits a sampled line, every candidate before it scores
    strictly less and no candidate after it scores more.  When it splits no
    line, no candidate does. *)
Theorem detectDelimiter_first_of_best (text : jsstring) :
  let lines := sampleLines text in
  exists pre d post,
    delimiters = pre ++ d :: post /\
    detectDelimiter text = [d] /\
    (forall c, In c post -> flt (candidateScore lines d) (candidateScore lines c) = false) /\
    (columnCounts d lines <> [] ->
     forall c, In c pre -> flt (candidateScore lines c) (candidateScore lines d) = true) /\
    (columnCounts d lines = [] ->
     d = COMMA /\ forall c, In c delimiters -> columnCounts c lines = []).
Proof.
  intros lines. unfold detectDelimiter. fold lines.
  assert (Hpos : forall c, columnCounts c lines <> [] ->
                           flt zero (candidateScore lines c) = true).
  { intros c Hc. apply candidateScore_splits, Hc. }
  destruct (detectLoop_firstBest lines Hpos)
    as [[Hst Hnone] | [pre [post [Hseen [Hscore [Hsplits [Hpre Hpost]]]]]]].
  - rewrite Hst. cbn [fst]. exists [TAB], COMMA, [SEMICOLON; PIPE].
    split; [reflexivity|]. split; [reflexivity|].
    assert (Hz : forall c, In c delimiters -> candidateScore lines c = zero).
    { intros c Hc. unfold candidateScore. now rewrite (Hnone c Hc). }
    split.
    + intros c Hc. rewrite (Hz COMMA), (Hz c); [reflexivity| |]; unfold delimiters.
      * destruct Hc as [<- | [<- | []]]; cbn; auto.
      * cbn; auto.
    + split.
      * intros Hc. exfalso. apply Hc. apply Hnone. cbn; auto.
      * intros _. split; [reflexivity|exact Hnone].
  - exists pre, (fst (detectLoop lines)), post.
    split; [exact Hseen|]. split; [reflexivity|].
    rewrite <- Hscore. split; [exact Hpost|]. split; [intros _; exact Hpre|].
    intros Hc. contradiction.
Qed.

Lemma detectDelimiter_first_of_best_witness :
  exists pre d post,
    delimiters = pre ++ d :: post /\
    detectDelimiter (js "a,b;c") = [d] /\ d = COMMA /\
    (forall c, In c pre ->
       flt (candidateScore (sampleLines (js "a,b;c")) c)
           (candidateScore (sampleLines (js "a,b;c")) d) = true).
Proof.
  destruct (detectDelimiter_first_of_best (js "a,b;c"))
    as [pre [d [post [Hd [Hr [_ [Hpre _]]]]]]].
  exists pre, d, post. split; [exact Hd|]. split; [exact Hr|].
  assert (Hc : d = COMMA).
  { vm_compute in Hr. injection Hr as Hr. symmetry. exact Hr. }
  split; [exact Hc|]. apply Hpre. subst d. vm_compute. discriminate.
Defined.

Lemma detectAndDecode_throws_witness :
  includes REPLACEMENT (toString_utf8 [xff]) = true /\
  iconv_decode undecodable [xff] (js "latin1") = Throw (js "Encoding not recognized").
Proof.
  apply (detectAndDecode_throws undecodable [xff]). vm_compute. reflexivity.
Defined.

(** ** The rows of the text table *)

Lemma rowLoop_data (rows : list Row) (data : Table) (m i : nat) :
  fst (rowLoop (data, m) (S i) (map Parsed rows))
  = data ++ filter (existsb notEmptyCell) rows.
Proof.
  revert data m i. induction rows as [|row rows IH]; intros data m i.
  - cbn. now rewrite app_nil_r.
  - cbn [map rowLoop rowStep filter Nat.eqb orb].
    destruct (existsb notEmptyCell row); rewrite IH.
    + now rewrite <- app_assoc.
    + reflexivity.
Qed.

Lemma mapi_from_data (d : jsstring) (lines : list jsstring) (i : nat) :
  mapi_from (processLine d) (S i) lines = map Parsed (map (dataRow d) lines).
Proof.
  revert i. induction lines as [|l lines IH]; intros i; [reflexivity|].
  cbn [mapi_from map]. rewrite IH. reflexivity.
Qed.

(** X15.  The table of delimited-text recovery: the header row made from
    the first line that is not blank, then, in their order, the rows of the
    other lines that are not blank and have a cell that is not empty; every
    row padded to the width of the table.  A line whose cells are all empty
    is left out, the first line never is. *)
Theorem textTable_rows (text l0 : jsstring) (ls : list jsstring) :
  textLines text = l0 :: ls ->
  let delimiter := detectDelimiter text in
  textTable text
  = map (padRow (snd (textRows text)))
      (headerRow (parseCSVLine l0 delimiter)
       :: filter (existsb notEmptyCell) (map (dataRow delimiter) ls)).
Proof.
  intros Hlines delimiter. unfold textTable, padRows. f_equal.
  unfold textRows, mapi. rewrite Hlines. fold delimiter.
  cbn [mapi_from rowLoop]. rewrite mapi_from_data.
  unfold processLine. cbn [Nat.eqb rowStep orb Nat.max app].
  rewrite rowLoop_data. reflexivity.
Qed.

Lemma textTable_rows_witness :
  textTable raggedText
  = map (padRow (snd (textRows raggedText)))
      (headerRow (parseCSVLine (js "a,b") (detectDelimiter raggedText))
       :: filter (existsb notEmptyCell)
            (map (dataRow (detectDelimiter raggedText)) [js "1"; js ",,,"; js "1,2,3"])).
Proof.
  apply (textTable_rows raggedText (js "a,b") [js "1"; js ",,,"; js "1,2,3"]).
  vm_compute. reflexivity.
Defined.

(** ** The names of the header cells *)

Lemma cells_indexOf_first (cells : list jsstring) (n : nat) :
  cells_indexOf [] cells n = option_map (Nat.add n) (firstEmpty cells).
Proof.
  revert n. induction cells as [|c cells IH]; intros n; [reflexivity|].
  cbn [cells_indexOf firstEmpty]. destruct c as [|x c].
  - rewrite str_eqb_refl. cbn. f_equal. lia.
  - replace (str_eqb (x :: c) []) with false
      by (unfold str_eqb; destruct (list_eq_dec Z.eq_dec (x :: c) []); congruence).
    rewrite IH. destruct (firstEmpty cells); cbn; [f_equal; lia|reflexivity].
Qed.

Lemma firstEmpty_spec (cells : list jsstring) (i : nat) :
  nth_error cells i = Some [] ->
  exists k, firstEmpty cells = Some k /\ (k <= i)%nat /\ nth_error cells k = Some []
            /\ forall j, (j < k)%nat -> nth_error cells j <> Some [].
Proof.
  revert i. induction cells as [|c cells IH]; intros i H.
  - destruct i; discriminate.
  - destruct c as [|x c].
    + exists 0%nat. cbn. repeat split; [lia|]. intros j Hj. lia.
    + destruct i as [|i]; [discriminate|]. cbn [nth_error] in H.
      destruct (IH i H) as [k [Hk [Hle [Hnth Hmin]]]].
      exists (S k). cbn [firstEmpty]. rewrite Hk. repeat split; [lia|exact Hnth|].
      intros [|j] Hj; [discriminate|]. cbn [nth_error]. apply Hmin. lia.
Qed.

Lemma textTable_header (text l0 : jsstring) (ls : list jsstring) :
  textLines text = l0 :: ls ->
  hd [] (textTable text)
  = padRow (snd (textRows text)) (headerRow (parseCSVLine l0 (detectDelimiter text))).
Proof.
  intros Hlines. unfold textTable, padRows.
  assert (Hfst : exists rows,
             fst (textRows text)
             = headerRow (parseCSVLine l0 (detectDelimiter text)) :: rows).
  { unfold textRows, mapi. rewrite Hlines.
    cbn [mapi_from rowLoop]. rewrite mapi_from_data.
    unfold processLine. cbn [Nat.eqb rowStep orb Nat.max app].
    rewrite rowLoop_data. eexists. reflexivity. }
  destruct Hfst as [rows ->]. reflexivity.
Qed.

(** X16.  The header row the recovery returns is made of the names given
    to the tokens of the first line that is not blank, followed by the empty
    strings that pad it to the width of the table.  None of the names is
    empty.  A token that is empty is named [컬럼] followed by the position,
    counted from 1, of the first empty token of the line, not by its own
    position: all the empty tokens of a header get the same name. *)
Theorem headerRow_names (text l0 : jsstring) (ls : list jsstring) :
  textLines text = l0 :: ls ->
  let cells := parseCSVLine l0 (detectDelimiter text) in
  hd [] (textTable text)
  = headerRow cells ++ repeat (CStr []) (snd (textRows text) - length cells) /\
  Forall (fun cell => exists s, cell = CStr s /\ s <> []) (headerRow cells) /\
  forall i, nth_error cells i = Some [] ->
    exists k, (k <= i)%nat /\ nth_error cells k = Some [] /\
              (forall j, (j < k)%nat -> nth_error cells j <> Some []) /\
              nth_error (hd [] (textTable text)) i
              = Some (CStr (js "컬럼" ++ String_of_nat (S k))).
Proof.
  intros Hlines cells.
  assert (Hhd : hd [] (textTable text)
                = headerRow cells
                  ++ repeat (CStr []) (snd (textRows text) - length cells)).
  { rewrite (textTable_header text l0 ls Hlines). fold cells.
    unfold padRow, headerRow. now rewrite length_map. }
  split; [exact Hhd|]. split.
  - unfold headerRow. apply Forall_map. apply Forall_forall. intros cell _.
    eexists. split; [reflexivity|]. unfold headerCell.
    destruct (normalizeHeaderField cell); discriminate.
  - intros i Hi. destruct (firstEmpty_spec cells i Hi) as [k [Hk [Hle [Hnth Hmin]]]].
    exists k. repeat split; try assumption.
    rewrite Hhd. rewrite nth_error_app1.
    2:{ unfold headerRow. rewrite length_map. apply nth_error_Some. rewrite Hi.
        discriminate. }
    unfold headerRow. rewrite nth_error_map, Hi. cbn [option_map]. f_equal. f_equal.
    unfold headerCell. replace (normalizeHeaderField []) with (@nil Z) by reflexivity.
    unfold placeholderNumber. rewrite cells_indexOf_first, Hk. reflexivity.
Qed.

Lemma headerRow_names_witness :
  hd [] (textTable gapHeaderText)
  = map CStr [js "a"; js "컬럼2"; js "b"; js "컬럼2"; []; []]
  /\ exists k, (k <= 3)%nat /\
       nth_error (hd [] (textTable gapHeaderText)) 3
       = Some (CStr (js "컬럼" ++ String_of_nat (S k))).
Proof.
  destruct (headerRow_names gapHeaderText (js "a,,b,") [js "1,2,3,4,5,6"])
    as [Hhd [_ Hnames]]; [vm_compute; reflexivity|].
  split.
  - rewrite Hhd. vm_compute. reflexivity.
  - destruct (Hnames 3%nat) as [k [Hle [_ [_ Hk]]]]; [vm_compute; reflexivity|].
    exists k. split; [exact Hle|exact Hk].
Defined.

(** ** The names of the sheets *)

Lemma filenameChar_not_bad (c : Z) :
  filenameChar c = true -> existsb (Z.eqb c) badchars = false.
Proof.
  unfold filenameChar, isWordChar, isDigit, isHangul, badchars. cbn [existsb].
  intros H. apply not_true_is_false. revert H.
  rewrite !orb_true_iff, !andb_true_iff, !Z.leb_le, !Z.eqb_eq. lia.
Qed.

Lemma safeSheetName_valid (sheetName : jsstring) :
  (31 <? length (safeSheetName sheetName))%nat = false /\
  existsb (fun c => existsb (Z.eqb c) (safeSheetName sheetName)) badchars = false.
Proof.
  unfold safeSheetName, substring. cbn [skipn Nat.sub]. split.
  - apply Nat.ltb_ge. apply firstn_le_length.
  - apply not_true_is_false. intros H. apply existsb_exists in H.
    destruct H as [bad [Hbad Hin]]. apply existsb_exists in Hin.
    destruct Hin as [c [Hc Heq]]. apply Z.eqb_eq in Heq. subst c.
    assert (Hc' : In bad (sanitizeFilename sheetName)).
    { rewrite <- (firstn_skipn 31 (sanitizeFilename sheetName)).
      apply in_or_app. now left. }
    clear Hc. rename Hc' into Hc.
    destruct (sanitizeFilename_shape sheetName) as [_ [Hchars _]].
    rewrite Forall_forall in Hchars. specialize (Hchars bad Hc).
    apply filenameChar_not_bad in Hchars.
    assert (existsb (Z.eqb bad) badchars = true).
    { apply existsb_exists. exists bad. split; [exact Hbad|apply Z.eqb_refl]. }
    congruence.
Qed.

Lemma book_append_sheet_safe (wb : WorkBook) (ws : Sheet) (sheetName : jsstring) :
  Z.of_nat (length wb) < 0xFFFF ->
  book_append_sheet wb ws (safeSheetName sheetName)
  = if existsb (str_eqb (safeSheetName sheetName)) (map fst wb)
    then Throw (js "Worksheet with name |" ++ safeSheetName sheetName
                ++ js "| already exists!")
    else Ok (wb ++ [(safeSheetName sheetName, ws)]).
Proof.
  intros Hlen. unfold book_append_sheet.
  replace (0xFFFF <=? Z.of_nat (length wb)) with false
    by (symmetry; apply Z.leb_gt; exact Hlen).
  destruct (safeSheetName_valid sheetName) as [-> ->]. reflexivity.
Qed.

Lemma existsb_str_eqb (x : jsstring) (l : list jsstring) :
  existsb (str_eqb x) l = true <-> In x l.
Proof.
  rewrite existsb_exists. split.
  - intros [y [Hy Heq]]. unfold str_eqb in Heq.
    destruct (list_eq_dec Z.eq_dec x y); [now subst|discriminate].
  - intros H. exists x. split; [exact H|apply str_eqb_refl].
Qed.

Lemma normalizeFold_names (E : Collaborators) (wb acc : WorkBook) :
  Z.of_nat (length acc + length wb) <= 0xFFFF ->
  NoDup (map fst acc) ->
  (NoDup (map fst acc ++ map safeSheetName (map fst wb)) ->
   fold_left (normalizeSheet E) wb (Ok acc) = Ok (acc ++ normalizedSheets E wb)) /\
  (~ NoDup (map fst acc ++ map safeSheetName (map fst wb)) ->
   exists m, fold_left (normalizeSheet E) wb (Ok acc) = Throw m).
Proof.
  revert acc. induction wb as [|[name ws] wb IH]; intros acc Hlen Hacc.
  - cbn. rewrite !app_nil_r. split; [reflexivity|contradiction].
  - cbn [fold_left normalizeSheet bind]. fold (safeSheetName name).
    unfold aoa_to_sheet.
    rewrite book_append_sheet_safe by (cbn [length] in Hlen; lia).
    destruct (existsb (str_eqb (safeSheetName name)) (map fst acc)) eqn:Hdup.
    + split.
      * intros Hnd. exfalso. apply existsb_str_eqb in Hdup.
        cbn [map] in Hnd. apply NoDup_remove_2 in Hnd. apply Hnd.
        apply in_or_app. now left.
      * intros _. rewrite normalizeFold_throw. eexists. reflexivity.
    + assert (Hnew : ~ In (safeSheetName name) (map fst acc)).
      { intros H. apply existsb_str_eqb in H. congruence. }
      set (sheet := map (map normalizeJsonCell)
                      (XLSX_sheet_to_json E ws
                         [prop "header" (ONum 1); prop "defval" ONull;
                          prop "raw" (OBool false)])).
      assert (Hacc' : NoDup (map fst (acc ++ [(safeSheetName name, sheet)]))).
      { rewrite map_app. cbn [map fst].
        apply NoDup_app; [exact Hacc|repeat constructor; intros []|].
        intros x Hx [<- | []]. contradiction. }
      assert (Hlen' : Z.of_nat (length (acc ++ [(safeSheetName name, sheet)]) + length wb)
                      <= 0xFFFF).
      { rewrite length_app. cbn [length] in *. lia. }
      destruct (IH (acc ++ [(safeSheetName name, sheet)]) Hlen' Hacc') as [IH1 IH2].
      assert (Hnames : map fst (acc ++ [(safeSheetName name, sheet)])
                       ++ map safeSheetName (map fst wb)
                       = map fst acc
                         ++ map safeSheetName (map fst ((name, ws) :: wb))).
      { rewrite map_app, <- app_assoc. reflexivity. }
      rewrite Hnames in IH1, IH2. split.
      * intros Hnd. etransitivity; [exact (IH1 Hnd)|].
        unfold normalizedSheets. cbn [map fst snd].
        rewrite <- app_assoc. reflexivity.
      * exact IH2.
Qed.

(** X17.  The workbook normalizer gives every sheet the sanitized name of
    the original cut at 31 characters, which [book_append_sheet] always
    accepts as a name.  So, for a workbook of at most 65535 sheets, it
    returns the sheets in their order under those names when the names are
    pairwise distinct, and throws when two sheets get the same name. *)
Theorem normalizeWorkbook_names (E : Collaborators) (workbook : WorkBook) :
  Z.of_nat (length workbook) <= 0xFFFF ->
  (NoDup (map safeSheetName (map fst workbook)) ->
   normalizeWorkbook E workbook = Ok (normalizedSheets E workbook)) /\
  (~ NoDup (map safeSheetName (map fst workbook)) ->
   exists m, normalizeWorkbook E workbook = Throw m).
Proof.
  intros Hlen. unfold normalizeWorkbook, book_new.
  exact (normalizeFold_names E workbook [] Hlen (NoDup_nil _)).
Qed.

Lemma normalizeWorkbook_names_witness :
  exists m, normalizeWorkbook rejecting twinBook = Throw m.
Proof.
  apply (proj2 (normalizeWorkbook_names rejecting twinBook ltac:(vm_compute; discriminate))).
  intros H. vm_compute in H. inversion H as [|? ? Hin _]; subst. apply Hin. now left.
Defined.

(** ** The conversions that return and the ones that raise *)

(** Without the force flag, a workbook the standard parser accepts goes
    to the normalizer as it is. *)
Lemma convertText_parsed (E : Collaborators) (buffer : Buffer) (workbook : WorkBook) :
  standardParse E buffer = Ok workbook ->
  convertText E buffer false
  = try_catch
      (normalizedWorkbook <- normalizeWorkbook E workbook ;;
       Ok (XLSX_write E normalizedWorkbook WRITE_FINAL))
      (fun message => Throw (CONVERSION_FAILED ++ message)).
Proof. intros H. unfold convertText. cbn [negb]. rewrite H. reflexivity. Qed.

Lemma standardParse_nonempty (E : Collaborators) (buffer : Buffer) (workbook : WorkBook) :
  standardParse E buffer = Ok workbook -> workbook <> [].
Proof.
  unfold standardParse. destruct (XLSX_read E buffer STANDARD_READ) as [wb|m];
    cbn [bind]; [|discriminate].
  destruct wb as [|sheet wb]; [discriminate|].
  destruct (hasTextInFirstRow _); [|discriminate].
  intros H. injection H as <-. discriminate.
Qed.

Lemma normalizeWorkbook_distinct (E : Collaborators) (workbook : WorkBook) :
  Z.of_nat (length workbook) <= 0xFFFF ->
  NoDup (map safeSheetName (map fst workbook)) ->
  normalizeWorkbook E workbook = Ok (normalizedSheets E workbook).
Proof.
  intros Hlen Hnd. unfold normalizeWorkbook, book_new.
  exact (proj1 (normalizeFold_names E workbook [] Hlen (NoDup_nil _)) Hnd).
Qed.

Lemma convertText_distinct (E : Collaborators) (buffer : Buffer) (workbook : WorkBook) :
  standardParse E buffer = Ok workbook ->
  Z.of_nat (length workbook) <= 0xFFFF ->
  NoDup (map safeSheetName (map fst workbook)) ->
  convertText E buffer false
  = Ok (XLSX_write E (normalizedSheets E workbook) WRITE_FINAL)
  /\ written E (XLSX_write E (normalizedSheets E workbook) WRITE_FINAL).
Proof.
  intros Hs Hlen Hnd. rewrite (convertText_parsed E buffer workbook Hs).
  rewrite (normalizeWorkbook_distinct E workbook Hlen Hnd). cbn [bind try_catch].
  split; [reflexivity|]. eexists _, _. split; [reflexivity|].
  pose proof (standardParse_nonempty E buffer workbook Hs) as Hne.
  destruct workbook; [congruence|discriminate].
Qed.

(** What the text route throws, with the flag and without it. *)
Lemma convertText_forced_throws (E : Collaborators) (buffer : Buffer)
    (text m : jsstring) :
  detectAndDecode E buffer = Ok text ->
  (convertText E buffer true = Throw m
   <-> textLines text = [] /\ m = CONVERSION_FAILED ++ NO_DATA).
Proof.
  intros Hd. destruct (textLines text) as [|l ls] eqn:Hl.
  - rewrite (convertText_blank E buffer true text); [|now left|exact Hd|exact Hl].
    split; [intros H; injection H as <-; now split|now intros [_ ->]].
  - destruct (convertText_nonblank E buffer true text) as [out [Ho _]];
      [now left|exact Hd|rewrite Hl; discriminate|].
    rewrite Ho. split; [discriminate|intros [H _]; discriminate].
Qed.

Lemma convertText_unforced_throws (E : Collaborators) (buffer : Buffer)
    (text m : jsstring) :
  detectAndDecode E buffer = Ok text ->
  (convertText E buffer false = Throw m
   <-> ((exists thrown, standardParse E buffer = Throw thrown)
        /\ textLines text = [] /\ m = CONVERSION_FAILED ++ NO_DATA)
       \/ (exists workbook thrown,
              standardParse E buffer = Ok workbook
              /\ normalizeWorkbook E workbook = Throw thrown
              /\ m = CONVERSION_FAILED ++ thrown)).
Proof.
  intros Hd. destruct (standardParse E buffer) as [workbook|thrown] eqn:Hs.
  - rewrite (convertText_parsed E buffer workbook Hs).
    destruct (normalizeWorkbook E workbook) as [nw|t] eqn:Hn; cbn [bind try_catch].
    + split; [discriminate|].
      intros [[[t Ht] _] | [wb [t [Hwb [Ht _]]]]]; [discriminate|].
      injection Hwb as <-. congruence.
    + split.
      * intros H. injection H as <-. right. now exists workbook, t.
      * intros [[[t' Ht] _] | [wb [t' [Hwb [Ht ->]]]]]; [discriminate|].
        injection Hwb as <-. congruence.
  - assert (He : entersTextRecovery E buffer false) by (right; now exists thrown).
    destruct (textLines text) as [|l ls] eqn:Hl.
    + rewrite (convertText_blank E buffer false text He Hd Hl). split.
      * intros H. injection H as <-. left. split; [now exists thrown|now split].
      * intros [[_ [_ ->]] | [wb [t [Hwb _]]]]; [reflexivity|discriminate].
    + destruct (convertText_nonblank E buffer false text He Hd) as [out [Ho _]];
        [rewrite Hl; discriminate|].
      rewrite Ho. split; [discriminate|].
      intros [[_ [H _]] | [wb [t [Hwb _]]]]; discriminate.
Qed.

Lemma convertText_nonblank_sheet (E : Collaborators) (buffer : Buffer) (force : bool)
    (text : jsstring) :
  entersTextRecovery E buffer force ->
  detectAndDecode E buffer = Ok text -> textLines text <> [] ->
  convertText E buffer force
  = Ok (XLSX_write E
          [(js "Sheet1",
            map (map normalizeJsonCell)
              (XLSX_sheet_to_json E (textTable text) JSON_TEXT_ROWS))]
          WRITE_FINAL).
Proof.
  intros He Hd Hl. rewrite (convertText_recovered E buffer force He).
  rewrite (textBasedRecovery_ok E buffer text Hd Hl). cbn [bind].
  rewrite normalizeWorkbook_sheet1. reflexivity.
Qed.

(** C1, the claim as stated fails: the conversion of a zero-length buffer
    named [data.csv] raises when text recovery is forced. *)
Lemma convertToXlsx_raises_on_empty_text :
  convertToXlsx rejecting [] (js "data.csv") true = Throw (CONVERSION_FAILED ++ NO_DATA).
Proof. vm_compute. reflexivity. Qed.

(** C1 (amended).  For every buffer and file name routed to the Excel path
    (extension [xlsx] or [xls], or a ZIP signature) [convertToXlsx] returns
    the buffer the writer made from a workbook with at least one sheet and
    does not raise, whatever the force flag.  On the text route, once
    delimited-text recovery is entered (forced, or after the standard parser
    threw or read an empty header), it returns the written sheet [Sheet1] of
    the text table when the decoded text has a line that is not blank and
    raises when it has none.  On the text route without the force flag, when
    the standard parser reads a workbook with text in its first row, it
    returns the normalized sheets written, provided the workbook has at most
    65535 sheets and the safe names of its sheets are pairwise distinct. *)
Theorem convertToXlsx_returns (E : Collaborators) (buffer : Buffer)
    (filename : jsstring) (forceTextRecovery : bool) :
  (isExcelRoute buffer filename = true ->
   exists out, convertToXlsx E buffer filename forceTextRecovery = Ok out /\ written E out)
  /\
  (isExcelRoute buffer filename = false ->
   entersTextRecovery E buffer forceTextRecovery ->
   forall text, detectAndDecode E buffer = Ok text ->
     (textLines text <> [] ->
      exists out, convertToXlsx E buffer filename forceTextRecovery = Ok out
                  /\ written E out
                  /\ out = XLSX_write E
                             [(js "Sheet1",
                               map (map normalizeJsonCell)
                                 (XLSX_sheet_to_json E (textTable text) JSON_TEXT_ROWS))]
                             WRITE_FINAL)
     /\
     (textLines text = [] ->
      convertToXlsx E buffer filename forceTextRecovery
      = Throw (CONVERSION_FAILED ++ NO_DATA)))
  /\
  (isExcelRoute buffer filename = false ->
   forall workbook, standardParse E buffer = Ok workbook ->
     Z.of_nat (length workbook) <= 0xFFFF ->
     NoDup (map safeSheetName (map fst workbook)) ->
     exists out, convertToXlsx E buffer filename false = Ok out
                 /\ written E out
                 /\ out = XLSX_write E (normalizedSheets E workbook) WRITE_FINAL).
Proof.
  split; [|split].
  - intros Hr. rewrite (convertToXlsx_excel E buffer filename forceTextRecovery Hr).
    apply handleExcelFile_total.
  - intros Hr He text Hd.
    rewrite (convertToXlsx_text E buffer filename forceTextRecovery Hr). split.
    + intros Hl. eexists. split; [|split; [|reflexivity]].
      * now apply convertText_nonblank_sheet.
      * eexists _, _. split; [reflexivity|discriminate].
    + now apply convertText_blank with (text := text).
  - intros Hr workbook Hs Hlen Hnd.
    rewrite (convertToXlsx_text E buffer filename false Hr).
    destruct (convertText_distinct E buffer workbook Hs Hlen Hnd) as [Ho Hw].
    eexists. split; [exact Ho|]. split; [exact Hw|reflexivity].
Qed.

(** A zero-length [book.xlsx]; a forced [data.csv] with one line; and a
    [data.csv] the standard parser reads as a workbook of one sheet. *)
Lemma convertToXlsx_returns_witness :
  (exists out, convertToXlsx rejecting [] (js "book.xlsx") false = Ok out
               /\ written rejecting out)
  /\ (exists out, convertToXlsx rejecting (bytes "a,b") (js "data.csv") true = Ok out
                  /\ written rejecting out
                  /\ out = XLSX_write rejecting
                             [(js "Sheet1",
                               map (map normalizeJsonCell)
                                 (XLSX_sheet_to_json rejecting (textTable (js "a,b"))
                                    JSON_TEXT_ROWS))]
                             WRITE_FINAL)
  /\ (exists out, convertToXlsx (reading decodedBook) (bytes "a,b") (js "data.csv") false
                  = Ok out
                  /\ written (reading decodedBook) out
                  /\ out = XLSX_write (reading decodedBook)
                             (normalizedSheets (reading decodedBook) decodedBook)
                             WRITE_FINAL).
Proof.
  split; [|split].
  - apply (proj1 (convertToXlsx_returns rejecting [] (js "book.xlsx") false)).
    vm_compute. reflexivity.
  - apply (proj1 (proj2 (convertToXlsx_returns rejecting (bytes "a,b") (js "data.csv")
                           true)))
      with (text := js "a,b").
    + vm_compute. reflexivity.
    + left. reflexivity.
    + vm_compute. reflexivity.
    + vm_compute. discriminate.
  - apply (proj2 (proj2 (convertToXlsx_returns (reading decodedBook) (bytes "a,b")
                           (js "data.csv") false))).
    + vm_compute. reflexivity.
    + vm_compute. reflexivity.
    + vm_compute. discriminate.
    + vm_compute. repeat constructor. intros [].
Defined.

(** C2, the claim as stated fails: without the force flag a zero-length
    [data.csv], which the standard parser reads as a workbook with an empty
    sheet, raises as well. *)
Lemma convertToXlsx_raises_without_force :
  convertToXlsx (reading emptyBook) [] (js "data.csv") false
  = Throw (CONVERSION_FAILED ++ NO_DATA).
Proof. vm_compute. reflexivity. Qed.

(** C2 (amended).  For a buffer the encoding resolver decodes.  With the
    force flag set, [convertToXlsx] raises exactly when the input is on the
    text route and the decoded text has no line that is not blank.  With the
    flag unset it raises exactly when the input is on the text route and
    either the standard parser throws or reads an empty header and the
    decoded text has no line that is not blank, or the standard parser reads
    a workbook on which the workbook normalizer throws, which it does not
    on a workbook of at most 65535 sheets whose safe names are pairwise
    distinct.  What it raises is the fixed prefix followed by the message of
    that failure. *)
Theorem convertToXlsx_failure (E : Collaborators) (buffer : Buffer)
    (filename text : jsstring) :
  detectAndDecode E buffer = Ok text ->
  (forall m,
      convertToXlsx E buffer filename true = Throw m
      <-> isExcelRoute buffer filename = false /\ textLines text = []
          /\ m = CONVERSION_FAILED ++ NO_DATA)
  /\
  (forall m,
      convertToXlsx E buffer filename false = Throw m
      <-> isExcelRoute buffer filename = false
          /\ (((exists thrown, standardParse E buffer = Throw thrown)
               /\ textLines text = [] /\ m = CONVERSION_FAILED ++ NO_DATA)
              \/ (exists workbook thrown,
                     standardParse E buffer = Ok workbook
                     /\ normalizeWorkbook E workbook = Throw thrown
                     /\ m = CONVERSION_FAILED ++ thrown)))
  /\
  (forall workbook,
      standardParse E buffer = Ok workbook ->
      Z.of_nat (length workbook) <= 0xFFFF ->
      NoDup (map safeSheetName (map fst workbook)) ->
      forall thrown, normalizeWorkbook E workbook <> Throw thrown).
Proof.
  intros Hd.
  assert (Hexcel : forall force m,
             isExcelRoute buffer filename = true ->
             convertToXlsx E buffer filename force <> Throw m).
  { intros force m Hr H. rewrite (convertToXlsx_excel E buffer filename force Hr) in H.
    destruct (handleExcelFile_total E buffer filename) as [out [Ho _]]. congruence. }
  split; [|split]; [intros m; destruct (isExcelRoute buffer filename) eqn:Hr ..|].
  - split; [intros H; now apply Hexcel in H|intros [H _]; discriminate].
  - rewrite (convertToXlsx_text E buffer filename true Hr).
    rewrite (convertText_forced_throws E buffer text m Hd). tauto.
  - split; [intros H; now apply Hexcel in H|intros [H _]; discriminate].
  - rewrite (convertToXlsx_text E buffer filename false Hr).
    rewrite (convertText_unforced_throws E buffer text m Hd). tauto.
  - intros workbook _ Hlen Hnd thrown.
    rewrite (normalizeWorkbook_distinct E workbook Hlen Hnd). discriminate.
Qed.

(** A [data.txt] made of one space, and a [book.csv] the standard parser
    reads as two sheets named [a b] and [a_b]; neither is forced. *)
Lemma convertToXlsx_failure_witness :
  convertToXlsx rejecting (bytes " ") (js "data.txt") false
  = Throw (CONVERSION_FAILED ++ NO_DATA)
  /\ convertToXlsx (reading twinBook) (bytes "a,b") (js "book.csv") false
     = Throw (CONVERSION_FAILED ++ js "Worksheet with name |a_b| already exists!").
Proof.
  split.
  - apply (proj1 (proj2 (convertToXlsx_failure rejecting (bytes " ") (js "data.txt")
                           (js " ") ltac:(vm_compute; reflexivity)))).
    split; [vm_compute; reflexivity|]. left.
    split; [eexists; vm_compute; reflexivity|]. split; [vm_compute|]; reflexivity.
  - apply (proj1 (proj2 (convertToXlsx_failure (reading twinBook) (bytes "a,b")
                           (js "book.csv") (js "a,b") ltac:(vm_compute; reflexivity)))).
    split; [vm_compute; reflexivity|]. right.
    exists twinBook, (js "Worksheet with name |a_b| already exists!").
    split; [vm_compute; reflexivity|]. split; [vm_compute|]; reflexivity.
Defined.

(** ** [tryDecompressData] *)

Lemma redecodeAttempt_markup (data : jsstring) (encodings : list string) (r : jsstring) :
  redecodeAttempt data encodings = Some r -> looksLikeMarkup r = true.
Proof.
  induction encodings as [|encoding encodings IH]; cbn [redecodeAttempt]; [discriminate|].
  destruct (Buffer_toString encoding (Buffer_from_latin1 data)) as [decoded|m];
    [|exact IH].
  destruct (looksLikeMarkup decoded) eqn:Hm; cbn [andb]; [|exact IH].
  destruct (includes (js "xml") decoded); [|exact IH].
  intros H. injection H as <-. exact Hm.
Qed.

Lemma inflateAttempt_markup (inflate : Buffer -> result Buffer) (b : Buffer) (r : jsstring) :
  inflateAttempt inflate b = Some r -> looksLikeMarkup r = true.
Proof.
  unfold inflateAttempt. destruct (inflate b) as [inflated|m]; [|discriminate].
  destruct (looksLikeMarkup (toString_utf8 inflated)) eqn:Hm; [|discriminate].
  intros H. injection H as <-. exact Hm.
Qed.

(** X18.  What [tryDecompressData] returns, when it is not [null], holds a
    [<] and a [>]; and data that already holds both is returned as it is,
    without any call to zlib. *)
Theorem tryDecompressData_markup (E : Collaborators) (compressedData : jsstring) :
  (forall r, tryDecompressData E compressedData = Some r -> looksLikeMarkup r = true) /\
  (looksLikeMarkup compressedData = true ->
   tryDecompressData E compressedData = Some compressedData).
Proof.
  unfold tryDecompressData. split.
  - intros r. destruct (looksLikeMarkup compressedData) eqn:Hm.
    + intros H. injection H as <-. exact Hm.
    + destruct (inflateAttempt (zlib_inflateRawSync E) _) as [r1|] eqn:H1.
      * intros H. injection H as <-. exact (inflateAttempt_markup _ _ _ H1).
      * destruct (inflateAttempt (zlib_gunzipSync E) _) as [r2|] eqn:H2.
        -- intros H. injection H as <-. exact (inflateAttempt_markup _ _ _ H2).
        -- apply redecodeAttempt_markup.
  - intros ->. reflexivity.
Qed.

Lemma tryDecompressData_markup_witness :
  tryDecompressData rejecting (js "<sst></sst>") = Some (js "<sst></sst>").
Proof.
  apply (proj2 (tryDecompressData_markup rejecting (js "<sst></sst>"))).
  vm_compute. reflexivity.
Defined.

(** ** The tables of the miners *)

Lemma chunkRows_rectangular (fuel width : nat) (l : list jsstring) :
  rectangular width (chunkRows fuel width l).
Proof.
  revert l. induction fuel as [|fuel IH]; intros l; [constructor|].
  cbn [chunkRows]. destruct l as [|x l]; [constructor|].
  constructor; [|apply IH].
  rewrite length_app, repeat_length.
  pose proof (firstn_le_length width (x :: l)). lia.
Qed.

(** The rows hold the elements in their order, followed by the empty
    strings that fill the last row. *)
Lemma chunkRows_concat (fuel width : nat) (l : list jsstring) :
  (1 <= width)%nat -> (length l <= fuel)%nat ->
  exists pad, (pad < width)%nat /\ concat (chunkRows fuel width l) = l ++ repeat [] pad.
Proof.
  intros Hw. revert l. induction fuel as [|fuel IH]; intros l Hf.
  - destruct l; [|simpl in Hf; lia]. exists 0%nat. split; [lia|reflexivity].
  - destruct l as [|x l]; [exists 0%nat; split; [lia|reflexivity]|].
    cbn [chunkRows concat].
    destruct (Nat.le_gt_cases (length (x :: l)) width) as [Hshort|Hlong].
    + rewrite firstn_all2 by exact Hshort. rewrite skipn_all2 by exact Hshort.
      assert (Hnil : chunkRows fuel width [] = []) by (destruct fuel; reflexivity).
      rewrite Hnil. cbn [concat]. rewrite app_nil_r.
      exists (width - length (x :: l))%nat. split; [simpl; lia|reflexivity].
    + assert (Hlen : length (firstn width (x :: l)) = width)
        by (apply firstn_length_le; lia).
      rewrite Hlen, Nat.sub_diag. cbn [repeat]. rewrite app_nil_r.
      destruct (IH (skipn width (x :: l))) as [pad [Hpad Hc]].
      { rewrite length_skipn. cbn [length] in Hf, Hlong |- *. lia. }
      exists pad. split; [exact Hpad|]. rewrite Hc, app_assoc, firstn_skipn. reflexivity.
Qed.

(** X19.  The table of the string-pool miner: the first texts, at most
    ten, normalized as headers; then the other texts in their order, in rows
    as wide as the header, the last row filled with empty strings.  Every
    row has the width of the header and no text is left out. *)
Theorem sharedStringsTable_rows (extractedTexts : list jsstring) :
  extractedTexts <> [] ->
  let headerCount := Nat.min (length extractedTexts) 10 in
  exists rows pad,
    sharedStringsTable extractedTexts
    = strTable (map normalizeHeaderField (firstn headerCount extractedTexts) :: rows) /\
    rectangular headerCount
      (map normalizeHeaderField (firstn headerCount extractedTexts) :: rows) /\
    (pad < headerCount)%nat /\
    concat rows = skipn headerCount extractedTexts ++ repeat [] pad.
Proof.
  intros Hne headerCount.
  assert (Hpos : (1 <= headerCount)%nat).
  { unfold headerCount. destruct extractedTexts; [congruence|simpl; lia]. }
  destruct (chunkRows_concat (length extractedTexts) headerCount
              (skipn headerCount extractedTexts) Hpos) as [pad [Hpad Hc]].
  { rewrite length_skipn. lia. }
  exists (chunkRows (length extractedTexts) headerCount (skipn headerCount extractedTexts)),
    pad.
  split; [reflexivity|]. split; [|split; [exact Hpad|exact Hc]].
  constructor; [|apply chunkRows_rectangular].
  rewrite length_map, length_firstn. unfold headerCount. lia.
Qed.

Lemma sharedStringsTable_rows_witness :
  exists rows pad,
    sharedStringsTable [js "a"; js "b"]
    = strTable (map normalizeHeaderField (firstn 2 [js "a"; js "b"]) :: rows) /\
    rectangular 2 (map normalizeHeaderField (firstn 2 [js "a"; js "b"]) :: rows) /\
    (pad < 2)%nat /\
    concat rows = skipn 2 [js "a"; js "b"] ++ repeat [] pad.
Proof.
  apply (sharedStringsTable_rows [js "a"; js "b"]). discriminate.
Defined.

Lemma estimatedColumns_bounds (n : nat) : (3 <= estimatedColumns n <= 15)%nat.
Proof. unfold estimatedColumns. lia. Qed.

(** X20.  The table of the cell-markup miner: the values in their order in
    rows of [estimatedColumns] cells, a width between 3 and 15, the last row
    filled with empty strings; the first row, once filled, is turned into
    header names.  Every row has that width and no value is left out. *)
Theorem worksheetTable_rows (extractedValues : list jsstring) :
  extractedValues <> [] ->
  let width := estimatedColumns (length extractedValues) in
  exists row rows pad,
    worksheetTable extractedValues = strTable (map (headerCell row) row :: rows) /\
    (3 <= width <= 15)%nat /\
    rectangular width (map (headerCell row) row :: rows) /\
    (pad < width)%nat /\
    concat (row :: rows) = extractedValues ++ repeat [] pad.
Proof.
  intros Hne width.
  pose proof (estimatedColumns_bounds (length extractedValues)) as Hw. fold width in Hw.
  destruct (chunkRows_concat (length extractedValues) width extractedValues
              ltac:(lia) (le_n _)) as [pad [Hpad Hc]].
  pose proof (chunkRows_rectangular (length extractedValues) width extractedValues) as Hr.
  unfold worksheetTable. fold width.
  destruct (chunkRows (length extractedValues) width extractedValues) as [|row rows] eqn:E.
  - destruct extractedValues; [congruence|discriminate].
  - exists row, rows, pad. split; [reflexivity|]. split; [exact Hw|].
    split; [|split; [exact Hpad|exact Hc]].
    inversion Hr; subst. constructor; [now rewrite length_map|assumption].
Qed.

Lemma worksheetTable_rows_witness :
  exists row rows pad,
    worksheetTable [js "1"; js "2"; js "3"; js "4"]
    = strTable (map (headerCell row) row :: rows) /\
    (3 <= estimatedColumns 4 <= 15)%nat /\
    rectangular (estimatedColumns 4) (map (headerCell row) row :: rows) /\
    (pad < estimatedColumns 4)%nat /\
    concat (row :: rows) = [js "1"; js "2"; js "3"; js "4"] ++ repeat [] pad.
Proof.
  apply (worksheetTable_rows [js "1"; js "2"; js "3"; js "4"]). discriminate.
Defined.

(** ** The outcome of the cell-markup miner *)

(** X21.  The cell-markup miner throws exactly when no cell of the markup
    has a value, and then always the same message; otherwise it returns
    the table of the values written on the sheet [Sheet1]. *)
Theorem extractDataFromWorksheet_outcome (E : Collaborators) (worksheetContent : jsstring) :
  (cellValues worksheetContent = [] ->
   extractDataFromWorksheet E worksheetContent = Throw WORKSHEET_FAILED) /\
  (cellValues worksheetContent <> [] ->
   extractDataFromWorksheet E worksheetContent
   = Ok (XLSX_write E [(js "Sheet1", worksheetTable (cellValues worksheetContent))]
           WRITE_XLSX_COMPRESSED)) /\
  (forall m, extractDataFromWorksheet E worksheetContent = Throw m ->
             m = WORKSHEET_FAILED /\ cellValues worksheetContent = []).
Proof.
  unfold extractDataFromWorksheet.
  destruct (cellValues worksheetContent) as [|v vs] eqn:Ev.
  - split; [reflexivity|]. split; [congruence|].
    cbn [try_catch]. intros m H. injection H as <-. now split.
  - rewrite writeSheet_ok by (vm_compute; reflexivity). cbn [bind try_catch].
    split; [discriminate|]. split; [reflexivity|discriminate].
Qed.

Lemma extractDataFromWorksheet_outcome_witness :
  extractDataFromWorksheet rejecting (js "<c><f>1</f></c>") = Throw WORKSHEET_FAILED.
Proof.
  apply (proj1 (extractDataFromWorksheet_outcome rejecting (js "<c><f>1</f></c>"))).
  vm_compute. reflexivity.
Defined.

(** ** The table of the byte-scan miner *)

Lemma dedupe_go_spec (seen l : list jsstring) :
  NoDup (dedupe_go seen l) /\
  forall x, In x (dedupe_go seen l) -> In x l /\ ~ In x seen.
Proof.
  revert seen. induction l as [|x l IH]; intros seen; cbn [dedupe_go].
  - split; [constructor|intros x []].
  - destruct (existsb (str_eqb x) seen) eqn:Ex.
    + destruct (IH seen) as [Hnd Hin]. split; [exact Hnd|].
      intros y Hy. destruct (Hin y Hy) as [H1 H2]. split; [now right|exact H2].
    + destruct (IH (x :: seen)) as [Hnd Hin]. split.
      * constructor; [|exact Hnd]. intros Hx. destruct (Hin x Hx) as [_ H2].
        apply H2. now left.
      * intros y [<- | Hy].
        -- split; [now left|]. intros Hs.
           assert (existsb (str_eqb x) seen = true) by now apply existsb_str_eqb.
           congruence.
        -- destruct (Hin y Hy) as [H1 H2]. split; [now right|].
           intros Hs. apply H2. now right.
Qed.

Lemma NoDup_firstn {A : Type} (n : nat) (l : list A) : NoDup l -> NoDup (firstn n l).
Proof.
  intros H. rewrite <- (firstn_skipn n l) in H. exact (NoDup_app_remove_r _ _ H).
Qed.

Lemma firstn_subset {A : Type} (n : nat) (l : list A) (x : A) :
  In x (firstn n l) -> In x l.
Proof.
  intros H. rewrite <- (firstn_skipn n l). apply in_or_app. now left.
Qed.

Lemma classifyText_row (text : jsstring) :
  exists type description,
    classifyText text
    = [normalizeHeaderField text; type; String_of_nat (length text); description].
Proof.
  unfold classifyText.
  destruct (re_test RE_pureHangul text); [now eexists _, _|].
  destruct (re_test RE_pureAlpha text); [now eexists _, _|].
  destruct (re_test RE_pureDigits text); now eexists _, _.
Qed.

(** X22.  The texts the byte scan keeps are at most 100, pairwise distinct
    and none is blank.  When there is one, the result is the sheet
    [MeaningfulData]: a header row, then one row for every text, in their
    order, holding the text normalized as a header, a type, the length of
    the text and a description. *)
Theorem findMeaningfulTextInBuffer_table (E : Collaborators) (buffer : Buffer)
    (filename : jsstring) :
  let texts := uniqueTexts buffer filename in
  (length texts <= 100)%nat /\ NoDup texts /\
  Forall (fun text => nonBlank text = true) texts /\
  (texts <> [] ->
   exists rows,
     findMeaningfulTextInBuffer E buffer filename
     = Ok (XLSX_write E
             [(js "MeaningfulData",
               strTable ([js "발견된 텍스트"; js "타입"; js "길이"; js "설명"] :: rows))]
             WRITE_XLSX_COMPRESSED) /\
     Forall2 (fun text row =>
                exists type description,
                  row = [normalizeHeaderField text; type; String_of_nat (length text);
                         description])
       texts rows).
Proof.
  intros texts. split; [|split; [|split]].
  - apply firstn_le_length.
  - apply NoDup_firstn. apply NoDup_filter. apply dedupe_go_spec.
  - apply Forall_forall. intros x Hx. apply firstn_subset in Hx.
    apply filter_In in Hx. apply Hx.
  - intros Hne. exists (map classifyText texts). split.
    + unfold findMeaningfulTextInBuffer, findMeaningfulTexts_try. fold texts.
      destruct texts as [|t ts]; [congruence|].
      rewrite writeSheet_ok by (vm_compute; reflexivity).
      reflexivity.
    + clear Hne. induction texts as [|t ts IH]; constructor; [|exact IH].
      apply classifyText_row.
Qed.

Lemma findMeaningfulTextInBuffer_table_witness :
  exists rows,
    findMeaningfulTextInBuffer rejecting [] (js "order2024.bin")
    = Ok (XLSX_write rejecting
            [(js "MeaningfulData",
              strTable ([js "발견된 텍스트"; js "타입"; js "길이"; js "설명"] :: rows))]
            WRITE_XLSX_COMPRESSED) /\
    Forall2 (fun text row =>
               exists type description,
                 row = [normalizeHeaderField text; type; String_of_nat (length text);
                        description])
      (uniqueTexts [] (js "order2024.bin")) rows.
Proof.
  apply (proj2 (proj2 (proj2
           (findMeaningfulTextInBuffer_table rejecting [] (js "order2024.bin"))))).
  vm_compute. discriminate.
Defined.

(** ** The table of [convertBinaryToJsonToXlsx] *)

Lemma bestSplit_length (firstLine : jsstring) :
  (1 <= length (bestSplit firstLine) <= 20)%nat.
Proof.
  unfold bestSplit.
  assert (H : forall ds acc,
             (1 <= length (fst acc) <= 20)%nat ->
             (1 <= length (fst (fold_left
                (fun (acc : list jsstring * nat) delimiter =>
                   let split := filter nonBlank (split_on delimiter firstLine) in
                   if (snd acc <? length split)%nat && (length split <=? 20)%nat
                   then (split, length split) else acc) ds acc)) <= 20)%nat).
  { induction ds as [|d ds IH]; intros acc Hacc; [exact Hacc|].
    cbn [fold_left]. apply IH. cbv zeta.
    destruct ((snd acc <? length (filter nonBlank (split_on d firstLine)))%nat) eqn:H1;
      cbn [andb]; [|exact Hacc].
    destruct ((length (filter nonBlank (split_on d firstLine)) <=? 20)%nat) eqn:H2;
      [|exact Hacc].
    cbn [fst]. apply Nat.ltb_lt in H1. apply Nat.leb_le in H2. lia. }
  apply H. cbn. lia.
Qed.

Lemma binaryHeader_shape (lines : list jsstring) :
  lines <> [] ->
  exists h, binaryHeader lines = [h] /\ (2 <= length h <= 20)%nat.
Proof.
  intros Hne. destruct lines as [|firstLine lines]; [congruence|].
  unfold binaryHeader. cbv zeta. rewrite length_map.
  pose proof (bestSplit_length firstLine) as Hb.
  destruct (Nat.ltb_spec 1 (length (bestSplit firstLine))).
  - eexists. split; [reflexivity|]. rewrite length_map. lia.
  - eexists. split; [reflexivity|]. cbn. lia.
Qed.

Lemma binaryCells_length (headerLength : nat) (line : jsstring) :
  length (binaryCells headerLength line) = headerLength.
Proof.
  unfold binaryCells. cbv zeta. rewrite length_firstn, length_app, repeat_length. lia.
Qed.

Lemma binaryRows_rectangular (h : list jsstring) (data : list (string * list jsstring)) :
  (1 <= length h)%nat ->
  rectangular (length h) (binaryRows [h] data).
Proof.
  intros Hh. unfold binaryRows, rectangular.
  assert (Hl : match length h with O => 4%nat | n => n end = length h)
    by (destruct (length h); [lia|reflexivity]).
  rewrite Hl. apply Forall_concat. unfold mapi. apply mapi_from_Forall.
  intros encodingIndex item. apply Forall_concat. apply mapi_from_Forall.
  intros lineIndex line.
  destruct ((encodingIndex =? 0)%nat && (lineIndex =? 0)%nat && (0 <? length [h])%nat);
    [constructor|].
  destruct (existsb nonBlank (binaryCells (length h) line)); [|constructor].
  constructor; [apply binaryCells_length|constructor].
Qed.

Lemma extractedData_lines (buffer : Buffer) :
  Forall (fun item : string * list jsstring => snd item <> []) (extractedData buffer).
Proof.
  unfold extractedData. apply Forall_flat_map. apply Forall_forall. intros encoding _.
  unfold extractEncoding. destruct (Buffer_toString encoding buffer); [|constructor].
  destruct (meaningfulLines a) eqn:E; [constructor|].
  constructor; [discriminate|constructor].
Qed.

Lemma moreLines_fold (P : string * list jsstring -> Prop)
    (l : list (string * list jsstring)) (a : string * list jsstring) :
  P a -> Forall P l -> P (fold_left moreLines l a).
Proof.
  revert a. induction l as [|x l IH]; intros a Ha Hl; [exact Ha|].
  inversion Hl; subst. cbn [fold_left]. apply IH; [|assumption].
  unfold moreLines. destruct (_ <? _)%nat; assumption.
Qed.

(** X23.  When some encoding gives a meaningful line, the table of
    [convertBinaryToJsonToXlsx], written on the sheet [ExtractedData], is
    one header row of 2 to 20 cells followed by rows that all have as many
    cells as the header. *)
Theorem convertBinaryToJsonToXlsx_table (E : Collaborators) (buffer : Buffer)
    (filename : jsstring) :
  extractedData buffer <> [] ->
  exists h rows,
    convertBinaryToJsonToXlsx E buffer filename
    = Ok (XLSX_write E [(js "ExtractedData", strTable (h :: rows))]
            WRITE_XLSX_COMPRESSED) /\
    (2 <= length h <= 20)%nat /\
    rectangular (length h) (h :: rows).
Proof.
  intros Hne. unfold convertBinaryToJsonToXlsx.
  pose proof (extractedData_lines buffer) as Hlines.
  destruct (extractedData buffer) as [|item data] eqn:Ed; [congruence|].
  cbn [reduce1 bind]. inversion Hlines as [|? ? Hitem Hdata]; subst.
  pose proof (moreLines_fold (fun item => snd item <> []) data item Hitem Hdata) as Hbest.
  destruct (binaryHeader_shape _ Hbest) as [h [Hh Hlen]].
  rewrite Hh. cbn [app].
  rewrite writeSheet_ok by (vm_compute; reflexivity). cbn [try_catch].
  exists h, (binaryRows [h] (item :: data)). split; [reflexivity|].
  split; [exact Hlen|].
  constructor; [reflexivity|]. apply binaryRows_rectangular. lia.
Qed.

Lemma convertBinaryToJsonToXlsx_table_witness :
  exists h rows,
    convertBinaryToJsonToXlsx rejecting (bytes "a,b") (js "f.xls")
    = Ok (XLSX_write rejecting [(js "ExtractedData", strTable (h :: rows))]
            WRITE_XLSX_COMPRESSED) /\
    (2 <= length h <= 20)%nat /\
    rectangular (length h) (h :: rows).
Proof.
  apply (convertBinaryToJsonToXlsx_table rejecting (bytes "a,b") (js "f.xls")).
  vm_compute. discriminate.
Defined.

(** X24.  When no encoding gives a meaningful line, the search for the
    best encoding throws on the empty list, and the result is the table of
    the [catch]: the sheet [FileInfo] with a header row and one row holding
    the file name and the byte length followed by [ bytes]. *)
Theorem convertBinaryToJsonToXlsx_no_line (E : Collaborators) (buffer : Buffer)
    (filename : jsstring) :
  extractedData buffer = [] ->
  convertBinaryToJsonToXlsx E buffer filename
  = Ok (XLSX_write E
          [(js "FileInfo",
            strTable [[js "파일명"; js "크기"; js "상태"; js "비고"];
                      [filename; String_of_nat (length buffer) ++ js " bytes";
                       js "변환 실패"; js "바이너리 파일 - 수동 확인 필요"]])]
          WRITE_XLSX_COMPRESSED).
Proof.
  intros Hnone. unfold convertBinaryToJsonToXlsx. rewrite Hnone.
  cbn [reduce1 bind try_catch].
  rewrite writeSheet_ok by (vm_compute; reflexivity). reflexivity.
Qed.

Lemma convertBinaryToJsonToXlsx_no_line_witness :
  convertBinaryToJsonToXlsx rejecting [] (js "f.xls")
  = Ok (XLSX_write rejecting
          [(js "FileInfo",
            strTable [[js "파일명"; js "크기"; js "상태"; js "비고"];
                      [js "f.xls"; String_of_nat (length (@nil byte)) ++ js " bytes";
                       js "변환 실패"; js "바이너리 파일 - 수동 확인 필요"]])]
          WRITE_XLSX_COMPRESSED).
Proof.
  apply (convertBinaryToJsonToXlsx_no_line rejecting [] (js "f.xls")).
  vm_compute. reflexivity.
Defined.

(** ** [processFile] on the Excel route *)

(** X25.  A file with a supported extension and an allowed size that is
    routed to the Excel path (extension [xls] or [xlsx], or a ZIP
    signature) is always converted: the result has success, the buffer the
    writer made and its length, the length of the input, no message, and
    the sanitized base name followed by [_변환완료.xlsx] as file name. *)
Theorem processFile_excel_succeeds (E : Collaborators) (input : Buffer)
    (originalFilename : jsstring) (forceTextRecovery : bool) :
  validateFileExtension originalFilename = true ->
  validateFileSize (Z.of_nat (length input)) = true ->
  isExcelRoute input originalFilename = true ->
  exists r out,
    processFile E input originalFilename forceTextRecovery = Ok r /\
    success r = true /\ buffer r = Some out /\ written E out /\
    convertedSize r = Some (length out) /\ originalSize r = length input /\
    message r = None /\
    filename r
    = sanitizeFilename (re_replace RE_extension originalFilename [])
      ++ js "_변환완료.xlsx".
Proof.
  intros Hext Hsize Hroute. unfold processFile, processFile_try.
  rewrite Hext, Hsize. cbn [negb]. unfold convertToXlsx. rewrite Hroute.
  destruct (handleExcelFile_total E input originalFilename) as [out [Hout Hw]].
  rewrite Hout. cbn [bind try_catch].
  eexists _, out. split; [reflexivity|]. cbn.
  split; [reflexivity|]. split; [reflexivity|]. split; [exact Hw|].
  repeat split.
Qed.

Lemma processFile_excel_succeeds_witness :
  exists r out,
    processFile rejecting [] (js "old.xls") true = Ok r /\
    success r = true /\ buffer r = Some out /\ written rejecting out /\
    convertedSize r = Some (length out) /\ originalSize r = length (@nil byte) /\
    message r = None /\
    filename r
    = sanitizeFilename (re_replace RE_extension (js "old.xls") []) ++ js "_변환완료.xlsx".
Proof.
  apply (processFile_excel_succeeds rejecting [] (js "old.xls") true);
    vm_compute; reflexivity.
Defined.

(** ** The callers *)

(** X26.  The check of the file picker and the validation of [processFile]
    agree: a file the picker refuses is a file [processFile] refuses before
    converting, with the same message; a file the picker lets through has a
    supported extension and an allowed size. *)
Theorem validateFile_agrees (E : Collaborators) (input : Buffer) (name : jsstring)
    (forceTextRecovery : bool) :
  match FileUploader.validateFile name (Z.of_nat (length input)) with
  | Some shown =>
    processFile E input name forceTextRecovery
    = Ok (MkConversionResult false None name (length input) None (Some shown) None)
  | None =>
    validateFileExtension name = true /\
    validateFileSize (Z.of_nat (length input)) = true
  end.
Proof.
  unfold FileUploader.validateFile, processFile, processFile_try.
  change (existsb (str_eqb
            (substring_from (orElse (lastIndexOf_end (js ".") name) 0%nat)
               (toLowerCase name))) FileUploader.SUPPORTED_EXTENSIONS)
    with (validateFileExtension name).
  destruct (validateFileExtension name); cbn [negb].
  - unfold validateFileSize.
    change FileUploader.MAX_FILE_SIZE with MAX_FILE_SIZE.
    rewrite Z.ltb_antisym.
    destruct (Z.of_nat (length input) <=? MAX_FILE_SIZE); cbn [negb].
    + split; reflexivity.
    + cbn [try_catch]. vm_compute (js _ ++ _). reflexivity.
  - cbn [try_catch]. vm_compute (js _ ++ _). reflexivity.
Qed.

Lemma download_class (c : Z) :
  in_ranges (c_word ++ c_hangul ++ [one "-"; one "_"]) c = downloadChar c.
Proof.
  change (c_word ++ c_hangul ++ [one "-"; one "_"])
    with [(48, 57); (65, 90); (95, 95); (97, 122); (0xAC00, 0xD7A3); (45, 45); (95, 95)].
  unfold in_ranges, downloadChar, isWordChar, isDigit, isHangul. cbn [existsb fst snd].
  apply eq_true_iff_eq.
  rewrite !orb_true_iff, !andb_true_iff, !Z.leb_le, !Z.eqb_eq. lia.
Qed.

(** X27.  The name the API route gives the download is a stem followed by
    [_변환완료.xlsx]; the stem is not empty and is made of letters, digits,
    underscores, Hangul syllables and hyphens only. *)
Theorem convertedFilename_safe (originalFilename : jsstring) :
  exists stem,
    convertedFilename originalFilename = stem ++ js "_변환완료.xlsx" /\
    stem <> [] /\ Forall (fun c => downloadChar c = true) stem.
Proof.
  assert (Hmap : forall name,
             re_replace_g RE_notDownloadChar name (js "_")
             = map (fun c => if downloadChar c then c else UNDERSCORE) name).
  { intros name. unfold RE_notDownloadChar. rewrite replace_class.
    induction name as [|c s IH]; [reflexivity|].
    cbn [flat_map map]. rewrite IH, download_class. cbn [xorb].
    destruct (downloadChar c); reflexivity. }
  assert (Hsafe : forall name,
             Forall (fun c => downloadChar c = true)
               (map (fun c => if downloadChar c then c else UNDERSCORE) name)).
  { intros name. apply Forall_forall. intros x Hx. apply in_map_iff in Hx.
    destruct Hx as [c [<- _]]. destruct (downloadChar c) eqn:Ec; [exact Ec|reflexivity]. }
  unfold convertedFilename. cbv zeta.
  destruct (re_replace RE_extension originalFilename []) as [|c name];
    rewrite Hmap; eexists; (split; [reflexivity|]); (split; [discriminate|apply Hsafe]).
Qed.

(** X28.  The fallback of the API route never forces text recovery.  It
    cannot fail on an input routed to the Excel path; when it fails, the
    converter threw on the text route, and what the caller gets is one
    fixed message, not the one the converter threw. *)
Theorem fallbackToTypeScript_outcome (E : Collaborators) (fileBuffer : Buffer)
    (filename : jsstring) :
  (isExcelRoute fileBuffer filename = true ->
   exists out, fallbackToTypeScript E fileBuffer filename = Ok out /\ written E out) /\
  (forall out, fallbackToTypeScript E fileBuffer filename = Ok out <->
               convertToXlsx E fileBuffer filename false = Ok out) /\
  (forall m, fallbackToTypeScript E fileBuffer filename = Throw m ->
             m = ALL_FAILED /\ isExcelRoute fileBuffer filename = false /\
             exists thrown, convertText E fileBuffer false = Throw thrown).
Proof.
  unfold fallbackToTypeScript, convertToXlsx. split; [|split].
  - intros ->. destruct (handleExcelFile_total E fileBuffer filename) as [out [-> Hw]].
    exists out. split; [reflexivity|exact Hw].
  - intros out. destruct (if isExcelRoute fileBuffer filename then _ else _);
      cbn [try_catch]; split; congruence.
  - intros m. destruct (isExcelRoute fileBuffer filename).
    + destruct (handleExcelFile_total E fileBuffer filename) as [out [-> _]]. discriminate.
    + destruct (convertText E fileBuffer false) as [out|thrown]; cbn [try_catch];
        [discriminate|].
      intros H. injection H as <-. repeat split. now exists thrown.
Qed.

Lemma fallbackToTypeScript_outcome_witness :
  exists out, fallbackToTypeScript rejecting [] (js "old.xls") = Ok out
              /\ written rejecting out.
Proof.
  apply (proj1 (fallbackToTypeScript_outcome rejecting [] (js "old.xls"))).
  vm_compute. reflexivity.
Defined.
